(** * Tenant-screening match evaluator: a shallow embedding and its properties

    The development follows [challenge/match_evaluator.py], class
    [EnhancedTenantMatchEvaluator].

    - Python [str] values are sequences of code points.  The alphabet that is
      modelled is Latin-1 (U+0000..U+00FF, one [ascii] per code point) plus
      U+0130 and U+0307; the character classes of [re] ([\w], [\s]) and
      [str.lower] are exact on it, and it is closed under every string
      operation the engine performs.
    - Python [float] is binary64: the kernel's primitive floats.
    - Dictionaries, lists and sets are objects in a store; values hold
      references to them, so that [dict.copy] is shallow and [set.update]
      is an update in place.
    - Exceptions are a second outcome of a computation, which still carries
      the store reached when the exception was raised. *)

From Stdlib Require Import ZArith NArith String Ascii List Bool Lia Floats.
From stdpp Require Import base tactics option list.
Import ListNotations.

Set Warnings "-inexact-float".
Local Open Scope string_scope.
Local Open Scope list_scope.

(* ------------------------------------------------------------------------- *)
(** ** Strings *)

Module Str.

(** A code point of the modelled alphabet. *)
Inductive char : Type :=
| L1 (a : ascii)   (* U+0000 .. U+00FF *)
| CapIDot          (* U+0130 LATIN CAPITAL LETTER I WITH DOT ABOVE *)
| CombDot.         (* U+0307 COMBINING DOT ABOVE *)

Definition str := list char.

Definition char_eqb (c d : char) : bool :=
  match c, d with
  | L1 a, L1 b => Ascii.eqb a b
  | CapIDot, CapIDot => true
  | CombDot, CombDot => true
  | _, _ => false
  end.

Fixpoint str_eqb (s t : str) : bool :=
  match s, t with
  | [], [] => true
  | c :: s', d :: t' => char_eqb c d && str_eqb s' t'
  | _, _ => false
  end.

(** A literal of the source, as a [str]. *)
Definition u (s : string) : str := map L1 (list_ascii_of_string s).

Definition between (lo hi n : N) : bool := ((lo <=? n) && (n <=? hi))%N.

(** [str.isspace] on Latin-1: the characters [\s] matches and on which
    [str.split()] and [str.strip()] cut. *)
Definition l1_isspace (n : N) : bool :=
  between 9 13 n || between 28 32 n || (n =? 133)%N || (n =? 160)%N.

(** [str.isalnum] on Latin-1: letters, decimal digits, and the characters with
    a numeric value (superscripts and vulgar fractions). *)
Definition l1_isalnum (n : N) : bool :=
  between 48 57 n || between 65 90 n || between 97 122 n
  || (n =? 170)%N || between 178 179 n || (n =? 181)%N
  || between 185 186 n || between 188 190 n
  || between 192 214 n || between 216 246 n || between 248 255 n.

Definition l1_isupper (n : N) : bool :=
  between 65 90 n || between 192 214 n || between 216 222 n.

Definition isspace (c : char) : bool :=
  match c with
  | L1 a => l1_isspace (N_of_ascii a)
  | CapIDot | CombDot => false
  end.

(** [\w]: alphanumeric or underscore.  A combining mark is not alphanumeric. *)
Definition isword (c : char) : bool :=
  match c with
  | L1 a => l1_isalnum (N_of_ascii a) || (N_of_ascii a =? 95)%N
  | CapIDot => true
  | CombDot => false
  end.

(** [str.lower] of one character; U+0130 lowers to two code points. *)
Definition lower_char (c : char) : list char :=
  match c with
  | L1 a =>
      let n := N_of_ascii a in
      [L1 (if l1_isupper n then ascii_of_N (n + 32) else a)]
  | CapIDot => [L1 "i"%char; CombDot]
  | CombDot => [CombDot]
  end.

Definition lower (s : str) : str := flat_map lower_char s.

(** [re.sub(r'[^\w\s]', '', s)] *)
Definition strip_special (s : str) : str :=
  List.filter (fun c => isword c || isspace c) s.

(** [s.split()] : maximal runs of non-whitespace. *)
Fixpoint split_from (cur : str) (s : str) : list str :=
  match s with
  | [] => match cur with [] => [] | _ => [rev cur] end
  | c :: s' =>
      if isspace c
      then match cur with [] => split_from [] s' | _ => rev cur :: split_from [] s' end
      else split_from (c :: cur) s'
  end.

Definition split (s : str) : list str := split_from [] s.

Fixpoint lstrip (s : str) : str :=
  match s with
  | c :: s' => if isspace c then lstrip s' else s
  | [] => []
  end.

(** [s.strip()] *)
Definition strip (s : str) : str := rev (lstrip (rev (lstrip s))).

Definition is_latin1 (c : char) : bool :=
  match c with L1 _ => true | _ => false end.

Definition is_digit (c : char) : bool :=
  match c with L1 a => between 48 57 (N_of_ascii a) | _ => false end.

Definition digit_val (c : char) : Z :=
  match c with L1 a => Z.of_N (N_of_ascii a) - 48 | _ => 0 end.

Definition digit_char (n : Z) : char := L1 (ascii_of_N (Z.to_N (n + 48))).

End Str.
Export Str.

Example split_ex : split (u "  john  o doe ") = [u "john"; u "o"; u "doe"].
Proof. reflexivity. Qed.

(* ------------------------------------------------------------------------- *)
(** ** Floats *)

Module Py.

Local Open Scope float_scope.

(** [float(n)] for a length. *)
Definition float_of_nat (n : nat) : float :=
  PrimFloat.of_uint63 (Uint63.of_Z (Z.of_nat n)).

(** [a / b] on two lengths (true division); the callers guard [b <> 0]. *)
Definition truediv (a b : nat) : float := float_of_nat a / float_of_nat b.

(** [max(x, y)]: the first argument stays unless the second is greater. *)
Definition max2 (x y : float) : float := if x <? y then y else x.

(** [max(a, b, c)] *)
Definition max3 (a b c : float) : float := max2 (max2 a b) c.

(** [f == n] for a float and an int: Python compares the exact values. *)
Definition float_eq_Z (f : float) (n : Z) : bool :=
  match Prim2SF f with
  | S754_zero _ => (n =? 0)%Z
  | S754_finite s m e =>
      let sm := if s then Z.neg m else Z.pos m in
      if (0 <=? e)%Z then (n =? sm * 2 ^ e)%Z
      else (n * 2 ^ (- e) =? sm)%Z
  | _ => false
  end.

End Py.

(* ------------------------------------------------------------------------- *)
(** ** datetime *)

Module Datetime.

Local Open Scope Z_scope.

(** A naive [datetime.datetime]. *)
Record datetime : Type := mkdatetime {
  year : Z; month : Z; day : Z;
  hour : Z; minute : Z; second : Z; microsecond : Z
}.

Definition date (y m d : Z) : datetime := mkdatetime y m d 0 0 0 0.

Definition datetime_eqb (a b : datetime) : bool :=
  (year a =? year b) && (month a =? month b) && (day a =? day b)
  && (hour a =? hour b) && (minute a =? minute b) && (second a =? second b)
  && (microsecond a =? microsecond b).

Definition is_leap (y : Z) : bool :=
  ((y mod 4 =? 0) && negb (y mod 100 =? 0)) || (y mod 400 =? 0).

Definition days_in_month (y m : Z) : Z :=
  if (m =? 2) then (if is_leap y then 29 else 28)
  else if (m =? 4) || (m =? 6) || (m =? 9) || (m =? 11) then 30
  else 31.

(** The directives and literals of a [strptime] format. *)
Inductive item : Type := DY | Dm | Dd | Lit (c : ascii).

(** The fields found so far: year, month, day. *)
Definition fields : Type := (Z * Z * Z)%type.

Definition num2 (a b : char) : Z := 10 * digit_val a + digit_val b.

Definition ch_in (lo hi : N) (c : char) : bool :=
  match c with L1 a => between lo hi (N_of_ascii a) | _ => false end.

Definition ch_is (x : ascii) (c : char) : bool := char_eqb (L1 x) c.

(** The regular expression of one directive, as the ordered list of its
    matches at the head of [s] (the order is that of the alternation):
    - [%Y]: [\d\d\d\d]
    - [%m]: [1[0-2]|0[1-9]|[1-9]]
    - [%d]: [3[01]|[12]\d|0[1-9]|[1-9]| [1-9]] *)
Definition alts (it : item) (s : str) : list (Z * str) :=
  match it with
  | DY =>
      match s with
      | a :: b :: c :: d :: r =>
          if is_digit a && is_digit b && is_digit c && is_digit d
          then [(1000 * digit_val a + 100 * digit_val b + 10 * digit_val c + digit_val d, r)]
          else []
      | _ => []
      end
  | Dm =>
      (match s with
       | a :: b :: r => if ch_is "1" a && ch_in 48 50 b then [(num2 a b, r)] else []
       | _ => [] end)
      ++ (match s with
          | a :: b :: r => if ch_is "0" a && ch_in 49 57 b then [(num2 a b, r)] else []
          | _ => [] end)
      ++ (match s with
          | a :: r => if ch_in 49 57 a then [(digit_val a, r)] else []
          | _ => [] end)
  | Dd =>
      (match s with
       | a :: b :: r => if ch_is "3" a && ch_in 48 49 b then [(num2 a b, r)] else []
       | _ => [] end)
      ++ (match s with
          | a :: b :: r => if ch_in 49 50 a && is_digit b then [(num2 a b, r)] else []
          | _ => [] end)
      ++ (match s with
          | a :: b :: r => if ch_is "0" a && ch_in 49 57 b then [(num2 a b, r)] else []
          | _ => [] end)
      ++ (match s with
          | a :: r => if ch_in 49 57 a then [(digit_val a, r)] else []
          | _ => [] end)
      ++ (match s with
          | a :: b :: r => if ch_is " " a && ch_in 49 57 b then [(digit_val b, r)] else []
          | _ => [] end)
  | Lit c =>
      match s with
      | a :: r => if ch_is c a then [(0, r)] else []
      | _ => []
      end
  end.

Definition put (it : item) (v : Z) (f : fields) : fields :=
  match it, f with
  | DY, (_, m, d) => (v, m, d)
  | Dm, (y, _, d) => (y, v, d)
  | Dd, (y, m, _) => (y, m, v)
  | Lit _, _ => f
  end.

(** [re.match] of the compiled format: the first way, in backtracking order,
    to match every item; what is left of the input comes with it. *)
Fixpoint re_match (fmt : list item) (f : fields) (s : str) : option (fields * str) :=
  match fmt with
  | [] => Some (f, s)
  | it :: fmt' =>
      (fix try (cands : list (Z * str)) : option (fields * str) :=
         match cands with
         | [] => None
         | (v, r) :: cands' =>
             match re_match fmt' (put it v f) r with
             | Some res => Some res
             | None => try cands'
             end
         end) (alts it s)
  end.

(** [datetime.strptime(s, fmt)]; [None] stands for [ValueError] (no match,
    unconverted data, or a day the month does not have). *)
Definition strptime (s : str) (fmt : list item) : option datetime :=
  match re_match fmt (1900, 1, 1) s with
  | Some ((y, m, d), []) =>
      if (1 <=? y) && (1 <=? d) && (d <=? days_in_month y m)
      then Some (date y m d) else None
  | _ => None
  end.

(** ['%Y-%m-%d'], ['%d/%m/%Y'], ['%m/%d/%Y'], ['%d-%m-%Y'] *)
Definition dob_formats : list (list item) :=
  [ [DY; Lit "-"; Dm; Lit "-"; Dd];
    [Dd; Lit "/"; Dm; Lit "/"; DY];
    [Dm; Lit "/"; Dd; Lit "/"; DY];
    [Dd; Lit "-"; Dm; Lit "-"; DY] ].

(** The [for fmt in ...: try ... break / except ValueError: continue / else]
    loop: the first format that parses. *)
Fixpoint parse_first (s : str) (fmts : list (list item)) : option datetime :=
  match fmts with
  | [] => None
  | fmt :: rest =>
      match strptime s fmt with
      | Some d => Some d
      | None => parse_first s rest
      end
  end.

Definition pad2 (n : Z) : str := [digit_char (n / 10 mod 10); digit_char (n mod 10)].

Definition pad4 (n : Z) : str :=
  [digit_char (n / 1000 mod 10); digit_char (n / 100 mod 10);
   digit_char (n / 10 mod 10); digit_char (n mod 10)].

(** [%Y] as the C library renders it: the decimal digits of the year, with
    no padding.  They are four from year 1000 on, and fewer below:
    [datetime(999, 1, 1)] is rendered ['999-01-01']. *)
Definition render_year (y : Z) : str :=
  if y <? 10 then [digit_char (y mod 10)]
  else if y <? 100 then pad2 y
  else if y <? 1000 then digit_char (y / 100 mod 10) :: pad2 y
  else pad4 y.

(** [d.strftime('%Y-%m-%d')]; the month and the day are padded to two
    digits. *)
Definition strftime_iso (d : datetime) : str :=
  render_year (year d) ++ u "-" ++ pad2 (month d) ++ u "-" ++ pad2 (day d).

(** [today.year - dob.year - ((today.month, today.day) < (dob.month, dob.day))] *)
Definition age_on (today dob : datetime) : Z :=
  year today - year dob
  - (if (month today <? month dob)
        || ((month today =? month dob) && (day today <? day dob))
     then 1 else 0).

(** The year, month and day are those of a calendar date. *)
Definition valid_date (d : datetime) : Prop :=
  1 <= year d <= 9999 /\ 1 <= month d <= 12 /\ 1 <= day d <= days_in_month (year d) (month d).


End Datetime.
Export Datetime.

Example strptime_iso : parse_first (u "1990-01-01") dob_formats = Some (date 1990 1 1).
Proof. reflexivity. Qed.
Example strptime_dmy : parse_first (u "15/05/1980") dob_formats = Some (date 1980 5 15).
Proof. reflexivity. Qed.
Example strptime_mdy : parse_first (u "05/15/1980") dob_formats = Some (date 1980 5 15).
Proof. reflexivity. Qed.
Example strptime_bad : parse_first (u "1990-02-30") dob_formats = None.
Proof. reflexivity. Qed.
Example strftime_ex : strftime_iso (date 1980 5 15) = u "1980-05-15".
Proof. reflexivity. Qed.
Example strftime_early : strftime_iso (date 999 1 1) = u "999-01-01".
Proof. reflexivity. Qed.

Lemma render_year_four y : (1000 <= y)%Z -> render_year y = pad4 y.
Proof.
  intros H. unfold render_year.
  replace (y <? 10)%Z with false by lia. replace (y <? 100)%Z with false by lia.
  replace (y <? 1000)%Z with false by lia. reflexivity.
Qed.

(* ------------------------------------------------------------------------- *)
(** ** Values, the store, and computations *)

Module Store.

(** A location of the store. *)
Abbreviation loc := nat.

(** A Python value: an immutable scalar, or a reference to a container. *)
Inductive value : Type :=
| VNone
| VBool (b : bool)
| VInt (n : Z)
| VFloat (f : float)
| VStr (s : str)
| VDatetime (d : datetime)
| VRef (l : loc).

(** A [dict] with string keys, in insertion order. *)
Definition dict := list (string * value).

Inductive obj : Type :=
| ODict (d : dict)
| OList (xs : list value)
| OSet (s : list str).     (* a set of strings, without repetition *)

(** The store: the objects allocated so far, by location. *)
Abbreviation heap := (list obj).

Inductive exn : Type :=
| TypeError | AttributeError | KeyError
| SystemError.   (* a reference to no object: not reachable from Python *)

Inductive outcome (A : Type) : Type :=
| Ok (a : A) (h : heap)
| Raise (e : exn) (h : heap).
Arguments Ok {A} a h.
Arguments Raise {A} e h.

Definition M (A : Type) : Type := heap -> outcome A.

Definition ret {A} (a : A) : M A := fun h => Ok a h.
Definition raise {A} (e : exn) : M A := fun h => Raise e h.
Definition bind {A B} (m : M A) (f : A -> M B) : M B :=
  fun h => match m h with
           | Ok a h' => f a h'
           | Raise e h' => Raise e h'
           end.

(** The store a computation ends in, whether it returns or raises. *)
Definition final {A} (o : outcome A) : heap :=
  match o with Ok _ h => h | Raise _ h => h end.

Fixpoint for_each {A} (xs : list A) (body : A -> M unit) : M unit :=
  match xs with
  | [] => ret tt
  | x :: xs' => bind (body x) (fun _ => for_each xs' body)
  end.

(** *** Dictionaries *)

Fixpoint dict_get (k : string) (d : dict) : option value :=
  match d with
  | [] => None
  | (k', v) :: d' => if String.eqb k k' then Some v else dict_get k d'
  end.

(** [d[k] = v]: an existing key keeps its place, a new one goes last. *)
Fixpoint dict_set (k : string) (v : value) (d : dict) : dict :=
  match d with
  | [] => [(k, v)]
  | (k', v') :: d' =>
      if String.eqb k k' then (k, v) :: d' else (k', v') :: dict_set k v d'
  end.

Definition dict_mem (k : string) (d : dict) : bool :=
  match dict_get k d with Some _ => true | None => false end.

(** *** Sets of strings *)

Definition str_mem (x : str) (s : list str) : bool := existsb (str_eqb x) s.

Definition set_add (s : list str) (x : str) : list str :=
  if str_mem x s then s else s ++ [x].

(** [s.update(parts)] *)
Definition set_union (s parts : list str) : list str := fold_left set_add parts s.

(** [set(parts)] *)
Definition set_of_list (parts : list str) : list str := set_union [] parts.

(** [s.intersection(t)] *)
Definition set_inter (s t : list str) : list str := List.filter (fun x => str_mem x t) s.

(** *** Truth value of an object *)

Definition is_nil {A} (l : list A) : bool :=
  match l with [] => true | _ => false end.

Definition truthy (h : heap) (v : value) : bool :=
  match v with
  | VNone => false
  | VBool b => b
  | VInt n => negb (n =? 0)%Z
  | VFloat f => negb (f =? 0)%float
  | VStr s => negb (is_nil s)
  | VDatetime _ => true
  | VRef l =>
      match h !! l with
      | Some (ODict d) => negb (is_nil d)
      | Some (OList xs) => negb (is_nil xs)
      | Some (OSet s) => negb (is_nil s)
      | None => false
      end
  end.

(** [t in s] for two strings: [t] occurs in [s]. *)
Fixpoint is_prefix (t s : str) : bool :=
  match t, s with
  | [], _ => true
  | c :: t', d :: s' => char_eqb c d && is_prefix t' s'
  | _ :: _, [] => false
  end.

Fixpoint is_infix (t s : str) : bool :=
  is_prefix t s || match s with [] => false | _ :: s' => is_infix t s' end.

Definition is_str (k : str) (v : value) : bool :=
  match v with VStr s => str_eqb k s | _ => false end.

(** *** Primitive operations *)

Definition alloc (o : obj) : M value :=
  fun h => Ok (VRef (length h)) (h ++ [o]).

Definition truth (v : value) : M bool := fun h => Ok (truthy h v) h.

(** [v.copy()]: a new object with the same content; scalars have no [copy]. *)
Definition copy (v : value) : M value :=
  fun h => match v with
           | VRef l => match h !! l with
                       | Some o => alloc o h
                       | None => Raise SystemError h
                       end
           | _ => Raise AttributeError h
           end.

(** [k in v] for a string literal [k]. *)
Definition contains (k : string) (v : value) : M bool :=
  fun h => match v with
           | VRef l => match h !! l with
                       | Some (ODict d) => Ok (dict_mem k d) h
                       | Some (OList xs) => Ok (existsb (is_str (u k)) xs) h
                       | Some (OSet s) => Ok (str_mem (u k) s) h
                       | None => Raise SystemError h
                       end
           | VStr s => Ok (is_infix (u k) s) h
           | _ => Raise TypeError h
           end.

(** [v[k]] for a string literal [k]. *)
Definition getitem (v : value) (k : string) : M value :=
  fun h => match v with
           | VRef l => match h !! l with
                       | Some (ODict d) =>
                           match dict_get k d with
                           | Some x => Ok x h
                           | None => Raise KeyError h
                           end
                       | Some _ => Raise TypeError h
                       | None => Raise SystemError h
                       end
           | _ => Raise TypeError h
           end.

(** [v[k] = x] *)
Definition setitem (v : value) (k : string) (x : value) : M unit :=
  fun h => match v with
           | VRef l => match h !! l with
                       | Some (ODict d) => Ok tt (<[l := ODict (dict_set k x d)]> h)
                       | Some _ => Raise TypeError h
                       | None => Raise SystemError h
                       end
           | _ => Raise TypeError h
           end.

(** [v.get(k)] *)
Definition dict_get_method (v : value) (k : string) : M value :=
  fun h => match v with
           | VRef l => match h !! l with
                       | Some (ODict d) =>
                           Ok (match dict_get k d with Some x => x | None => VNone end) h
                       | Some _ => Raise AttributeError h
                       | None => Raise SystemError h
                       end
           | _ => Raise AttributeError h
           end.

(** [v.update(parts)] where [v] is a set and [parts] a list of strings. *)
Definition set_update (v : value) (parts : list str) : M unit :=
  fun h => match v with
           | VRef l => match h !! l with
                       | Some (OSet s) => Ok tt (<[l := OSet (set_union s parts)]> h)
                       | Some _ => Raise TypeError h
                       | None => Raise SystemError h
                       end
           | _ => Raise AttributeError h
           end.

(** The content of a set. *)
Definition get_set (v : value) : M (list str) :=
  fun h => match v with
           | VRef l => match h !! l with
                       | Some (OSet s) => Ok s h
                       | Some _ => Raise AttributeError h
                       | None => Raise SystemError h
                       end
           | _ => Raise AttributeError h
           end.

(** A pure result, or an exception, as a computation. *)
Definition lift {A} (r : exn + A) : M A :=
  match r with inl e => raise e | inr a => ret a end.

End Store.
Export Store.

Declare Scope py_scope.
Delimit Scope py_scope with py.
Notation "x ← y ; z" := (bind y (fun x => z))
  (at level 20, y at level 100, z at level 200, only parsing) : py_scope.
Notation "' x ← y ; z" := (bind y (fun x => z))
  (at level 20, x pattern, y at level 100, z at level 200, only parsing) : py_scope.
Notation "x ;; z" := (bind x (fun _ => z))
  (at level 100, z at level 200, only parsing, right associativity) : py_scope.

(* ------------------------------------------------------------------------- *)
(** ** The evaluator *)

Section Engine.

Local Open Scope float_scope.
Local Open Scope py_scope.

(** What the engine takes from libraries:
    - [SequenceMatcher(None, a, b).ratio()] of [difflib],
    - [jellyfish.jaro_winkler_similarity(a, b)],
    - the format [f"{x:.2f}"],
    - [==] on two container objects. *)
Variable sequence_ratio : str -> str -> float.
Variable jaro_winkler_similarity : str -> str -> float.
Variable format_2f : float -> str.
Variable container_eq : heap -> loc -> loc -> bool.

Definition ebind {A B} (r : exn + A) (f : A -> exn + B) : exn + B :=
  match r with inl e => inl e | inr a => f a end.

(** A pure computation that reads the store. *)
Definition reading {A} (f : heap -> exn + A) : M A := fun h => lift (f h) h.

(** [a == b] *)
Definition py_eq (h : heap) (a b : value) : bool :=
  match a, b with
  | VNone, VNone => true
  | VStr s, VStr t => str_eqb s t
  | VDatetime x, VDatetime y => datetime_eqb x y
  | VRef l, VRef l' => container_eq h l l'
  | VBool x, VBool y => Bool.eqb x y
  | VBool x, VInt n | VInt n, VBool x => (Z.b2z x =? n)%Z
  | VInt m, VInt n => (m =? n)%Z
  | VFloat f, VFloat g => f =? g
  | VFloat f, VInt n | VInt n, VFloat f => Py.float_eq_Z f n
  | VFloat f, VBool x | VBool x, VFloat f => Py.float_eq_Z f (Z.b2z x)
  | _, _ => false
  end.

(** [re.sub(r'[^\w\s]', '', name).lower()] *)
Definition normalize_str (s : str) : str := lower (strip_special s).

Definition _normalize_name (h : heap) (name : value) : exn + str :=
  if negb (truthy h name) then inr []
  else match name with
       | VStr s => inr (normalize_str s)
       | _ => inl TypeError
       end.

(** The three signals of the name similarity, on two normalized names. *)
Definition name_signals (tenant_name match_name : str) : float :=
  let sequence_score := sequence_ratio tenant_name match_name in
  let jaro_winkler_score := jaro_winkler_similarity tenant_name match_name in
  let tenant_parts := set_of_list (split tenant_name) in
  let match_parts := set_of_list (split match_name) in
  let parts_overlap :=
    if negb (is_nil tenant_parts)
    then Py.truediv (length (set_inter tenant_parts match_parts)) (length tenant_parts)
    else 0.0 in
  Py.max3 sequence_score jaro_winkler_score parts_overlap.

Definition _calculate_name_similarity (h : heap) (tenant_name match_name : value)
  : exn + float :=
  if negb (truthy h tenant_name) || negb (truthy h match_name) then inr 0.0
  else
    ebind (_normalize_name h tenant_name) (fun tenant_name =>
    ebind (_normalize_name h match_name) (fun match_name =>
    inr (name_signals tenant_name match_name))).

Definition _compare_dates (h : heap) (date1 date2 : value) : exn + float :=
  match date1, date2 with
  | VNone, _ | _, VNone => inr 0.0
  | _, _ =>
      if py_eq h date1 date2 then inr 1.0
      else match date1, date2 with
           | VDatetime a, VDatetime b =>
               if (year a =? year b)%Z then inr 0.5 else inr 0.0
           | _, _ => inl AttributeError
           end
  end.

Definition _compare_locations (h : heap) (tenant_location match_location : value)
  : exn + float :=
  if negb (truthy h tenant_location) || negb (truthy h match_location) then inr 0.0
  else
    ebind (_normalize_name h tenant_location) (fun tenant_location =>
    ebind (_normalize_name h match_location) (fun match_location =>
    inr (sequence_ratio tenant_location match_location))).

Definition _compare_nationalities (h : heap) (tenant_nationality match_nationality : value)
  : exn + float :=
  if negb (truthy h tenant_nationality) || negb (truthy h match_nationality) then inr 0.0
  else
    ebind (_normalize_name h tenant_nationality) (fun tenant_nationality =>
    ebind (_normalize_name h match_nationality) (fun match_nationality =>
    inr (if str_eqb tenant_nationality match_nationality then 1.0 else 0.0))).

Definition gender_map : list (str * str) :=
  [ (u "m", u "male"); (u "f", u "female"); (u "male", u "male");
    (u "female", u "female"); (u "man", u "male"); (u "woman", u "female") ].

(** [gender_map.get(g, g)] *)
Fixpoint map_get_default (m : list (str * str)) (g : str) : str :=
  match m with
  | [] => g
  | (k, v) :: m' => if str_eqb g k then v else map_get_default m' g
  end.

(** [g.lower().strip()]; only a string has [lower]. *)
Definition lower_strip (g : value) : exn + str :=
  match g with
  | VStr s => inr (strip (lower s))
  | _ => inl AttributeError
  end.

Definition _compare_gender (h : heap) (tenant_gender match_gender : value)
  : exn + float :=
  if negb (truthy h tenant_gender) || negb (truthy h match_gender) then inr 0.0
  else
    ebind (lower_strip tenant_gender) (fun tenant_gender =>
    ebind (lower_strip match_gender) (fun match_gender =>
    let tenant_gender := map_get_default gender_map tenant_gender in
    let match_gender := map_get_default gender_map match_gender in
    inr (if str_eqb tenant_gender match_gender then 1.0 else 0.0))).

(** *** Classification *)

Record category_info : Type := mkcat {
  cat_name : string; min_score : float; cat_label : string
}.

Definition MATCH_CATEGORIES : list category_info :=
  [ mkcat "HIGH_RELEVANCE" 0.8 "Highly Relevant Match";
    mkcat "MEDIUM_RELEVANCE" 0.6 "Potentially Relevant Match";
    mkcat "LOW_RELEVANCE" 0.4 "Low Relevance Match";
    mkcat "NOT_RELEVANT" 0.0 "Not Relevant" ].

(** [sorted(..., key=min_score, reverse=True)]: stable, greatest first. *)
Fixpoint insert_desc (x : category_info) (l : list category_info) : list category_info :=
  match l with
  | [] => [x]
  | y :: l' =>
      if min_score x <? min_score y then y :: insert_desc x l' else x :: y :: l'
  end.

Definition sorted_desc (l : list category_info) : list category_info :=
  fold_right insert_desc [] l.

(** The fallback of [_get_match_category] reads the label from the table. *)
Definition label_of (name : string) : string :=
  match find (fun c => String.eqb (cat_name c) name) MATCH_CATEGORIES with
  | Some c => cat_label c
  | None => ""
  end.

(** The dictionary [_get_match_category] returns. *)
Record match_category : Type := mkmc {
  mc_category : string; mc_label : string; mc_score : float
}.

Fixpoint first_met (score : float) (cats : list category_info) : option category_info :=
  match cats with
  | [] => None
  | info :: rest =>
      if min_score info <=? score then Some info else first_met score rest
  end.

Definition _get_match_category (score : float) : match_category :=
  match first_met score (sorted_desc MATCH_CATEGORIES) with
  | Some info => mkmc (cat_name info) (cat_label info) score
  | None => mkmc "NOT_RELEVANT" (label_of "NOT_RELEVANT") score
  end.

(** *** Normalization of a record *)

Definition name_fields : list string :=
  ["first_name"; "middle_name"; "last_name"; "full_name"].

(** [k in v and v[k]] *)
Definition has_truthy (k : string) (v : value) : M bool :=
  c ← contains k v;
  if c then x ← getitem v k; truth x else ret false.

(** [x.split()]; only a string has [split]. *)
Definition str_split (x : value) : exn + list str :=
  match x with
  | VStr s => inr (split s)
  | _ => inl AttributeError
  end.

(** Lines 90-92, the body of the first loop. *)
Definition normalize_name_field (normalized : value) (name_field : string) : M unit :=
  c ← has_truthy name_field normalized;
  if c then
    x ← getitem normalized name_field;
    n ← reading (fun h => _normalize_name h x);
    setitem normalized name_field (VStr n)
  else ret tt.

(** Lines 96-99, the body of the second loop. *)
Definition collect_name_parts (normalized : value) (name_field : string) : M unit :=
  c ← has_truthy name_field normalized;
  if c then
    x ← getitem normalized name_field;
    parts ← lift (str_split x);
    name_parts ← getitem normalized "name_parts";
    set_update name_parts parts
  else ret tt.

(** Lines 102-115: a date of birth that is a string is parsed, or set to
    [None]. *)
Definition normalize_dob (normalized : value) : M unit :=
  c ← has_truthy "dob" normalized;
  if c then
    x ← getitem normalized "dob";
    match x with
    | VStr s =>
        match parse_first s dob_formats with
        | Some d => setitem normalized "dob" (VDatetime d)
        | None => setitem normalized "dob" VNone
        end
    | _ => ret tt
    end
  else ret tt.

(** Lines 118-121; [datetime.now()] is the argument [now]. *)
Definition derive_age (now : datetime) (normalized : value) : M unit :=
  c ← has_truthy "dob" normalized;
  if c then
    x ← getitem normalized "dob";
    match x with
    | VDatetime d => setitem normalized "age" (VInt (age_on now d))
    | _ => ret tt
    end
  else ret tt.

Definition _normalize_tenant_data (now : datetime) (data : value) : M value :=
  normalized ← copy data;
  for_each name_fields (normalize_name_field normalized);;
  parts_set ← alloc (OSet []);
  setitem normalized "name_parts" parts_set;;
  for_each name_fields (collect_name_parts normalized);;
  normalize_dob normalized;;
  derive_age now normalized;;
  ret normalized.

(** [EnhancedTenantMatchEvaluator(tenant_data)]: the reference identity the
    object keeps, [self.tenant_data]. *)
Definition new_evaluator (now : datetime) (tenant_data : value) : M value :=
  _normalize_tenant_data now tenant_data.

(** *** Scoring one candidate *)

(** [k in a and k in b] *)
Definition both_have (k : string) (a b : value) : M bool :=
  c ← contains k a;
  if c then contains k b else ret false.

(** [if k in normalized_match and k in self.tenant_data:
       score = cmp(self.tenant_data[k], normalized_match[k])], from [0.0]. *)
Definition compare_field (cmp : heap -> value -> value -> exn + float) (k : string)
    (tenant_data normalized_match : value) : M float :=
  c ← both_have k normalized_match tenant_data;
  if c then
    a ← getitem tenant_data k;
    b ← getitem normalized_match k;
    reading (fun h => cmp h a b)
  else ret 0.0.

(** Lines 336-362: the name score when the full names are not compared. *)
Definition split_name_score (tenant_data normalized_match : value) : M float :=
  first_name_score ←
    compare_field _calculate_name_similarity "first_name" tenant_data normalized_match;
  last_name_score ←
    compare_field _calculate_name_similarity "last_name" tenant_data normalized_match;
  c ← both_have "name_parts" tenant_data normalized_match;
  parts_score ←
    (if c then
       tenant_parts ← getitem tenant_data "name_parts";
       match_parts ← getitem normalized_match "name_parts";
       t1 ← truth tenant_parts;
       t2 ← (if t1 then truth match_parts else ret false);
       if t2 then
         s ← get_set tenant_parts;
         t ← get_set match_parts;
         ret (Py.truediv (length (set_inter s t)) (Nat.max (length s) (length t)))
       else ret 0.0
     else ret 0.0);
  ret (Py.max3 first_name_score last_name_score parts_score).

(** Lines 329-362: the name score. *)
Definition name_score_of (tenant_data normalized_match : value) : M float :=
  c ← both_have "full_name" normalized_match tenant_data;
  if c then
    a ← getitem tenant_data "full_name";
    b ← getitem normalized_match "full_name";
    reading (fun h => _calculate_name_similarity h a b)
  else split_name_score tenant_data normalized_match.

Record scores : Type := mkscores {
  name_score : float; dob_score : float; location_score : float;
  nationality_score : float; gender_score : float
}.

Record weights : Type := mkweights {
  name_weight : float; dob_weight : float; location_weight : float;
  nationality_weight : float; gender_weight : float
}.

(** Lines 391-414: the weights, renormalized over the attributes that both
    dictionaries have. *)
Definition effective_weights (tenant_data normalized_match : value) : M weights :=
  let name_weight := 0.5 in
  let dob_weight := 0.2 in
  let location_weight := 0.1 in
  let nationality_weight := 0.1 in
  let gender_weight := 0.1 in
  let total_weight := name_weight in
  c ← both_have "dob" normalized_match tenant_data;
  let total_weight := if c then total_weight + dob_weight else total_weight in
  c ← both_have "location" normalized_match tenant_data;
  let total_weight := if c then total_weight + location_weight else total_weight in
  c ← both_have "nationality" normalized_match tenant_data;
  let total_weight := if c then total_weight + nationality_weight else total_weight in
  c ← both_have "gender" normalized_match tenant_data;
  let total_weight := if c then total_weight + gender_weight else total_weight in
  if 0 <? total_weight then
    let name_weight := name_weight / total_weight in
    c ← both_have "dob" normalized_match tenant_data;
    let dob_weight := if c then dob_weight / total_weight else 0 in
    c ← both_have "location" normalized_match tenant_data;
    let location_weight := if c then location_weight / total_weight else 0 in
    c ← both_have "nationality" normalized_match tenant_data;
    let nationality_weight := if c then nationality_weight / total_weight else 0 in
    c ← both_have "gender" normalized_match tenant_data;
    let gender_weight := if c then gender_weight / total_weight else 0 in
    ret (mkweights name_weight dob_weight location_weight nationality_weight gender_weight)
  else
    ret (mkweights name_weight dob_weight location_weight nationality_weight gender_weight).

(** Lines 417-423. *)
Definition weighted_score (s : scores) (w : weights) : float :=
  name_score s * name_weight w
  + dob_score s * dob_weight w
  + location_score s * location_weight w
  + nationality_score s * nationality_weight w
  + gender_score s * gender_weight w.

Definition with_score (text : string) (x : float) : str :=
  u text ++ u " (" ++ format_2f x ++ u ")".

(** The two lists under construction: [match_reasons], [mismatch_reasons]. *)
Definition reason_lists : Type := (list str * list str)%type.

(** Lines 426-431. *)
Definition name_reasons (s : scores) (r : reason_lists) : reason_lists :=
  let '(match_reasons, mismatch_reasons) := r in
  if 0.8 <? name_score s
  then (match_reasons ++ [with_score "Name is a strong match" (name_score s)],
        mismatch_reasons)
  else if 0.5 <? name_score s
  then (match_reasons ++ [with_score "Name is a partial match" (name_score s)],
        mismatch_reasons)
  else (match_reasons,
        mismatch_reasons ++ [with_score "Name is not a good match" (name_score s)]).

(** Lines 433-438, given whether both dictionaries have ['dob']. *)
Definition dob_reasons_for (both : bool) (s : scores) (r : reason_lists) : reason_lists :=
  let '(match_reasons, mismatch_reasons) := r in
  if dob_score s =? 1.0
  then (match_reasons ++ [u "Date of birth matches exactly"], mismatch_reasons)
  else if 0 <? dob_score s
  then (match_reasons ++ [u "Date of birth partially matches"], mismatch_reasons)
  else if both
  then (match_reasons, mismatch_reasons ++ [u "Date of birth does not match"])
  else r.

(** Lines 433-438: the dictionaries are read only in the last branch. *)
Definition dob_reasons (tenant_data normalized_match : value) (s : scores)
    (r : reason_lists) : M reason_lists :=
  if (dob_score s =? 1.0) || (0 <? dob_score s)
  then ret (dob_reasons_for false s r)
  else
    c ← both_have "dob" normalized_match tenant_data;
    ret (dob_reasons_for c s r).

(** Lines 440-443. *)
Definition location_reasons (s : scores) (r : reason_lists) : reason_lists :=
  let '(match_reasons, mismatch_reasons) := r in
  if 0.8 <? location_score s
  then (match_reasons ++ [with_score "Location is a strong match" (location_score s)],
        mismatch_reasons)
  else if 0.5 <? location_score s
  then (match_reasons ++ [with_score "Location is a partial match" (location_score s)],
        mismatch_reasons)
  else r.

(** Lines 445-448 and 450-453: an exact match, or a mismatch when both
    dictionaries have the key. *)
Definition exact_reasons_for (both : bool) (score : float) (matched mismatched : string)
    (r : reason_lists) : reason_lists :=
  let '(match_reasons, mismatch_reasons) := r in
  if score =? 1.0
  then (match_reasons ++ [u matched], mismatch_reasons)
  else if both
  then (match_reasons, mismatch_reasons ++ [u mismatched])
  else r.

Definition exact_reasons (k : string) (tenant_data normalized_match : value)
    (score : float) (matched mismatched : string) (r : reason_lists) : M reason_lists :=
  if score =? 1.0
  then ret (exact_reasons_for false score matched mismatched r)
  else
    c ← both_have k normalized_match tenant_data;
    ret (exact_reasons_for c score matched mismatched r).

(** Lines 323-324 and 425-453: the two lists of reasons. *)
Definition reasons_of (tenant_data normalized_match : value) (s : scores)
  : M reason_lists :=
  let r : reason_lists := ([], []) in
  let r := name_reasons s r in
  r ← dob_reasons tenant_data normalized_match s r;
  let r := location_reasons s r in
  r ← exact_reasons "nationality" tenant_data normalized_match (nationality_score s)
        "Nationality matches exactly" "Nationality does not match" r;
  exact_reasons "gender" tenant_data normalized_match (gender_score s)
    "Gender matches" "Gender does not match" r.

(** Lines 466-467: a date of birth that is a [datetime] is rendered. *)
Definition render_result_dob (result : value) : M unit :=
  c ← contains "dob" result;
  if c then
    x ← getitem result "dob";
    match x with
    | VDatetime d => setitem result "dob" (VStr (strftime_iso d))
    | _ => ret tt
    end
  else ret tt.

(** [evaluate_match]; [tenant_data] is [self.tenant_data].  The two lists of
    reasons are local until they are stored in the result, where they become
    objects of the store. *)
Definition evaluate_match (tenant_data : value) (now : datetime) (match_data : value)
  : M value :=
  result ← copy match_data;
  normalized_match ← _normalize_tenant_data now match_data;
  name_score ← name_score_of tenant_data normalized_match;
  dob_score ← compare_field _compare_dates "dob" tenant_data normalized_match;
  location_score ← compare_field _compare_locations "location" tenant_data normalized_match;
  nationality_score ←
    compare_field _compare_nationalities "nationality" tenant_data normalized_match;
  gender_score ← compare_field _compare_gender "gender" tenant_data normalized_match;
  let s := mkscores name_score dob_score location_score nationality_score gender_score in
  w ← effective_weights tenant_data normalized_match;
  let relevance_score := weighted_score s w in
  '(match_reasons, mismatch_reasons) ← reasons_of tenant_data normalized_match s;
  let match_category := _get_match_category relevance_score in
  setitem result "relevance_score" (VFloat relevance_score);;
  setitem result "match_category" (VStr (u (mc_category match_category)));;
  setitem result "match_label" (VStr (u (mc_label match_category)));;
  mr ← alloc (OList (map VStr match_reasons));
  setitem result "match_reasons" mr;;
  mm ← alloc (OList (map VStr mismatch_reasons));
  setitem result "mismatch_reasons" mm;;
  render_result_dob result;;
  ret result.

(** [evaluate_matches] *)
Fixpoint evaluate_matches (tenant_data : value) (now : datetime) (matches : list value)
  : M (list value) :=
  match matches with
  | [] => ret []
  | m :: rest =>
      r ← evaluate_match tenant_data now m;
      rs ← evaluate_matches tenant_data now rest;
      ret (r :: rs)
  end.

(** *** Extraction from the pipeline *)

(** What [matches.extend(x)] appends: the items [x] yields when iterated. *)
Definition iterate (x : value) : M (list value) :=
  fun h => match x with
           | VRef l => match h !! l with
                       | Some (OList xs) => Ok xs h
                       | Some (ODict d) => Ok (map (fun kv => VStr (u (fst kv))) d) h
                       | Some (OSet s) => Ok (map VStr s) h
                       | None => Raise SystemError h
                       end
           | VStr s => Ok (map (fun c => VStr [c]) s) h
           | _ => Raise TypeError h
           end.

(** [isinstance(x, list)] and [isinstance(x, dict)] *)
Inductive shape : Type := IsList (xs : list value) | IsDict | IsOther.

Definition shape_of (x : value) : M shape :=
  fun h => match x with
           | VRef l => match h !! l with
                       | Some (OList xs) => Ok (IsList xs) h
                       | Some (ODict _) => Ok IsDict h
                       | Some (OSet _) => Ok IsOther h
                       | None => Raise SystemError h
                       end
           | _ => Ok IsOther h
           end.

Definition blacklist_tag : str := u "refinitiv-blacklist".

(** One step: its results if its type is the blacklist's, appended to
    [matches]. *)
Definition extend_from_step (matches : list value) (step : value) : M (list value) :=
  t ← dict_get_method step "type";
  if is_str blacklist_tag t then
    c ← contains "results" step;
    if c then
      r ← getitem step "results";
      items ← iterate r;
      ret (matches ++ items)
    else ret matches
  else ret matches.

Fixpoint extend_from_steps (matches : list value) (steps : list value) : M (list value) :=
  match steps with
  | [] => ret matches
  | step :: rest =>
      matches ← extend_from_step matches step;
      extend_from_steps matches rest
  end.

(** The content of the list [extract_matches_from_pipeline] returns. *)
Definition extract_matches_from_pipeline (pipeline_data : value) : M (list value) :=
  let matches : list value := [] in
  c ← contains "pipeline" pipeline_data;
  if c then
    pipeline_steps ← getitem pipeline_data "pipeline";
    sh ← shape_of pipeline_steps;
    match sh with
    | IsList steps => extend_from_steps matches steps
    | IsDict => extend_from_step matches pipeline_steps
    | IsOther => ret matches
    end
  else ret matches.

End Engine.

(* ------------------------------------------------------------------------- *)
(** ** Facts about binary64 comparisons and divisions *)

Section FloatFacts.

Local Open Scope float_scope.

Lemma SFleb_trans a b c :
  SFleb a b = true -> SFleb b c = true -> SFleb a c = true.
Proof.
  unfold SFleb, SFcompare.
  destruct a as [sa|sa| |sa ma ea], b as [sb|sb| |sb mb eb], c as [sc|sc| |sc mc ec];
    repeat match goal with s : bool |- _ => destruct s end;
    try discriminate; try reflexivity; cbn;
    change (Pos.compare_cont Eq) with Pos.compare;
    repeat match goal with
           | |- context [Z.compare ?x ?y] => destruct (Z.compare_spec x y)
           | |- context [Pos.compare ?x ?y] => destruct (Pos.compare_spec x y)
           end; subst; cbn; try discriminate; try reflexivity; try lia.
Qed.

Lemma leb_trans (x y z : float) :
  (x <=? y) = true -> (y <=? z) = true -> (x <=? z) = true.
Proof. rewrite !leb_spec. apply SFleb_trans. Qed.

Lemma div_eucl_div_mod a b : Z.div_eucl a b = (a / b, a mod b)%Z.
Proof. unfold Z.div, Z.modulo. destruct (Z.div_eucl a b); reflexivity. Qed.

(** Whatever [x] is, [x / x] is [1.0] or not a number: never above [1.0]. *)
Lemma div_self_not_above_one (x : float) : (1 <? x / x) = false.
Proof.
  rewrite ltb_spec, div_spec.
  destruct (Prim2SF x) as [s|s| |s m e] eqn:E;
    try (destruct s; reflexivity); try reflexivity.
  unfold SF64div, SFdiv, SFdiv_core_binary.
  rewrite !Z.sub_diag.
  replace (Z.min _ _) with (-53)%Z by reflexivity.
  change (0 - -53)%Z with 53%Z. cbv beta iota.
  rewrite Z.shiftl_mul_pow2 by lia.
  change IntDef.Z.div_eucl with Z.div_eucl.
  rewrite div_eucl_div_mod, (Z.mul_comm (Z.pos m)), Z.div_mul, Z.mod_mul by lia.
  unfold new_location.
  destruct (Z.even (Z.pos m)); cbn; destruct s; reflexivity.
Qed.

Lemma max2_one_l (y : float) : (1 <? y) = false -> Py.max2 1 y = 1.
Proof. unfold Py.max2. intros ->. reflexivity. Qed.

End FloatFacts.

(* ------------------------------------------------------------------------- *)
(** ** The classifier *)

Section Classifier.

Local Open Scope float_scope.

Definition rank (category : string) : nat :=
  if String.eqb category "HIGH_RELEVANCE" then 3
  else if String.eqb category "MEDIUM_RELEVANCE" then 2
  else if String.eqb category "LOW_RELEVANCE" then 1
  else 0.

Definition meets (score : float) (info : category_info) : Prop :=
  (min_score info <=? score) = true.

(** [mc] is the entry of the table with the highest threshold among those the
    score meets, with its label and the score. *)
Definition highest_met (score : float) (mc : match_category) : Prop :=
  exists info,
    In info MATCH_CATEGORIES
    /\ mc_category mc = cat_name info
    /\ mc_label mc = cat_label info
    /\ mc_score mc = score
    /\ meets score info
    /\ forall info', In info' MATCH_CATEGORIES -> meets score info' ->
                     (min_score info' <=? min_score info) = true.

Lemma sorted_categories :
  sorted_desc MATCH_CATEGORIES
  = [ mkcat "HIGH_RELEVANCE" 0.8 "Highly Relevant Match";
      mkcat "MEDIUM_RELEVANCE" 0.6 "Potentially Relevant Match";
      mkcat "LOW_RELEVANCE" 0.4 "Low Relevance Match";
      mkcat "NOT_RELEVANT" 0.0 "Not Relevant" ].
Proof. reflexivity. Qed.

Lemma get_match_category_cases (score : float) :
  _get_match_category score =
    if 0.8 <=? score then mkmc "HIGH_RELEVANCE" "Highly Relevant Match" score
    else if 0.6 <=? score then mkmc "MEDIUM_RELEVANCE" "Potentially Relevant Match" score
    else if 0.4 <=? score then mkmc "LOW_RELEVANCE" "Low Relevance Match" score
    else mkmc "NOT_RELEVANT" "Not Relevant" score.
Proof.
  unfold _get_match_category. rewrite sorted_categories. cbn [first_met min_score].
  destruct (0.8 <=? score); [reflexivity|].
  destruct (0.6 <=? score); [reflexivity|].
  destruct (0.4 <=? score); [reflexivity|].
  destruct (0 <=? score); reflexivity.
Qed.

Lemma highest_met_category (score : float) :
  (0 <=? score) = true -> highest_met score (_get_match_category score).
Proof.
  intros H0. rewrite get_match_category_cases. unfold highest_met, meets.
  destruct (0.8 <=? score) eqn:E8;
    [| destruct (0.6 <=? score) eqn:E6;
       [| destruct (0.4 <=? score) eqn:E4 ]].
  - exists (mkcat "HIGH_RELEVANCE" 0.8 "Highly Relevant Match").
    cbn. repeat split; auto.
    intros info' [<-|[<-|[<-|[<-|[]]]]] _; reflexivity.
  - exists (mkcat "MEDIUM_RELEVANCE" 0.6 "Potentially Relevant Match").
    cbn. repeat split; auto.
    intros info' [<-|[<-|[<-|[<-|[]]]]] Hm; cbn in Hm; try reflexivity; congruence.
  - exists (mkcat "LOW_RELEVANCE" 0.4 "Low Relevance Match").
    cbn. repeat split; auto.
    intros info' [<-|[<-|[<-|[<-|[]]]]] Hm; cbn in Hm; try reflexivity; congruence.
  - exists (mkcat "NOT_RELEVANT" 0.0 "Not Relevant").
    cbn. repeat split; auto 6.
    intros info' [<-|[<-|[<-|[<-|[]]]]] Hm; cbn in Hm; try reflexivity; congruence.
Qed.

Lemma category_monotone (s1 s2 : float) :
  (s1 <=? s2) = true ->
  rank (mc_category (_get_match_category s1)) <= rank (mc_category (_get_match_category s2)).
Proof.
  intros H. rewrite !get_match_category_cases.
  pose proof (fun c => leb_trans c s1 s2) as T.
  destruct (0.8 <=? s1) eqn:A8.
  { rewrite (T 0.8) by auto. cbn. lia. }
  destruct (0.6 <=? s1) eqn:A6.
  { rewrite (T 0.6) by auto. destruct (0.8 <=? s2); cbn; lia. }
  destruct (0.4 <=? s1) eqn:A4.
  { rewrite (T 0.4) by auto. destruct (0.8 <=? s2), (0.6 <=? s2); cbn; lia. }
  cbn. lia.
Qed.

(** C6: [_get_match_category] classifies every score of [0,1] into the
    category with the highest threshold the score meets, with that category's
    label; a greater score never gets a category of lower rank. *)
Theorem get_match_category_total_monotone (s1 s2 : float) :
  (0 <=? s1) = true -> (s1 <=? s2) = true -> (s2 <=? 1) = true ->
  highest_met s1 (_get_match_category s1)
  /\ highest_met s2 (_get_match_category s2)
  /\ rank (mc_category (_get_match_category s1))
     <= rank (mc_category (_get_match_category s2)).
Proof.
  intros H0 H12 H1. split; [|split].
  - apply highest_met_category; assumption.
  - apply highest_met_category. eapply leb_trans; eassumption.
  - apply category_monotone; assumption.
Qed.

Lemma get_match_category_total_monotone_witness :
  highest_met 0.59 (_get_match_category 0.59)
  /\ highest_met 0.8 (_get_match_category 0.8)
  /\ rank (mc_category (_get_match_category 0.59))
     <= rank (mc_category (_get_match_category 0.8)).
Proof.
  apply (get_match_category_total_monotone 0.59 0.8); reflexivity.
Defined.

End Classifier.

(* ------------------------------------------------------------------------- *)
(** ** Reasoning about computations *)

Section WP.

(** [wp m Q E h]: run from [h], [m] returns a value and a store that satisfy
    [Q], or raises with an exception and a store that satisfy [E]. *)
Definition wp {A} (m : M A) (Q : A -> heap -> Prop) (E : exn -> heap -> Prop)
    (h : heap) : Prop :=
  match m h with
  | Ok a h' => Q a h'
  | Raise e h' => E e h'
  end.

Lemma wp_ret {A} (a : A) Q E h : Q a h -> wp (ret a) Q E h.
Proof. exact (fun H => H). Qed.

Lemma wp_raise {A} e (Q : A -> heap -> Prop) E h : E e h -> wp (raise e) Q E h.
Proof. exact (fun H => H). Qed.

Lemma wp_bind {A B} (m : M A) (f : A -> M B) Q E h :
  wp m (fun a h' => wp (f a) Q E h') E h -> wp (bind m f) Q E h.
Proof. unfold wp, bind. destruct (m h); auto. Qed.

Lemma wp_mono {A} (m : M A) (Q Q' : A -> heap -> Prop) (E E' : exn -> heap -> Prop) h :
  wp m Q E h ->
  (forall a h', Q a h' -> Q' a h') ->
  (forall e h', E e h' -> E' e h') ->
  wp m Q' E' h.
Proof. unfold wp. destruct (m h); auto. Qed.

(** A computation that meets [Q] and cannot raise does return. *)
Lemma wp_returns {A} (m : M A) Q h :
  wp m Q (fun _ _ => False) h -> exists a h', m h = Ok a h' /\ Q a h'.
Proof. unfold wp. destruct (m h); [eauto | tauto]. Qed.

Lemma wp_of_run {A} (m : M A) Q E h a h' :
  m h = Ok a h' -> Q a h' -> wp m Q E h.
Proof. unfold wp. intros ->. auto. Qed.

Lemma wp_lift {A} (r : exn + A) Q E h :
  match r with inr a => Q a h | inl e => E e h end -> wp (lift r) Q E h.
Proof. destruct r; auto. Qed.

Lemma wp_reading {A} (f : heap -> exn + A) Q E h :
  match f h with inr a => Q a h | inl e => E e h end -> wp (reading f) Q E h.
Proof. unfold reading. apply wp_lift. Qed.

Lemma wp_for_each {A} (I : heap -> Prop) (xs : list A) (body : A -> M unit) E h :
  I h ->
  (forall x h', In x xs -> I h' -> wp (body x) (fun _ h'' => I h'') E h') ->
  wp (for_each xs body) (fun _ h' => I h') E h.
Proof.
  revert h. induction xs as [|x xs IH]; intros h Hi Hb; cbn [for_each].
  - apply wp_ret, Hi.
  - apply wp_bind. eapply wp_mono.
    + apply Hb; [left; reflexivity | exact Hi].
    + intros u0 h' Hi'. apply IH; [exact Hi' |].
      intros y h'' Hy. apply Hb. right; exact Hy.
    + auto.
Qed.

(** *** The primitive operations on a dictionary that is in the store *)

Lemma wp_alloc o Q E h : Q (VRef (length h)) (h ++ [o]) -> wp (alloc o) Q E h.
Proof. exact (fun H => H). Qed.

Lemma wp_truth v Q E h : Q (truthy h v) h -> wp (truth v) Q E h.
Proof. exact (fun H => H). Qed.

Lemma wp_copy l o Q E (h : heap) :
  h !! l = Some o -> Q (VRef (length h)) (h ++ [o]) -> wp (copy (VRef l)) Q E h.
Proof. unfold wp, copy. intros ->. auto. Qed.

Lemma wp_contains k l d Q E (h : heap) :
  h !! l = Some (ODict d) -> Q (dict_mem k d) h -> wp (contains k (VRef l)) Q E h.
Proof. unfold wp, contains. intros ->. auto. Qed.

Lemma wp_getitem k l d x Q E (h : heap) :
  h !! l = Some (ODict d) -> dict_get k d = Some x -> Q x h ->
  wp (getitem (VRef l) k) Q E h.
Proof. unfold wp, getitem. intros -> ->. auto. Qed.

Lemma wp_setitem k x l d Q E (h : heap) :
  h !! l = Some (ODict d) -> Q tt (<[l := ODict (dict_set k x d)]> h) ->
  wp (setitem (VRef l) k x) Q E h.
Proof. unfold wp, setitem. intros ->. auto. Qed.

Lemma wp_set_update parts l s Q E (h : heap) :
  h !! l = Some (OSet s) -> Q tt (<[l := OSet (set_union s parts)]> h) ->
  wp (set_update (VRef l) parts) Q E h.
Proof. unfold wp, set_update. intros ->. auto. Qed.

Lemma wp_get_set l s Q E (h : heap) :
  h !! l = Some (OSet s) -> Q s h -> wp (get_set (VRef l)) Q E h.
Proof. unfold wp, get_set. intros ->. auto. Qed.

(** *** Operations that only read *)

(** [m] leaves the store as it is, whatever it returns or raises. *)
Definition reads {A} (m : M A) : Prop :=
  forall h, final (m h) = h.

Lemma wp_reads {A} (m : M A) (Q : A -> heap -> Prop) (E : exn -> heap -> Prop) h :
  reads m -> (forall a, Q a h) -> (forall e, E e h) -> wp m Q E h.
Proof.
  unfold reads, wp. intros Hr HQ HE. specialize (Hr h).
  destruct (m h); cbn in Hr; subst; auto.
Qed.

Lemma reads_ret {A} (a : A) : reads (ret a).
Proof. intros h. reflexivity. Qed.

Lemma reads_bind {A B} (m : M A) (f : A -> M B) :
  reads m -> (forall a, reads (f a)) -> reads (bind m f).
Proof.
  unfold reads, bind. intros Hm Hf h. specialize (Hm h).
  destruct (m h) as [a h'|e h']; cbn in Hm; subst; [apply Hf | reflexivity].
Qed.

Lemma reads_truth v : reads (truth v).
Proof. intros h. reflexivity. Qed.

Lemma reads_contains k v : reads (contains k v).
Proof.
  intros h. unfold contains.
  destruct v as [| | | | |?|l]; try reflexivity.
  destruct (h !! l) as [[]|]; reflexivity.
Qed.

Lemma reads_getitem v k : reads (getitem v k).
Proof.
  intros h. unfold getitem.
  destruct v as [| | | | |?|l]; try reflexivity.
  destruct (h !! l) as [[d| |]|]; try reflexivity.
  destruct (dict_get k d); reflexivity.
Qed.

Lemma reads_get_set v : reads (get_set v).
Proof.
  intros h. unfold get_set.
  destruct v as [| | | | |?|l]; try reflexivity.
  destruct (h !! l) as [[]|]; reflexivity.
Qed.

Lemma reads_lift {A} (r : exn + A) : reads (lift r).
Proof. intros h. destruct r; reflexivity. Qed.

Lemma reads_reading {A} (f : heap -> exn + A) : reads (reading f).
Proof. intros h. unfold reading. destruct (f h); reflexivity. Qed.

Lemma reads_if {A} (b : bool) (m1 m2 : M A) :
  reads m1 -> reads m2 -> reads (if b then m1 else m2).
Proof. destruct b; auto. Qed.

Lemma reads_has_truthy k v : reads (has_truthy k v).
Proof.
  unfold has_truthy. apply reads_bind; [apply reads_contains|].
  intros c. apply reads_if; [|apply reads_ret].
  apply reads_bind; [apply reads_getitem | intros; apply reads_truth].
Qed.

Lemma reads_both_have k a b : reads (both_have k a b).
Proof.
  unfold both_have. apply reads_bind; [apply reads_contains|].
  intros c. apply reads_if; [apply reads_contains | apply reads_ret].
Qed.

Lemma reads_compare_field cmp k a b : reads (compare_field cmp k a b).
Proof.
  unfold compare_field. apply reads_bind; [apply reads_both_have|].
  intros c. apply reads_if; [|apply reads_ret].
  apply reads_bind; [apply reads_getitem | intros].
  apply reads_bind; [apply reads_getitem | intros]. apply reads_reading.
Qed.

End WP.

Create HintDb reads.

Global Hint Resolve reads_ret reads_truth reads_contains reads_getitem reads_get_set
  reads_lift reads_reading reads_has_truthy reads_both_have reads_compare_field
  : reads.

(* ------------------------------------------------------------------------- *)
(** ** The store before a call is kept *)

Section Frame.

Variable sequence_ratio : str -> str -> float.
Variable jaro_winkler_similarity : str -> str -> float.
Variable format_2f : float -> str.
Variable container_eq : heap -> loc -> loc -> bool.

(** Every object of [h0] is in [h], at its place and unchanged. *)
Definition keeps (h0 h : heap) : Prop := h0 `prefix_of` h.

Lemma keeps_refl h : keeps h h.
Proof. exists []. symmetry. apply app_nil_r. Qed.

Lemma keeps_length h0 h : keeps h0 h -> length h0 <= length h.
Proof. intros [k ->]. rewrite length_app. lia. Qed.

Lemma keeps_alloc h0 h o : keeps h0 h -> keeps h0 (h ++ [o]).
Proof. intros [k ->]. exists (k ++ [o]). symmetry. apply app_assoc. Qed.

Lemma keeps_insert h0 (h : heap) l o :
  keeps h0 h -> length h0 <= l -> keeps h0 (<[l := o]> h).
Proof.
  intros [k ->] Hl. exists (<[l - length h0 := o]> k).
  apply insert_app_r_alt. exact Hl.
Qed.

Lemma keeps_lookup h0 (h : heap) l o :
  keeps h0 h -> h0 !! l = Some o -> h !! l = Some o.
Proof. intros [k ->] H. apply lookup_app_l_Some. exact H. Qed.

Lemma dict_get_set_eq k v d : dict_get k (dict_set k v d) = Some v.
Proof.
  induction d as [|[k' v'] d IH]; cbn.
  - rewrite String.eqb_refl. reflexivity.
  - destruct (String.eqb k k') eqn:Ek; cbn.
    + rewrite String.eqb_refl. reflexivity.
    + rewrite Ek. exact IH.
Qed.

Lemma dict_get_set_ne k k' v d :
  String.eqb k k' = false -> dict_get k (dict_set k' v d) = dict_get k d.
Proof.
  intros Hk. induction d as [|[k2 v2] d IH]; cbn.
  - rewrite Hk. reflexivity.
  - destruct (String.eqb k' k2) eqn:E2; cbn.
    + apply String.eqb_eq in E2. subst k2. rewrite Hk. reflexivity.
    + destruct (String.eqb k k2); [reflexivity | exact IH].
Qed.

(** *** Operations that write, on any argument *)

Lemma wp_copy_any v (Q : value -> heap -> Prop) (E : exn -> heap -> Prop) h :
  (forall e, E e h) ->
  (forall o, Q (VRef (length h)) (h ++ [o])) ->
  wp (copy v) Q E h.
Proof.
  intros HE HQ. unfold wp, copy.
  destruct v as [| | | | |?|l]; try apply HE.
  destruct (h !! l); [apply HQ | apply HE].
Qed.

Lemma wp_setitem_any v k x (Q : unit -> heap -> Prop) (E : exn -> heap -> Prop) (h : heap) :
  (forall e, E e h) ->
  (forall l d, v = VRef l -> h !! l = Some (ODict d) ->
               Q tt (<[l := ODict (dict_set k x d)]> h)) ->
  wp (setitem v k x) Q E h.
Proof.
  intros HE HQ. unfold wp, setitem.
  destruct v as [| | | | |?|l]; try apply HE.
  destruct (h !! l) as [[d| |]|] eqn:Hl; try apply HE.
  apply HQ; auto.
Qed.

Lemma wp_set_update_any v parts (Q : unit -> heap -> Prop) (E : exn -> heap -> Prop)
    (h : heap) :
  (forall e, E e h) ->
  (forall l s, v = VRef l -> h !! l = Some (OSet s) ->
               Q tt (<[l := OSet (set_union s parts)]> h)) ->
  wp (set_update v parts) Q E h.
Proof.
  intros HE HQ. unfold wp, set_update.
  destruct v as [| | | | |?|l]; try apply HE.
  destruct (h !! l) as [[d| |s]|] eqn:Hl; try apply HE.
  apply HQ; auto.
Qed.

Lemma wp_getitem_any v k (Q : value -> heap -> Prop) (E : exn -> heap -> Prop) (h : heap) :
  (forall e, E e h) ->
  (forall l d x, v = VRef l -> h !! l = Some (ODict d) -> dict_get k d = Some x -> Q x h) ->
  wp (getitem v k) Q E h.
Proof.
  intros HE HQ. unfold wp, getitem.
  destruct v as [| | | | |?|l]; try apply HE.
  destruct (h !! l) as [[d| |]|] eqn:Hl; try apply HE.
  destruct (dict_get k d) eqn:Hk; [eapply HQ; eauto | apply HE].
Qed.

(** A step that only reads, inside a sequence. *)
Tactic Notation "wp_read" "as" ident(x) :=
  apply wp_bind; apply wp_reads; [solve [auto with reads] | intro x | solve [auto]].

(** A store of [normalized] after the set of name parts is bound: the
    dictionary at [l1] holds the reference [l2] under ['name_parts']. *)
Definition parts_bound (h0 : heap) (l1 l2 : loc) (h : heap) : Prop :=
  keeps h0 h
  /\ exists d, h !! l1 = Some (ODict d) /\ dict_get "name_parts" d = Some (VRef l2).

Lemma normalize_frame h0 now data h :
  keeps h0 h ->
  wp (_normalize_tenant_data now data)
     (fun r h' => keeps h0 h' /\ exists l, r = VRef l /\ length h0 <= l)
     (fun _ h' => keeps h0 h') h.
Proof.
  intros K. pose proof (keeps_length _ _ K) as L.
  unfold _normalize_tenant_data.
  apply wp_bind, wp_copy_any; [auto | intros o].
  set (l1 := length h).
  (* the names *)
  apply wp_bind.
  apply (wp_mono _ (fun _ h' => keeps h0 h') _ (fun _ h' => keeps h0 h'));
    [apply (wp_for_each (keeps h0)); [apply keeps_alloc, K|] | | auto].
  { intros k h1 _ K1. unfold normalize_name_field.
    wp_read as c. destruct c; [|apply wp_ret, K1].
    wp_read as x. wp_read as n.
    apply wp_setitem_any; [auto|]. intros l d [= <-] _.
    apply keeps_insert; [exact K1 | exact L]. }
  cbv beta. intros _ h1 K1.
  (* the set of parts *)
  apply wp_bind, wp_alloc. set (l2 := length h1).
  pose proof (keeps_length _ _ K1) as L2.
  apply wp_bind, wp_setitem_any; [intros; apply keeps_alloc, K1|].
  intros l d [= <-] Hd.
  assert (Hne : l1 <> l2).
  { intros Heq. rewrite Heq in Hd. unfold l2 in Hd.
    rewrite list_lookup_middle in Hd by reflexivity. discriminate. }
  assert (Hlt : l1 < length (h1 ++ [OSet []])) by (eapply lookup_lt_Some; eauto).
  apply wp_bind.
  apply (wp_mono _ (fun _ h' => parts_bound h0 l1 l2 h') _ (fun _ h' => keeps h0 h'));
    [apply (wp_for_each (parts_bound h0 l1 l2)) | | auto].
  { split; [apply keeps_insert; [apply keeps_alloc, K1 | exact L]|].
    eexists. split; [apply list_lookup_insert_eq; exact Hlt | apply dict_get_set_eq]. }
  { intros k h2 _ [K2 (d2 & Hd2 & Hp)]. unfold collect_name_parts.
    assert (P2 : parts_bound h0 l1 l2 h2) by (split; eauto).
    apply wp_bind, wp_reads; [auto with reads | intro c | intros; exact K2].
    destruct c; [|apply wp_ret, P2].
    apply wp_bind, wp_reads; [auto with reads | intro x | intros; exact K2].
    apply wp_bind, wp_reads; [auto with reads | intro parts | intros; exact K2].
    apply wp_bind, wp_getitem_any; [intros; exact K2|].
    intros l d' x' [= <-] Hd' Hx'.
    rewrite Hd2 in Hd'. injection Hd' as <-. rewrite Hp in Hx'. injection Hx' as <-.
    apply wp_set_update_any; [intros; exact K2|].
    intros l s [= <-] Hs. split.
    - apply keeps_insert; [exact K2 | exact L2].
    - exists d2. split; [|exact Hp].
      rewrite list_lookup_insert_ne by (intros Heq; apply Hne; symmetry; exact Heq).
      exact Hd2. }
  cbv beta. intros _ h2 [K2 _].
  (* the date of birth *)
  apply wp_bind.
  apply (wp_mono _ (fun _ h' => keeps h0 h') _ (fun _ h' => keeps h0 h')); [| |auto].
  { unfold normalize_dob. wp_read as c. destruct c; [|apply wp_ret, K2].
    wp_read as x. destruct x; try (apply wp_ret, K2).
    destruct (parse_first s dob_formats);
      (apply wp_setitem_any; [auto|]; intros l d' [= <-] _;
       apply keeps_insert; [exact K2 | exact L]). }
  cbv beta. intros _ h3 K3.
  (* the age *)
  apply wp_bind.
  apply (wp_mono _ (fun _ h' => keeps h0 h') _ (fun _ h' => keeps h0 h')); [| |auto].
  { unfold derive_age. wp_read as c. destruct c; [|apply wp_ret, K3].
    wp_read as x. destruct x; try (apply wp_ret, K3).
    apply wp_setitem_any; [auto|]; intros l d' [= <-] _.
    apply keeps_insert; [exact K3 | exact L]. }
  cbv beta. intros _ h4 K4.
  apply wp_ret. split; [exact K4 | exists l1; split; [reflexivity | exact L]].
Qed.

Ltac reads_go :=
  repeat first
    [ apply reads_ret | apply reads_truth | apply reads_contains
    | apply reads_getitem | apply reads_get_set | apply reads_lift
    | apply reads_reading | apply reads_has_truthy | apply reads_both_have
    | apply reads_compare_field
    | apply reads_bind
    | apply reads_if
    | progress intros
    | match goal with |- reads (match ?p with _ => _ end) => destruct p end ].

Lemma reads_name_score_of t m :
  reads (name_score_of sequence_ratio jaro_winkler_similarity t m).
Proof. unfold name_score_of, split_name_score. reads_go. Qed.

Lemma reads_effective_weights t m : reads (effective_weights t m).
Proof. unfold effective_weights. reads_go. Qed.

Lemma reads_reasons_of t m s : reads (reasons_of format_2f t m s).
Proof. unfold reasons_of, dob_reasons, exact_reasons. reads_go. Qed.

Lemma evaluate_match_frame h0 tenant_data now match_data h :
  keeps h0 h ->
  wp (evaluate_match sequence_ratio jaro_winkler_similarity format_2f container_eq
        tenant_data now match_data)
     (fun _ h' => keeps h0 h') (fun _ h' => keeps h0 h') h.
Proof.
  intros K. pose proof (keeps_length _ _ K) as L.
  unfold evaluate_match.
  apply wp_bind, wp_copy_any; [auto | intros o].
  set (result := VRef (length h)).
  assert (W : forall k x (m : M value) h1,
             keeps h0 h1 ->
             (forall h2, keeps h0 h2 ->
                         wp m (fun _ h' => keeps h0 h') (fun _ h' => keeps h0 h') h2) ->
             wp (bind (setitem result k x) (fun _ => m))
                (fun _ h' => keeps h0 h') (fun _ h' => keeps h0 h') h1).
  { intros k x m h1 K1 Hm. apply wp_bind, wp_setitem_any; [auto|].
    intros l d [= <-] _. apply Hm, keeps_insert; [exact K1 | exact L]. }
  apply wp_bind.
  eapply wp_mono; [apply (normalize_frame h0), keeps_alloc, K | | auto].
  cbv beta. intros normalized_match h1 [K1 _].
  apply wp_bind, wp_reads; [apply reads_name_score_of | intro name_score | auto].
  wp_read as dob_score. wp_read as location_score.
  wp_read as nationality_score. wp_read as gender_score.
  apply wp_bind, wp_reads; [apply reads_effective_weights | intro w | auto].
  apply wp_bind, wp_reads; [apply reads_reasons_of | intros [match_reasons mismatch_reasons] | auto].
  apply W; [exact K1 | intros h2 K2].
  apply W; [exact K2 | intros h3 K3].
  apply W; [exact K3 | intros h4 K4].
  apply wp_bind, wp_alloc.
  apply W; [apply keeps_alloc, K4 | intros h5 K5].
  apply wp_bind, wp_alloc.
  apply W; [apply keeps_alloc, K5 | intros h6 K6].
  apply wp_bind.
  apply (wp_mono _ (fun _ h' => keeps h0 h') _ (fun _ h' => keeps h0 h')); [| |auto].
  { unfold render_result_dob. wp_read as c. destruct c; [|apply wp_ret, K6].
    wp_read as x. destruct x; try (apply wp_ret, K6).
    apply wp_setitem_any; [auto|]. intros l d' [= <-] _.
    apply keeps_insert; [exact K6 | exact L]. }
  cbv beta. intros _ h7 K7. apply wp_ret, K7.
Qed.

(** C9: [evaluate_match] leaves every object of the store it is called in as
    it was, whether it returns or raises: the candidate dictionary keeps its
    keys and its values, and so does every object they refer to.  The updates
    go to the copies the call creates. *)
Theorem evaluate_match_does_not_mutate tenant_data now match_data (h : heap) :
  let h' := final (evaluate_match sequence_ratio jaro_winkler_similarity
                     format_2f container_eq tenant_data now match_data h) in
  keeps h h'
  /\ forall l o, h !! l = Some o -> h' !! l = Some o.
Proof.
  intros h'.
  assert (K : keeps h h').
  { pose proof (evaluate_match_frame h tenant_data now match_data h (keeps_refl h)) as H.
    unfold wp in H. subst h'.
    destruct (evaluate_match _ _ _ _ _ _ _ h); exact H. }
  split; [exact K | intros l o; apply keeps_lookup, K].
Qed.

End Frame.

(* ------------------------------------------------------------------------- *)
(** ** What a run returns *)

Section Runs.

Lemma bind_ok {A B} (m : M A) (f : A -> M B) h a h' :
  m h = Ok a h' -> bind m f h = f a h'.
Proof. unfold bind. intros ->. reflexivity. Qed.

Lemma bind_raise {A B} (m : M A) (f : A -> M B) h e h' :
  m h = Raise e h' -> bind m f h = Raise e h'.
Proof. unfold bind. intros ->. reflexivity. Qed.

(** Locations of the objects a call has allocated, counted from the store
    [h] the call started in. *)
Lemma lookup_at (h t : heap) i : (h ++ t) !! (i + length h) = t !! i.
Proof. rewrite lookup_app_r by lia. f_equal. lia. Qed.

Lemma insert_at (h t : heap) i x :
  <[i + length h := x]> (h ++ t) = h ++ <[i := x]> t.
Proof. rewrite Nat.add_comm. apply insert_app_r. Qed.

Lemma lookup_base (h t : heap) l o : h !! l = Some o -> (h ++ t) !! l = Some o.
Proof. apply lookup_app_l_Some. Qed.

Lemma run_alloc o (h t : heap) :
  alloc o (h ++ t) = Ok (VRef (length t + length h)) (h ++ (t ++ [o])).
Proof. unfold alloc. rewrite length_app, app_assoc, Nat.add_comm. reflexivity. Qed.

Lemma run_copy l o (h : heap) :
  h !! l = Some o -> copy (VRef l) h = Ok (VRef (length h)) (h ++ [o]).
Proof. unfold copy. intros ->. reflexivity. Qed.

Lemma run_contains k l d (h : heap) :
  h !! l = Some (ODict d) -> contains k (VRef l) h = Ok (dict_mem k d) h.
Proof. unfold contains. intros ->. reflexivity. Qed.

Lemma run_getitem k l d x (h : heap) :
  h !! l = Some (ODict d) -> dict_get k d = Some x -> getitem (VRef l) k h = Ok x h.
Proof. unfold getitem. intros -> ->. reflexivity. Qed.

Lemma run_setitem k x l d (h : heap) :
  h !! l = Some (ODict d) ->
  setitem (VRef l) k x h = Ok tt (<[l := ODict (dict_set k x d)]> h).
Proof. unfold setitem. intros ->. reflexivity. Qed.

Lemma run_set_update parts l s (h : heap) :
  h !! l = Some (OSet s) ->
  set_update (VRef l) parts h = Ok tt (<[l := OSet (set_union s parts)]> h).
Proof. unfold set_update. intros ->. reflexivity. Qed.

Lemma run_get_set l s (h : heap) :
  h !! l = Some (OSet s) -> get_set (VRef l) h = Ok s h.
Proof. unfold get_set. intros ->. reflexivity. Qed.

Lemma dict_mem_get k d :
  dict_mem k d = match dict_get k d with Some _ => true | None => false end.
Proof. reflexivity. Qed.

Lemma run_has_truthy k l d (h : heap) :
  h !! l = Some (ODict d) ->
  has_truthy k (VRef l) h
  = Ok (match dict_get k d with Some x => truthy h x | None => false end) h.
Proof.
  intros Hl. unfold has_truthy.
  rewrite (bind_ok _ _ _ _ _ (run_contains k l d h Hl)). unfold dict_mem.
  destruct (dict_get k d) as [x|] eqn:Hk; [|reflexivity].
  rewrite (bind_ok _ _ _ _ _ (run_getitem k l d x h Hl Hk)). reflexivity.
Qed.

Lemma run_both_have k la lb da db (h : heap) :
  h !! la = Some (ODict da) -> h !! lb = Some (ODict db) ->
  both_have k (VRef la) (VRef lb) h = Ok (dict_mem k da && dict_mem k db) h.
Proof.
  intros Ha Hb. unfold both_have.
  rewrite (bind_ok _ _ _ _ _ (run_contains k la da h Ha)).
  destruct (dict_mem k da); [apply run_contains, Hb | reflexivity].
Qed.

(** A loop whose body takes the store from [mk s] to [mk (step s x)]. *)
Lemma run_for_each {A S} (mk : S -> heap) (Inv : S -> Prop) (step : S -> A -> S)
    (xs : list A) (body : A -> M unit) :
  (forall s x, In x xs -> Inv s ->
               body x (mk s) = Ok tt (mk (step s x)) /\ Inv (step s x)) ->
  forall s, Inv s ->
  for_each xs body (mk s) = Ok tt (mk (fold_left step xs s)) /\ Inv (fold_left step xs s).
Proof.
  induction xs as [|x xs IH]; intros Hb s Hs; cbn [for_each fold_left].
  - split; [reflexivity | exact Hs].
  - destruct (Hb s x (or_introl eq_refl) Hs) as [Hx Hi].
    rewrite (bind_ok _ _ _ _ _ Hx).
    apply IH; [|exact Hi]. intros s' y Hy. apply Hb. right; exact Hy.
Qed.

(** *** The normalized record, as a function of the record *)

Definition to_value (d : option datetime) : value :=
  match d with Some x => VDatetime x | None => VNone end.

Definition norm_name_field (d : dict) (k : string) : dict :=
  match dict_get k d with
  | Some (VStr s) => if is_nil s then d else dict_set k (VStr (normalize_str s)) d
  | _ => d
  end.

Definition norm_names (d : dict) : dict := fold_left norm_name_field name_fields d.

Definition field_parts (d : dict) (k : string) : list str :=
  match dict_get k d with
  | Some (VStr s) => split s
  | _ => []
  end.

Definition collect_parts (d : dict) : list str :=
  fold_left (fun acc k => set_union acc (field_parts d k)) name_fields [].

Definition norm_dob (d : dict) : dict :=
  match dict_get "dob" d with
  | Some (VStr s) =>
      if is_nil s then d
      else dict_set "dob" (to_value (parse_first s dob_formats)) d
  | _ => d
  end.

Definition add_age (now : datetime) (d : dict) : dict :=
  match dict_get "dob" d with
  | Some (VDatetime dob) => dict_set "age" (VInt (age_on now dob)) d
  | _ => d
  end.

(** The dictionary [_normalize_tenant_data] builds from [d]; [parts] is the
    location of its set of name parts. *)
Definition normalized_dict (now : datetime) (parts : loc) (d : dict) : dict :=
  add_age now (norm_dob (dict_set "name_parts" (VRef parts) (norm_names d))).

(** A name field that normalization accepts: a string, or a scalar that is
    false. *)
Definition name_value_ok (v : value) : bool :=
  match v with
  | VStr _ | VNone => true
  | VBool b => negb b
  | VInt n => (n =? 0)%Z
  | VFloat f => (f =? 0)%float
  | VDatetime _ | VRef _ => false
  end.

Definition field_ok (o : option value) : Prop :=
  match o with Some v => name_value_ok v = true | None => True end.

Definition names_ok (d : dict) : Prop :=
  forall k, In k name_fields -> field_ok (dict_get k d).

Lemma truthy_name_ok (h : heap) v :
  name_value_ok v = true ->
  truthy h v = match v with VStr s => negb (is_nil s) | _ => false end.
Proof.
  destruct v; cbn; intros H; try reflexivity; try discriminate.
  - destruct b; [discriminate | reflexivity].
  - rewrite H. reflexivity.
  - rewrite H. reflexivity.
Qed.

Lemma heap_at0 (h : heap) o t : (h ++ o :: t) !! length h = Some o.
Proof. apply list_lookup_middle. reflexivity. Qed.

Lemma heap_set0 (h : heap) o t x : <[length h := x]> (h ++ o :: t) = h ++ x :: t.
Proof. apply (insert_at h (o :: t) 0). Qed.

Lemma heap_at1 (h : heap) a o t : (h ++ a :: o :: t) !! S (length h) = Some o.
Proof. apply (lookup_at h (a :: o :: t) 1). Qed.

Lemma heap_set1 (h : heap) a o t x :
  <[S (length h) := x]> (h ++ a :: o :: t) = h ++ a :: x :: t.
Proof. apply (insert_at h (a :: o :: t) 1). Qed.

Lemma run_normalize_name_field (h : heap) dc k t :
  field_ok (dict_get k dc) ->
  normalize_name_field (VRef (length h)) k (h ++ ODict dc :: t)
  = Ok tt (h ++ ODict (norm_name_field dc k) :: t).
Proof.
  intros Hok. unfold normalize_name_field, norm_name_field.
  rewrite (bind_ok _ _ _ _ _ (run_has_truthy k _ dc _ (heap_at0 h _ _))).
  destruct (dict_get k dc) as [x|] eqn:Hk; [|reflexivity].
  cbn in Hok. rewrite (truthy_name_ok _ _ Hok).
  destruct x; try reflexivity.
  destruct s as [|c s]; [reflexivity|]. cbn [is_nil negb].
  rewrite (bind_ok _ _ _ _ _ (run_getitem k _ dc _ _ (heap_at0 h _ _) Hk)).
  unfold reading at 1. cbn [_normalize_name truthy is_nil negb lift].
  unfold bind at 1. cbn [ret].
  rewrite (run_setitem _ _ _ _ _ (heap_at0 h _ _)), heap_set0. reflexivity.
Qed.

Lemma dict_get_set k k' v d :
  dict_get k (dict_set k' v d) = if String.eqb k k' then Some v else dict_get k d.
Proof.
  destruct (String.eqb k k') eqn:E.
  - apply String.eqb_eq in E. subst. apply dict_get_set_eq.
  - apply dict_get_set_ne, E.
Qed.

Lemma field_ok_set k k' v d :
  name_value_ok v = true -> field_ok (dict_get k d) ->
  field_ok (dict_get k (dict_set k' v d)).
Proof. intros Hv Hd. rewrite dict_get_set. destruct (String.eqb k k'); assumption. Qed.

Lemma names_ok_norm_field d k : names_ok d -> names_ok (norm_name_field d k).
Proof.
  intros H k' Hk'. unfold norm_name_field.
  destruct (dict_get k d) as [[]|]; try (apply H; assumption).
  destruct (is_nil s); [apply H; assumption|].
  apply field_ok_set; [reflexivity | apply H; assumption].
Qed.

Lemma run_normalize_names (h : heap) d t :
  names_ok d ->
  for_each name_fields (normalize_name_field (VRef (length h))) (h ++ ODict d :: t)
  = Ok tt (h ++ ODict (norm_names d) :: t)
  /\ names_ok (norm_names d).
Proof.
  intros Hd.
  apply (run_for_each (fun s => h ++ ODict s :: t) names_ok norm_name_field); [|exact Hd].
  intros s k Hk Hs. split.
  - apply run_normalize_name_field, Hs, Hk.
  - apply names_ok_norm_field, Hs.
Qed.

Lemma set_union_nil s : set_union s [] = s.
Proof. reflexivity. Qed.

Lemma run_collect_name_parts (h : heap) d s k :
  field_ok (dict_get k d) ->
  dict_get "name_parts" d = Some (VRef (S (length h))) ->
  collect_name_parts (VRef (length h)) k (h ++ [ODict d; OSet s])
  = Ok tt (h ++ [ODict d; OSet (set_union s (field_parts d k))]).
Proof.
  intros Hok Hp. unfold collect_name_parts, field_parts.
  rewrite (bind_ok _ _ _ _ _ (run_has_truthy k _ d _ (heap_at0 h _ _))).
  destruct (dict_get k d) as [x|] eqn:Hk; [|reflexivity].
  cbn in Hok. rewrite (truthy_name_ok _ _ Hok).
  destruct x; try reflexivity.
  destruct s0 as [|c s0]; [reflexivity|]. cbn [is_nil negb].
  rewrite (bind_ok _ _ _ _ _ (run_getitem k _ d _ _ (heap_at0 h _ _) Hk)).
  cbn [str_split lift]. unfold bind at 1. cbn [ret].
  rewrite (bind_ok _ _ _ _ _ (run_getitem _ _ d _ _ (heap_at0 h _ _) Hp)).
  rewrite (run_set_update _ _ _ _ (heap_at1 h _ _ _)), heap_set1. reflexivity.
Qed.

Lemma run_normalize_dob (h : heap) d t :
  normalize_dob (VRef (length h)) (h ++ ODict d :: t) = Ok tt (h ++ ODict (norm_dob d) :: t).
Proof.
  unfold normalize_dob, norm_dob.
  rewrite (bind_ok _ _ _ _ _ (run_has_truthy _ _ d _ (heap_at0 h _ _))).
  destruct (dict_get "dob" d) as [x|] eqn:Hk; [|reflexivity].
  destruct (truthy (h ++ ODict d :: t) x) eqn:Ht.
  - rewrite (bind_ok _ _ _ _ _ (run_getitem _ _ d _ _ (heap_at0 h _ _) Hk)).
    destruct x; try reflexivity.
    destruct s as [|c s]; [discriminate Ht|]. cbn [is_nil].
    destruct (parse_first (c :: s) dob_formats); cbn [to_value];
      rewrite (run_setitem _ _ _ _ _ (heap_at0 h _ _)), heap_set0; reflexivity.
  - destruct x; try reflexivity.
    destruct s; [reflexivity | discriminate Ht].
Qed.

Lemma run_derive_age now (h : heap) d t :
  derive_age now (VRef (length h)) (h ++ ODict d :: t) = Ok tt (h ++ ODict (add_age now d) :: t).
Proof.
  unfold derive_age, add_age.
  rewrite (bind_ok _ _ _ _ _ (run_has_truthy _ _ d _ (heap_at0 h _ _))).
  destruct (dict_get "dob" d) as [x|] eqn:Hk; [|reflexivity].
  destruct (truthy (h ++ ODict d :: t) x) eqn:Ht.
  - rewrite (bind_ok _ _ _ _ _ (run_getitem _ _ d _ _ (heap_at0 h _ _) Hk)).
    destruct x; try reflexivity.
    rewrite (run_setitem _ _ _ _ _ (heap_at0 h _ _)), heap_set0; reflexivity.
  - destruct x; try reflexivity. discriminate Ht.
Qed.

Lemma names_ok_set_other d k v :
  ~ In k name_fields -> names_ok d -> names_ok (dict_set k v d).
Proof.
  intros Hk H k' Hk'. rewrite dict_get_set.
  destruct (String.eqb k' k) eqn:E; [|apply H, Hk'].
  apply String.eqb_eq in E. subst. contradiction.
Qed.

Lemma field_parts_set_other d k k' v :
  String.eqb k k' = false -> field_parts (dict_set k' v d) k = field_parts d k.
Proof. intros E. unfold field_parts. rewrite dict_get_set, E. reflexivity. Qed.

Lemma collect_parts_set_parts d v :
  collect_parts (dict_set "name_parts" v d) = collect_parts d.
Proof.
  unfold collect_parts, name_fields. cbn [fold_left].
  rewrite !field_parts_set_other by reflexivity. reflexivity.
Qed.

(** The run of [_normalize_tenant_data] on a record whose name fields are
    acceptable: it returns, with the new dictionary and its set of parts as the
    two objects added to the store. *)
Lemma run_normalize now l d (h : heap) :
  h !! l = Some (ODict d) -> names_ok d ->
  _normalize_tenant_data now (VRef l) h
  = Ok (VRef (length h))
       (h ++ [ODict (normalized_dict now (S (length h)) d);
              OSet (collect_parts (norm_names d))]).
Proof.
  intros Hl Hd. unfold _normalize_tenant_data.
  rewrite (bind_ok _ _ _ _ _ (run_copy _ _ _ Hl)).
  destruct (run_normalize_names h d [] Hd) as [R1 Hok1].
  rewrite (bind_ok _ _ _ _ _ R1).
  rewrite (bind_ok _ _ _ _ _ (run_alloc _ h _)). cbn [length app Nat.add].
  rewrite (bind_ok _ _ _ _ _ (run_setitem _ _ _ _ _ (heap_at0 h _ _))), heap_set0.
  set (d2 := dict_set "name_parts" (VRef (S (length h))) (norm_names d)).
  assert (Hok2 : names_ok d2).
  { apply names_ok_set_other; [|exact Hok1].
    cbn. intros [H|[H|[H|[H|[]]]]]; discriminate H. }
  assert (Hp : dict_get "name_parts" d2 = Some (VRef (S (length h))))
    by apply dict_get_set_eq.
  destruct (run_for_each (fun s => h ++ [ODict d2; OSet s]) (fun _ => True)
              (fun s k => set_union s (field_parts d2 k)) name_fields
              (collect_name_parts (VRef (length h)))) with (s := @nil str) as [R2 _];
    [| exact I |].
  { intros s k Hk _. split; [|exact I].
    apply run_collect_name_parts; [apply Hok2, Hk | exact Hp]. }
  rewrite (bind_ok _ _ _ _ _ R2).
  rewrite (bind_ok _ _ _ _ _ (run_normalize_dob h _ _)).
  rewrite (bind_ok _ _ _ _ _ (run_derive_age now h _ _)).
  cbn [ret]. unfold normalized_dict. fold d2.
  change (fold_left _ name_fields []) with (collect_parts d2).
  unfold d2. rewrite collect_parts_set_parts. reflexivity.
Qed.

End Runs.

(* ------------------------------------------------------------------------- *)
(** ** What [evaluate_match] returns *)

Section Scoring.

Variable sequence_ratio : str -> str -> float.
Variable jaro_winkler_similarity : str -> str -> float.
Variable format_2f : float -> str.
Variable container_eq : heap -> loc -> loc -> bool.

Local Abbreviation sim := (_calculate_name_similarity sequence_ratio jaro_winkler_similarity).

(** The score of one attribute: the comparator on the two values when both
    dictionaries have the key, [0.0] otherwise. *)
Definition field_score (cmp : heap -> value -> value -> exn + float) (h : heap)
    (k : string) (dt dn : dict) : exn + float :=
  match dict_get k dn, dict_get k dt with
  | Some b, Some a => cmp h a b
  | _, _ => inr 0%float
  end.

Lemma run_compare_field cmp k lt ln dt dn (h : heap) :
  h !! lt = Some (ODict dt) -> h !! ln = Some (ODict dn) ->
  compare_field cmp k (VRef lt) (VRef ln) h = lift (field_score cmp h k dt dn) h.
Proof.
  intros Ht Hn. unfold compare_field, field_score.
  rewrite (bind_ok _ _ _ _ _ (run_both_have k _ _ _ _ _ Hn Ht)). unfold dict_mem.
  destruct (dict_get k dn) as [b|] eqn:Eb; [|reflexivity].
  destruct (dict_get k dt) as [a|] eqn:Ea; [|reflexivity].
  cbn [andb].
  rewrite (bind_ok _ _ _ _ _ (run_getitem k _ _ _ _ Ht Ea)).
  rewrite (bind_ok _ _ _ _ _ (run_getitem k _ _ _ _ Hn Eb)).
  reflexivity.
Qed.

(** The content of a set, read from the store. *)
Definition set_of (h : heap) (v : value) : exn + list str :=
  match v with
  | VRef l => match h !! l with
              | Some (OSet s) => inr s
              | Some _ => inl AttributeError
              | None => inl SystemError
              end
  | _ => inl AttributeError
  end.

Lemma run_get_set_any v (h : heap) : get_set v h = lift (set_of h v) h.
Proof.
  unfold get_set, set_of. destruct v; try reflexivity.
  destruct (h !! l) as [[]|]; reflexivity.
Qed.

Definition parts_score (h : heap) (dt dn : dict) : exn + float :=
  match dict_get "name_parts" dt, dict_get "name_parts" dn with
  | Some tenant_parts, Some match_parts =>
      if truthy h tenant_parts && truthy h match_parts
      then ebind (set_of h tenant_parts) (fun s =>
           ebind (set_of h match_parts) (fun t =>
           inr (Py.truediv (length (set_inter s t)) (Nat.max (length s) (length t)))))
      else inr 0%float
  | _, _ => inr 0%float
  end.

Definition split_score (h : heap) (dt dn : dict) : exn + float :=
  ebind (field_score sim h "first_name" dt dn) (fun first_name_score =>
  ebind (field_score sim h "last_name" dt dn) (fun last_name_score =>
  ebind (parts_score h dt dn) (fun parts_score =>
  inr (Py.max3 first_name_score last_name_score parts_score)))).

(** The name score, from the reference dictionary [dt] and the normalized
    candidate [dn]. *)
Definition name_score_for (h : heap) (dt dn : dict) : exn + float :=
  match dict_get "full_name" dn, dict_get "full_name" dt with
  | Some b, Some a => sim h a b
  | _, _ => split_score h dt dn
  end.

Lemma lift_bind {A B} (r : exn + A) (f : A -> M B) h :
  bind (lift r) f h = match r with inr a => f a h | inl e => Raise e h end.
Proof. destruct r; reflexivity. Qed.

Lemma lift_ebind {A B} (r : exn + A) (g : A -> exn + B) h :
  lift (ebind r g) h = match r with inr a => lift (g a) h | inl e => Raise e h end.
Proof. destruct r; reflexivity. Qed.

Lemma bind_lift_run {A B} (m : M A) (r : exn + A) (f : A -> M B) h :
  m h = lift r h ->
  bind m f h = match r with inr a => f a h | inl e => Raise e h end.
Proof. unfold bind. intros ->. destruct r; reflexivity. Qed.

Lemma bind_assoc {A B C} (m : M A) (f : A -> M B) (g : B -> M C) h :
  bind (bind m f) g h = bind m (fun a => bind (f a) g) h.
Proof. unfold bind. destruct (m h); reflexivity. Qed.

Lemma bind_truth {B} v (f : bool -> M B) h : bind (truth v) f h = f (truthy h v) h.
Proof. reflexivity. Qed.

Lemma bind_ret {A B} (a : A) (f : A -> M B) h : bind (ret a) f h = f a h.
Proof. reflexivity. Qed.

Lemma run_split_name_score lt ln dt dn (h : heap) :
  h !! lt = Some (ODict dt) -> h !! ln = Some (ODict dn) ->
  split_name_score sequence_ratio jaro_winkler_similarity (VRef lt) (VRef ln) h
  = lift (split_score h dt dn) h.
Proof.
  intros Ht Hn. unfold split_name_score, split_score.
  rewrite (bind_lift_run _ _ _ _ (run_compare_field sim "first_name" _ _ _ _ _ Ht Hn)).
  rewrite lift_ebind.
  destruct (field_score sim h "first_name" dt dn) as [e|f]; [reflexivity|].
  rewrite (bind_lift_run _ _ _ _ (run_compare_field sim "last_name" _ _ _ _ _ Ht Hn)).
  rewrite lift_ebind.
  destruct (field_score sim h "last_name" dt dn) as [e|l]; [reflexivity|].
  rewrite (bind_ok _ _ _ _ _ (run_both_have _ _ _ _ _ _ Ht Hn)).
  rewrite lift_ebind. unfold parts_score, dict_mem.
  destruct (dict_get "name_parts" dt) as [tp|] eqn:Etp; [|reflexivity].
  destruct (dict_get "name_parts" dn) as [mp|] eqn:Emp; [|reflexivity].
  cbn [andb].
  rewrite !bind_assoc.
  rewrite (bind_ok _ _ _ _ _ (run_getitem _ _ _ _ _ Ht Etp)).
  rewrite !bind_assoc.
  rewrite (bind_ok _ _ _ _ _ (run_getitem _ _ _ _ _ Hn Emp)).
  rewrite !bind_assoc, bind_truth.
  destruct (truthy h tp); cbn [andb]; [|reflexivity].
  rewrite !bind_assoc, bind_truth.
  destruct (truthy h mp); [|reflexivity].
  rewrite !bind_assoc, (bind_lift_run _ _ _ _ (run_get_set_any _ _)).
  destruct (set_of h tp) as [e|s]; [reflexivity|]. cbn [ebind].
  rewrite !bind_assoc, (bind_lift_run _ _ _ _ (run_get_set_any _ _)).
  destruct (set_of h mp) as [e|t]; reflexivity.
Qed.

Lemma run_name_score_of lt ln dt dn (h : heap) :
  h !! lt = Some (ODict dt) -> h !! ln = Some (ODict dn) ->
  name_score_of sequence_ratio jaro_winkler_similarity (VRef lt) (VRef ln) h
  = lift (name_score_for h dt dn) h.
Proof.
  intros Ht Hn. unfold name_score_of, name_score_for.
  rewrite (bind_ok _ _ _ _ _ (run_both_have _ _ _ _ _ _ Hn Ht)). unfold dict_mem.
  destruct (dict_get "full_name" dn) as [b|] eqn:Eb;
    [destruct (dict_get "full_name" dt) as [a|] eqn:Ea|];
    try (apply run_split_name_score; assumption).
  cbn [andb].
  rewrite (bind_ok _ _ _ _ _ (run_getitem _ _ _ _ _ Ht Ea)).
  rewrite (bind_ok _ _ _ _ _ (run_getitem _ _ _ _ _ Hn Eb)).
  reflexivity.
Qed.

Local Open Scope float_scope.

(** Both dictionaries have the key: the attribute is scored and weighted. *)
Definition present (k : string) (dt dn : dict) : bool := dict_mem k dn && dict_mem k dt.

(** The weights, from which of the four attributes are present. *)
Definition weights_for (dob location nationality gender : bool) : weights :=
  let total_weight := 0.5 in
  let total_weight := if dob then total_weight + 0.2 else total_weight in
  let total_weight := if location then total_weight + 0.1 else total_weight in
  let total_weight := if nationality then total_weight + 0.1 else total_weight in
  let total_weight := if gender then total_weight + 0.1 else total_weight in
  if 0 <? total_weight then
    mkweights (0.5 / total_weight)
              (if dob then 0.2 / total_weight else 0)
              (if location then 0.1 / total_weight else 0)
              (if nationality then 0.1 / total_weight else 0)
              (if gender then 0.1 / total_weight else 0)
  else mkweights 0.5 0.2 0.1 0.1 0.1.

Lemma run_effective_weights lt ln dt dn (h : heap) :
  h !! lt = Some (ODict dt) -> h !! ln = Some (ODict dn) ->
  effective_weights (VRef lt) (VRef ln) h
  = Ok (weights_for (present "dob" dt dn) (present "location" dt dn)
          (present "nationality" dt dn) (present "gender" dt dn)) h.
Proof.
  intros Ht Hn. unfold effective_weights, weights_for, present.
  repeat rewrite (bind_ok _ _ _ _ _ (run_both_have _ _ _ _ _ _ Hn Ht)).
  cbv zeta.
  destruct (0 <? _); [|reflexivity].
  repeat rewrite (bind_ok _ _ _ _ _ (run_both_have _ _ _ _ _ _ Hn Ht)).
  reflexivity.
Qed.

(** The reasons, from the scores and which attributes are present. *)
Definition reasons_for (s : scores) (dob nationality gender : bool) : reason_lists :=
  exact_reasons_for gender (gender_score s) "Gender matches" "Gender does not match"
    (exact_reasons_for nationality (nationality_score s)
       "Nationality matches exactly" "Nationality does not match"
       (location_reasons format_2f s
          (dob_reasons_for dob s (name_reasons format_2f s ([], []))))).

Lemma dob_reasons_for_decided b s r :
  (dob_score s =? 1) || (0 <? dob_score s) = true ->
  dob_reasons_for b s r = dob_reasons_for false s r.
Proof.
  unfold dob_reasons_for. destruct r as [mr mm].
  destruct (dob_score s =? 1); [reflexivity|].
  destruct (0 <? dob_score s); [reflexivity | discriminate].
Qed.

Lemma run_dob_reasons lt ln dt dn s r (h : heap) :
  h !! lt = Some (ODict dt) -> h !! ln = Some (ODict dn) ->
  dob_reasons (VRef lt) (VRef ln) s r h = Ok (dob_reasons_for (present "dob" dt dn) s r) h.
Proof.
  intros Ht Hn. unfold dob_reasons.
  destruct ((dob_score s =? 1) || (0 <? dob_score s)) eqn:E.
  - rewrite (dob_reasons_for_decided (present "dob" dt dn) _ _ E). reflexivity.
  - rewrite (bind_ok _ _ _ _ _ (run_both_have _ _ _ _ _ _ Hn Ht)). reflexivity.
Qed.

Lemma run_exact_reasons k lt ln dt dn x a b r (h : heap) :
  h !! lt = Some (ODict dt) -> h !! ln = Some (ODict dn) ->
  exact_reasons k (VRef lt) (VRef ln) x a b r h
  = Ok (exact_reasons_for (present k dt dn) x a b r) h.
Proof.
  intros Ht Hn. unfold exact_reasons.
  destruct (x =? 1) eqn:E.
  - unfold exact_reasons_for. destruct r. rewrite E. reflexivity.
  - rewrite (bind_ok _ _ _ _ _ (run_both_have _ _ _ _ _ _ Hn Ht)). reflexivity.
Qed.

Lemma run_reasons_of lt ln dt dn s (h : heap) :
  h !! lt = Some (ODict dt) -> h !! ln = Some (ODict dn) ->
  reasons_of format_2f (VRef lt) (VRef ln) s h
  = Ok (reasons_for s (present "dob" dt dn) (present "nationality" dt dn)
          (present "gender" dt dn)) h.
Proof.
  intros Ht Hn. unfold reasons_of, reasons_for.
  rewrite (bind_ok _ _ _ _ _ (run_dob_reasons _ _ _ _ _ _ _ Ht Hn)).
  rewrite (bind_ok _ _ _ _ _ (run_exact_reasons _ _ _ _ _ _ _ _ _ _ Ht Hn)).
  apply run_exact_reasons; assumption.
Qed.

Definition all_scores (h : heap) (dt dn : dict) : exn + scores :=
  ebind (name_score_for h dt dn) (fun name_score =>
  ebind (field_score (_compare_dates container_eq) h "dob" dt dn) (fun dob_score =>
  ebind (field_score (_compare_locations sequence_ratio) h "location" dt dn)
    (fun location_score =>
  ebind (field_score _compare_nationalities h "nationality" dt dn)
    (fun nationality_score =>
  ebind (field_score _compare_gender h "gender" dt dn) (fun gender_score =>
  inr (mkscores name_score dob_score location_score nationality_score gender_score)))))).

(** Lines 466-467: a [datetime] in the result is rendered. *)
Definition render_dob (d : dict) : dict :=
  match dict_get "dob" d with
  | Some (VDatetime x) => dict_set "dob" (VStr (strftime_iso x)) d
  | _ => d
  end.

(** The dictionary [evaluate_match] returns for the candidate [dm]; the two
    lists of reasons are at [reasons] and [reasons + 1]. *)
Definition result_dict (dm : dict) (relevance_score : float) (reasons : loc) : dict :=
  let mc := _get_match_category relevance_score in
  render_dob
    (dict_set "mismatch_reasons" (VRef (S reasons))
    (dict_set "match_reasons" (VRef reasons)
    (dict_set "match_label" (VStr (u (mc_label mc)))
    (dict_set "match_category" (VStr (u (mc_category mc)))
    (dict_set "relevance_score" (VFloat relevance_score) dm))))).

Lemma run_render_dob (h : heap) d t :
  render_result_dob (VRef (length h)) (h ++ ODict d :: t)
  = Ok tt (h ++ ODict (render_dob d) :: t).
Proof.
  unfold render_result_dob, render_dob.
  rewrite (bind_ok _ _ _ _ _ (run_contains _ _ d _ (heap_at0 h _ _))). unfold dict_mem.
  destruct (dict_get "dob" d) as [x|] eqn:Hk; [|reflexivity].
  rewrite (bind_ok _ _ _ _ _ (run_getitem _ _ d _ _ (heap_at0 h _ _) Hk)).
  destruct x; try reflexivity.
  rewrite (run_setitem _ _ _ _ _ (heap_at0 h _ _)), heap_set0. reflexivity.
Qed.

(** What [evaluate_match] does on a candidate whose name fields are
    acceptable: it raises what a comparator raises, or returns the reference
    to the result, the store having five more objects: the result, the
    normalized candidate, its set of name parts, and the two lists of
    reasons. *)
Lemma run_evaluate_match lt lm dt dm now (h : heap) :
  h !! lt = Some (ODict dt) -> h !! lm = Some (ODict dm) -> names_ok dm ->
  let l0 := length h in
  let dn := normalized_dict now (S (S l0)) dm in
  let parts := collect_parts (norm_names dm) in
  let h1 := h ++ [ODict dm; ODict dn; OSet parts] in
  evaluate_match sequence_ratio jaro_winkler_similarity format_2f container_eq
    (VRef lt) now (VRef lm) h
  = match all_scores h1 dt dn with
    | inl e => Raise e h1
    | inr s =>
        let w := weights_for (present "dob" dt dn) (present "location" dt dn)
                   (present "nationality" dt dn) (present "gender" dt dn) in
        let r := reasons_for s (present "dob" dt dn) (present "nationality" dt dn)
                   (present "gender" dt dn) in
        Ok (VRef l0)
           (h ++ [ODict (result_dict dm (weighted_score s w) (S (S (S l0))));
                  ODict dn; OSet parts;
                  OList (map VStr (fst r)); OList (map VStr (snd r))])
    end.
Proof.
  intros Ht Hm Hok l0 dn parts h1. unfold evaluate_match.
  rewrite (bind_ok _ _ _ _ _ (run_copy _ _ _ Hm)).
  rewrite (bind_ok _ _ _ _ _
             (run_normalize now lm dm (h ++ [ODict dm]) (lookup_base _ _ _ _ Hm) Hok)).
  rewrite length_app, <- app_assoc. cbn [length app]. rewrite Nat.add_1_r.
  fold l0. fold dn. fold parts. fold h1.
  assert (Ht1 : h1 !! lt = Some (ODict dt)) by (apply lookup_base, Ht).
  assert (Hn1 : h1 !! S l0 = Some (ODict dn)) by apply heap_at1.
  unfold all_scores.
  rewrite (bind_lift_run _ _ _ _ (run_name_score_of _ _ _ _ _ Ht1 Hn1)).
  destruct (name_score_for h1 dt dn) as [e|name_score]; [reflexivity|]. cbn [ebind].
  rewrite (bind_lift_run _ _ _ _ (run_compare_field _ _ _ _ _ _ _ Ht1 Hn1)).
  destruct (field_score _ h1 "dob" dt dn) as [e|dob_score]; [reflexivity|]. cbn [ebind].
  rewrite (bind_lift_run _ _ _ _ (run_compare_field _ _ _ _ _ _ _ Ht1 Hn1)).
  destruct (field_score _ h1 "location" dt dn) as [e|location_score]; [reflexivity|].
  cbn [ebind].
  rewrite (bind_lift_run _ _ _ _ (run_compare_field _ _ _ _ _ _ _ Ht1 Hn1)).
  destruct (field_score _ h1 "nationality" dt dn) as [e|nationality_score]; [reflexivity|].
  cbn [ebind].
  rewrite (bind_lift_run _ _ _ _ (run_compare_field _ _ _ _ _ _ _ Ht1 Hn1)).
  destruct (field_score _ h1 "gender" dt dn) as [e|gender_score]; [reflexivity|].
  cbn [ebind].
  rewrite (bind_ok _ _ _ _ _ (run_effective_weights _ _ _ _ _ Ht1 Hn1)).
  rewrite (bind_ok _ _ _ _ _ (run_reasons_of _ _ _ _ _ _ Ht1 Hn1)).
  destruct (reasons_for _ _ _ _) as [match_reasons mismatch_reasons].
  cbn [fst snd]. unfold h1, l0.
  rewrite (bind_ok _ _ _ _ _ (run_setitem _ _ _ _ _ (heap_at0 h _ _))), heap_set0.
  rewrite (bind_ok _ _ _ _ _ (run_setitem _ _ _ _ _ (heap_at0 h _ _))), heap_set0.
  rewrite (bind_ok _ _ _ _ _ (run_setitem _ _ _ _ _ (heap_at0 h _ _))), heap_set0.
  rewrite (bind_ok _ _ _ _ _ (run_alloc _ h _)). cbn [length app Nat.add].
  rewrite (bind_ok _ _ _ _ _ (run_setitem _ _ _ _ _ (heap_at0 h _ _))), heap_set0.
  rewrite (bind_ok _ _ _ _ _ (run_alloc _ h _)). cbn [length app Nat.add].
  rewrite (bind_ok _ _ _ _ _ (run_setitem _ _ _ _ _ (heap_at0 h _ _))), heap_set0.
  rewrite (bind_ok _ _ _ _ _ (run_render_dob h _ _)).
  reflexivity.
Qed.

End Scoring.

(* ------------------------------------------------------------------------- *)
(** ** The comparison of dates *)

Section Dates.

Variable container_eq : heap -> loc -> loc -> bool.

(** The similarity of two optional dates, as [_compare_dates] computes it. *)
Definition date_similarity (d1 d2 : option datetime) : float :=
  match d1, d2 with
  | Some a, Some b =>
      if datetime_eqb a b then 1.0%float
      else if (year a =? year b)%Z then 0.5%float else 0.0%float
  | _, _ => 0.0%float
  end.

Lemma datetime_eqb_sym a b : datetime_eqb a b = datetime_eqb b a.
Proof.
  unfold datetime_eqb.
  rewrite (Z.eqb_sym (year a)), (Z.eqb_sym (month a)), (Z.eqb_sym (day a)),
    (Z.eqb_sym (hour a)), (Z.eqb_sym (minute a)), (Z.eqb_sym (second a)),
    (Z.eqb_sym (microsecond a)).
  reflexivity.
Qed.

Lemma date_similarity_sym d1 d2 : date_similarity d1 d2 = date_similarity d2 d1.
Proof.
  destruct d1 as [a|], d2 as [b|]; cbn; try reflexivity.
  rewrite (datetime_eqb_sym a b), (Z.eqb_sym (year a)). reflexivity.
Qed.

Lemma compare_dates_optional h d1 d2 :
  _compare_dates container_eq h (to_value d1) (to_value d2) = inr (date_similarity d1 d2).
Proof.
  destruct d1 as [a|], d2 as [b|]; cbn; try reflexivity.
  destruct (datetime_eqb a b); [reflexivity|].
  destruct (year a =? year b)%Z; reflexivity.
Qed.

(** C7, as the code has it: [_compare_dates] returns [1.0] when the two
    [datetime] values are equal, [0.5] when they differ and have the same
    year, [0.0] otherwise and when either is [None]; it is symmetric; and on
    two values without a time of day, as the parser of the normalizer yields
    them, equal means the same year, month and day. *)
Theorem compare_dates_amended h (d1 d2 : option datetime) :
  _compare_dates container_eq h (to_value d1) (to_value d2) = inr (date_similarity d1 d2)
  /\ _compare_dates container_eq h (to_value d1) (to_value d2)
     = _compare_dates container_eq h (to_value d2) (to_value d1)
  /\ forall y m d y' m' d',
       _compare_dates container_eq h (VDatetime (date y m d)) (VDatetime (date y' m' d'))
       = inr (if ((y =? y') && (m =? m') && (d =? d'))%Z then 1.0%float
              else if (y =? y')%Z then 0.5%float else 0.0%float).
Proof.
  split; [apply compare_dates_optional | split].
  - rewrite !compare_dates_optional, date_similarity_sym. reflexivity.
  - intros y m d y' m' d'.
    change (VDatetime (date y m d)) with (to_value (Some (date y m d))).
    change (VDatetime (date y' m' d')) with (to_value (Some (date y' m' d'))).
    rewrite compare_dates_optional.
    cbn. unfold datetime_eqb. cbn. rewrite !andb_true_r. reflexivity.
Qed.

End Dates.

(** C7 as stated fails: two values of the same year, month and day that
    differ in the hour score [0.5], not [1.0]. *)
Lemma compare_dates_same_day_not_exact :
  (fun container_eq h =>
     _compare_dates container_eq h
       (VDatetime (mkdatetime 1990 1 1 0 0 0 0))
       (VDatetime (mkdatetime 1990 1 1 12 0 0 0)))
  = (fun _ _ => inr 0.5%float).
Proof. reflexivity. Qed.

(* ------------------------------------------------------------------------- *)
(** ** Extraction from the pipeline *)

Section Extraction.

(** The results a step contributes: those of a blacklist step whose
    ['results'] is a list, none otherwise. *)
Definition step_results (h : heap) (step : value) : list value :=
  match step with
  | VRef l =>
      match h !! l with
      | Some (ODict d) =>
          match dict_get "type" d, dict_get "results" d with
          | Some t, Some (VRef lr) =>
              if is_str blacklist_tag t
              then match h !! lr with Some (OList xs) => xs | _ => [] end
              else []
          | _, _ => []
          end
      | _ => []
      end
  | _ => []
  end.

(** A step of the expected shape: a dictionary whose ['results'], when it is
    a blacklist step that has them, is a list. *)
Definition step_shaped (h : heap) (step : value) : Prop :=
  exists l d,
    step = VRef l /\ h !! l = Some (ODict d)
    /\ forall t r, dict_get "type" d = Some t -> is_str blacklist_tag t = true ->
                   dict_get "results" d = Some r ->
                   exists lr xs, r = VRef lr /\ h !! lr = Some (OList xs).

Lemma run_extend_from_step (h : heap) matches step :
  step_shaped h step ->
  extend_from_step matches step h = Ok (matches ++ step_results h step) h.
Proof.
  intros (l & d & -> & Hl & Hr). unfold extend_from_step, step_results.
  unfold bind at 1, dict_get_method. rewrite Hl.
  destruct (dict_get "type" d) as [t|] eqn:Et; cbn [is_str];
    [|rewrite app_nil_r; reflexivity].
  destruct (is_str blacklist_tag t) eqn:Etag; [|destruct (dict_get "results" d) as [[]|]; rewrite app_nil_r; reflexivity].
  rewrite (bind_ok _ _ _ _ _ (run_contains _ _ _ _ Hl)). unfold dict_mem.
  destruct (dict_get "results" d) as [r|] eqn:Er; [|rewrite app_nil_r; reflexivity].
  destruct (Hr t r eq_refl Etag eq_refl) as (lr & xs & -> & Hlr).
  rewrite (bind_ok _ _ _ _ _ (run_getitem _ _ _ _ _ Hl Er)).
  unfold bind, iterate. rewrite Hlr. reflexivity.
Qed.

Lemma run_extend_from_steps (h : heap) steps :
  Forall (step_shaped h) steps ->
  forall matches,
    extend_from_steps matches steps h = Ok (matches ++ flat_map (step_results h) steps) h.
Proof.
  induction 1 as [|step steps Hs _ IH]; intros matches; cbn [extend_from_steps flat_map].
  - rewrite app_nil_r. reflexivity.
  - rewrite (bind_ok _ _ _ _ _ (run_extend_from_step h matches step Hs)).
    rewrite IH, <- app_assoc. reflexivity.
Qed.

(** C4, as the code has it.  For a container that is a dictionary:
    without a ['pipeline'] key, or with one that is neither a list nor a
    dictionary, the extraction returns the empty list; with a list of steps of
    the expected shape it returns the results of the blacklist steps, in
    order, repetitions kept; with a single step of the expected shape it
    returns the results of that step. *)
Theorem extract_matches_amended l d (h : heap) :
  h !! l = Some (ODict d) ->
  (dict_get "pipeline" d = None ->
   extract_matches_from_pipeline (VRef l) h = Ok [] h)
  /\ (forall v, dict_get "pipeline" d = Some v ->
                (forall lp, v = VRef lp -> exists s, h !! lp = Some (OSet s)) ->
                extract_matches_from_pipeline (VRef l) h = Ok [] h)
  /\ (forall lp steps, dict_get "pipeline" d = Some (VRef lp) ->
                       h !! lp = Some (OList steps) ->
                       Forall (step_shaped h) steps ->
                       extract_matches_from_pipeline (VRef l) h
                       = Ok (flat_map (step_results h) steps) h)
  /\ (forall lp, dict_get "pipeline" d = Some (VRef lp) ->
                 step_shaped h (VRef lp) ->
                 extract_matches_from_pipeline (VRef l) h
                 = Ok (step_results h (VRef lp)) h).
Proof.
  intros Hl. unfold extract_matches_from_pipeline.
  rewrite (bind_ok _ _ _ _ _ (run_contains _ _ _ _ Hl)). unfold dict_mem.
  repeat split.
  - intros ->. reflexivity.
  - intros v Hv Hshape. rewrite Hv.
    rewrite (bind_ok _ _ _ _ _ (run_getitem _ _ _ _ _ Hl Hv)).
    unfold bind, shape_of. destruct v; try reflexivity.
    destruct (Hshape _ eq_refl) as [s ->]. reflexivity.
  - intros lp steps Hv Hlp Hsteps. rewrite Hv.
    rewrite (bind_ok _ _ _ _ _ (run_getitem _ _ _ _ _ Hl Hv)).
    unfold bind at 1, shape_of. rewrite Hlp.
    apply (run_extend_from_steps h steps Hsteps []).
  - intros lp Hv Hstep. rewrite Hv.
    rewrite (bind_ok _ _ _ _ _ (run_getitem _ _ _ _ _ Hl Hv)).
    destruct Hstep as (l' & d' & [= <-] & Hl' & Hr).
    unfold bind at 1, shape_of. rewrite Hl'.
    apply (run_extend_from_step h [] (VRef lp)).
    exists lp, d'. auto.
Qed.

End Extraction.

(** A pipeline with two blacklist steps and one of another type. *)
Definition sample_pipeline : heap :=
  [ ODict [("pipeline", VRef 1)];
    OList [VRef 2; VRef 4; VRef 5];
    ODict [("type", VStr blacklist_tag); ("results", VRef 3)];
    OList [VInt 1; VInt 2];
    ODict [("type", VStr (u "other")); ("results", VRef 3)];
    ODict [("type", VStr blacklist_tag); ("results", VRef 3)] ].

Lemma extract_matches_amended_witness :
  extract_matches_from_pipeline (VRef 0) sample_pipeline
  = Ok [VInt 1; VInt 2; VInt 1; VInt 2] sample_pipeline.
Proof.
  pose proof (extract_matches_amended 0 [("pipeline", VRef 1)] sample_pipeline eq_refl)
    as (_ & _ & H & _).
  apply (H 1 [VRef 2; VRef 4; VRef 5] eq_refl eq_refl).
  repeat constructor.
  - exists 2, [("type", VStr blacklist_tag); ("results", VRef 3)].
    repeat split. intros t r _ _ [= <-]. exists 3, [VInt 1; VInt 2]. split; reflexivity.
  - exists 4, [("type", VStr (u "other")); ("results", VRef 3)].
    repeat split. intros t r _ _ [= <-]. exists 3, [VInt 1; VInt 2]. split; reflexivity.
  - exists 5, [("type", VStr blacklist_tag); ("results", VRef 3)].
    repeat split. intros t r _ _ [= <-]. exists 3, [VInt 1; VInt 2]. split; reflexivity.
Defined.

(** C4 as stated fails: a list of steps that holds something other than a
    dictionary makes the extraction raise, where the claim has it return the
    empty list. *)
Lemma extract_matches_malformed_raises :
  extract_matches_from_pipeline (VRef 0) [ODict [("pipeline", VRef 1)]; OList [VNone]]
  = Raise AttributeError [ODict [("pipeline", VRef 1)]; OList [VNone]].
Proof. reflexivity. Qed.

(* ------------------------------------------------------------------------- *)
(** ** The full name, when both sides have one *)

Section FullName.

Variable sequence_ratio : str -> str -> float.
Variable jaro_winkler_similarity : str -> str -> float.

(** The name comparison on its own: when both the reference dictionary and the
    normalized candidate have the key ['full_name'], the name score is the
    similarity of the two values under that key, whatever else the
    dictionaries hold; it is [0.0] as soon as one of the two values is empty
    or false. *)
Lemma name_score_of_full_name lt ln dt dn a b (h : heap) :
  h !! lt = Some (ODict dt) -> h !! ln = Some (ODict dn) ->
  dict_get "full_name" dt = Some a -> dict_get "full_name" dn = Some b ->
  name_score_of sequence_ratio jaro_winkler_similarity (VRef lt) (VRef ln) h
  = lift (_calculate_name_similarity sequence_ratio jaro_winkler_similarity h a b) h
  /\ (truthy h a = false \/ truthy h b = false ->
      name_score_of sequence_ratio jaro_winkler_similarity (VRef lt) (VRef ln) h
      = Ok 0.0%float h).
Proof.
  intros Ht Hn Ha Hb.
  assert (R : name_score_of sequence_ratio jaro_winkler_similarity (VRef lt) (VRef ln) h
              = lift (_calculate_name_similarity sequence_ratio jaro_winkler_similarity
                        h a b) h).
  { rewrite (run_name_score_of _ _ _ _ _ _ _ Ht Hn). unfold name_score_for.
    rewrite Ha, Hb. reflexivity. }
  split; [exact R|]. intros Hf. rewrite R. unfold _calculate_name_similarity.
  destruct Hf as [-> | ->]; [|rewrite orb_true_r]; reflexivity.
Qed.

End FullName.

(** A reference and a normalized candidate with an empty full name and the
    same first and last names and name parts. *)
Definition sample_empty_full_name : heap :=
  [ ODict [("full_name", VStr []); ("first_name", VStr (u "john"));
           ("last_name", VStr (u "doe")); ("name_parts", VRef 1)];
    OSet [u "john"; u "doe"];
    ODict [("full_name", VStr []); ("first_name", VStr (u "john"));
           ("last_name", VStr (u "doe")); ("name_parts", VRef 3)];
    OSet [u "john"; u "doe"] ].

(** A stand-in for the two similarity functions of the libraries, for the
    examples: like them, it gives [1.0] on two equal strings and never more
    than [1.0]. *)
Definition exact_ratio (a b : str) : float :=
  if str_eqb a b then 1.0%float else 0.0%float.

Example name_score_of_empty_full_name :
  name_score_of exact_ratio exact_ratio (VRef 0) (VRef 2) sample_empty_full_name
  = Ok 0.0%float sample_empty_full_name.
Proof.
  apply (name_score_of_full_name exact_ratio exact_ratio 0 2 _ _ (VStr []) (VStr [])
           sample_empty_full_name eq_refl eq_refl eq_refl eq_refl).
  left. reflexivity.
Qed.

(* ------------------------------------------------------------------------- *)
(** ** Normalization: where it raises, and where it is not idempotent *)

(** C3 as stated fails: a name field that holds a number makes the
    normalization raise. *)
Lemma normalize_raises_on_number :
  (fun now => _normalize_tenant_data now (VRef 0) [ODict [("first_name", VInt 12345)]])
  = (fun _ => Raise TypeError [ODict [("first_name", VInt 12345)];
                               ODict [("first_name", VInt 12345)]]).
Proof. reflexivity. Qed.

(** C8 as stated fails: U+0130 is a word character and lowers to [i] followed
    by U+0307, which is not one; normalizing again removes it. *)
Lemma normalize_name_not_idempotent :
  _normalize_name [] (VStr [CapIDot]) = inr [L1 "i"%char; CombDot]
  /\ _normalize_name [] (VStr [L1 "i"%char; CombDot]) = inr [L1 "i"%char].
Proof. split; reflexivity. Qed.

Section Idempotence.

Definition keep (c : char) : bool := isword c || isspace c.

Lemma lower_latin1_kept a :
  keep (L1 a) = true ->
  exists b, lower_char (L1 a) = [L1 b] /\ keep (L1 b) = true /\ lower_char (L1 b) = [L1 b].
Proof.
  intros H. eexists. split; [reflexivity|]. revert H.
  destruct a as [[] [] [] [] [] [] [] []]; vm_compute; intros H;
    first [discriminate H | split; reflexivity].
Qed.

(** On Latin-1 strings, normalizing a normalized name changes nothing. *)
Lemma normalize_str_idempotent (s : str) :
  forallb is_latin1 s = true -> normalize_str (normalize_str s) = normalize_str s.
Proof.
  unfold normalize_str, lower, strip_special. fold keep.
  induction s as [|c s IH]; [reflexivity|]. cbn [forallb List.filter].
  intros H. apply andb_prop in H as [Hc Hs]. specialize (IH Hs).
  destruct c as [a| |]; try discriminate Hc.
  destruct (keep (L1 a)) eqn:Hk; [|exact IH].
  destruct (lower_latin1_kept a Hk) as (b & Hl & Hkb & Hlb).
  cbn [flat_map]. rewrite Hl. cbn [app List.filter]. rewrite Hkb.
  cbn [flat_map]. rewrite Hlb. cbn [app]. f_equal. exact IH.
Qed.

End Idempotence.

(* ------------------------------------------------------------------------- *)
(** ** Records of the expected types *)

Section Lookups.

(** What normalization makes of the value of a name field. *)
Definition norm_value (v : value) : value :=
  match v with
  | VStr s => if is_nil s then v else VStr (normalize_str s)
  | _ => v
  end.

(** What normalization makes of the value of ['dob']. *)
Definition norm_dob_value (v : value) : value :=
  match v with
  | VStr s => if is_nil s then v else to_value (parse_first s dob_formats)
  | _ => v
  end.

Definition is_name_field (k : string) : bool := existsb (String.eqb k) name_fields.

Lemma get_norm_name_field k k' d :
  dict_get k (norm_name_field d k')
  = if String.eqb k k' then option_map norm_value (dict_get k d) else dict_get k d.
Proof.
  unfold norm_name_field.
  destruct (String.eqb k k') eqn:E.
  - apply String.eqb_eq in E. subst k'.
    destruct (dict_get k d) as [v|] eqn:Hv; [|rewrite Hv; reflexivity].
    destruct v; cbn; try (rewrite Hv; reflexivity).
    destruct (is_nil s); [rewrite Hv; reflexivity | apply dict_get_set_eq].
  - destruct (dict_get k' d) as [[]|]; try reflexivity.
    destruct (is_nil s); [reflexivity | apply dict_get_set_ne, E].
Qed.

Lemma get_norm_names k d :
  dict_get k (norm_names d)
  = if is_name_field k then option_map norm_value (dict_get k d) else dict_get k d.
Proof.
  unfold norm_names, is_name_field, name_fields. cbn [fold_left existsb].
  rewrite !get_norm_name_field.
  destruct (String.eqb k "first_name") eqn:E1; [apply String.eqb_eq in E1; subst; reflexivity|].
  destruct (String.eqb k "middle_name") eqn:E2; [apply String.eqb_eq in E2; subst; reflexivity|].
  destruct (String.eqb k "last_name") eqn:E3; [apply String.eqb_eq in E3; subst; reflexivity|].
  destruct (String.eqb k "full_name") eqn:E4; reflexivity.
Qed.

Lemma get_norm_dob k d :
  dict_get k (norm_dob d)
  = if String.eqb k "dob" then option_map norm_dob_value (dict_get k d) else dict_get k d.
Proof.
  unfold norm_dob.
  destruct (String.eqb k "dob") eqn:E.
  - apply String.eqb_eq in E. subst k.
    destruct (dict_get "dob" d) as [v|] eqn:Hv; [|rewrite Hv; reflexivity].
    destruct v; cbn; try (rewrite Hv; reflexivity).
    destruct (is_nil s); [rewrite Hv; reflexivity | apply dict_get_set_eq].
  - destruct (dict_get "dob" d) as [[]|]; try reflexivity.
    destruct (is_nil s); [reflexivity | apply dict_get_set_ne, E].
Qed.

Lemma get_add_age k now d :
  String.eqb k "age" = false -> dict_get k (add_age now d) = dict_get k d.
Proof.
  intros E. unfold add_age.
  destruct (dict_get "dob" d) as [[]|]; try reflexivity.
  apply dict_get_set_ne, E.
Qed.

(** The entries of the normalized dictionary, but for ['age']. *)
Lemma get_normalized k now p d :
  String.eqb k "age" = false ->
  dict_get k (normalized_dict now p d)
  = if String.eqb k "dob" then option_map norm_dob_value (dict_get k d)
    else if String.eqb k "name_parts" then Some (VRef p)
    else if is_name_field k then option_map norm_value (dict_get k d)
    else dict_get k d.
Proof.
  intros Ea. unfold normalized_dict.
  rewrite (get_add_age _ _ _ Ea), get_norm_dob, !dict_get_set, get_norm_names.
  destruct (String.eqb k "dob") eqn:Ed; [|reflexivity].
  apply String.eqb_eq in Ed. subst k. reflexivity.
Qed.

Lemma get_render_dob k d :
  String.eqb k "dob" = false -> dict_get k (render_dob d) = dict_get k d.
Proof.
  intros E. unfold render_dob.
  destruct (dict_get "dob" d) as [[]|]; try reflexivity.
  apply dict_get_set_ne, E.
Qed.

(** How a value is rendered in the result. *)
Definition render_value (v : value) : value :=
  match v with VDatetime x => VStr (strftime_iso x) | _ => v end.

Lemma get_render_dob_dob d :
  dict_get "dob" (render_dob d) = option_map render_value (dict_get "dob" d).
Proof.
  unfold render_dob.
  destruct (dict_get "dob" d) as [v|] eqn:E; [|rewrite E; reflexivity].
  destruct v; cbn; try (rewrite E; reflexivity).
  apply dict_get_set_eq.
Qed.

Lemma get_result_dob dm rel p :
  dict_get "dob" (result_dict dm rel p) = option_map render_value (dict_get "dob" dm).
Proof.
  unfold result_dict. rewrite get_render_dob_dob, !dict_get_set. reflexivity.
Qed.

Lemma get_result_relevance dm rel p :
  dict_get "relevance_score" (result_dict dm rel p) = Some (VFloat rel).
Proof.
  unfold result_dict. rewrite get_render_dob, !dict_get_set by reflexivity. reflexivity.
Qed.

Lemma get_result_category dm rel p :
  dict_get "match_category" (result_dict dm rel p)
  = Some (VStr (u (mc_category (_get_match_category rel)))).
Proof.
  unfold result_dict. rewrite get_render_dob, !dict_get_set by reflexivity. reflexivity.
Qed.

Lemma get_result_mismatch dm rel p :
  dict_get "mismatch_reasons" (result_dict dm rel p) = Some (VRef (S p)).
Proof.
  unfold result_dict. rewrite get_render_dob, !dict_get_set by reflexivity. reflexivity.
Qed.

End Lookups.

Section Typed.

Variable sequence_ratio : str -> str -> float.
Variable jaro_winkler_similarity : str -> str -> float.
Variable container_eq : heap -> loc -> loc -> bool.

Local Abbreviation sim := (_calculate_name_similarity sequence_ratio jaro_winkler_similarity).

Definition opt_ok (p : value -> bool) (o : option value) : Prop :=
  match o with Some v => p v = true | None => True end.

(** A date of birth as a caller supplies it: [None], a non-empty string, or a
    [datetime]. *)
Definition dob_raw_ok (v : value) : bool :=
  match v with
  | VNone | VDatetime _ => true
  | VStr s => negb (is_nil s)
  | _ => false
  end.

(** A date of birth after normalization: [None] or a [datetime]. *)
Definition dob_norm_ok (v : value) : bool :=
  match v with VNone | VDatetime _ => true | _ => false end.

Definition is_set (h : heap) (v : value) : bool :=
  match v with
  | VRef l => match h !! l with Some (OSet _) => true | _ => false end
  | _ => false
  end.

(** The attributes that are compared as strings. *)
Definition string_fields : list string :=
  name_fields ++ ["location"; "nationality"; "gender"].

(** A record as the schema of the service describes it: the string
    attributes, when present, hold a string (or a scalar that is false), and
    the date of birth [None], a non-empty string or a [datetime]. *)
Definition candidate_ok (d : dict) : Prop :=
  (forall k, In k string_fields -> opt_ok name_value_ok (dict_get k d))
  /\ opt_ok dob_raw_ok (dict_get "dob" d).

(** A normalized record, such as [self.tenant_data]: moreover its date of
    birth is [None] or a [datetime], and its ['name_parts'] a set. *)
Definition normalized_ok (h : heap) (d : dict) : Prop :=
  (forall k, In k string_fields -> opt_ok name_value_ok (dict_get k d))
  /\ opt_ok dob_norm_ok (dict_get "dob" d)
  /\ opt_ok (is_set h) (dict_get "name_parts" d).

Lemma candidate_names_ok d : candidate_ok d -> names_ok d.
Proof.
  intros [H _] k Hk. specialize (H k). unfold string_fields in H.
  unfold field_ok. unfold opt_ok in H. apply H, in_or_app. left; exact Hk.
Qed.

Lemma opt_ok_map (p q : value -> bool) (f : value -> value) o :
  (forall v, p v = true -> q (f v) = true) -> opt_ok p o -> opt_ok q (option_map f o).
Proof. intros H. destruct o; cbn; auto. Qed.

Lemma norm_value_ok v : name_value_ok v = true -> name_value_ok (norm_value v) = true.
Proof. destruct v; cbn; auto. destruct (is_nil s); reflexivity. Qed.

Lemma norm_dob_value_ok v : dob_raw_ok v = true -> dob_norm_ok (norm_dob_value v) = true.
Proof.
  destruct v; try reflexivity; try discriminate.
  unfold dob_raw_ok, norm_dob_value.
  destruct (is_nil s); [discriminate|]. intros _.
  destruct (parse_first s dob_formats); reflexivity.
Qed.

Lemma string_field_cases k :
  In k string_fields ->
  String.eqb k "age" = false /\ String.eqb k "dob" = false
  /\ String.eqb k "name_parts" = false.
Proof.
  cbn. intros [<-|[<-|[<-|[<-|[<-|[<-|[<-|[]]]]]]]]; repeat split.
Qed.

Lemma normalized_dict_ok now p d (h : heap) :
  candidate_ok d -> is_set h (VRef p) = true ->
  normalized_ok h (normalized_dict now p d).
Proof.
  intros [Hs Hd] Hp. split; [|split].
  - intros k Hk. destruct (string_field_cases k Hk) as (Ea & Ed & Ep).
    rewrite (get_normalized _ _ _ _ Ea), Ed, Ep.
    destruct (is_name_field k); [|apply Hs, Hk].
    apply (opt_ok_map name_value_ok); [apply norm_value_ok | apply Hs, Hk].
  - rewrite get_normalized by reflexivity. cbn [String.eqb Ascii.eqb Bool.eqb].
    apply (opt_ok_map dob_raw_ok); [apply norm_dob_value_ok | exact Hd].
  - rewrite get_normalized by reflexivity. exact Hp.
Qed.

Lemma is_set_keeps (h t : heap) v : is_set h v = true -> is_set (h ++ t) v = true.
Proof.
  destruct v; cbn; auto.
  destruct (h !! l) as [o|] eqn:E; [|discriminate].
  rewrite (lookup_base h t l o E). auto.
Qed.

Lemma normalized_ok_keeps (h t : heap) d : normalized_ok h d -> normalized_ok (h ++ t) d.
Proof.
  intros (Hs & Hd & Hp). repeat split; auto.
  destruct (dict_get "name_parts" d); cbn in *; [apply is_set_keeps, Hp | exact I].
Qed.

(** *** The comparators return on such records *)

Definition returns {A} (r : exn + A) : Prop := exists x, r = inr x.

Lemma normalize_name_returns (h : heap) v :
  name_value_ok v = true -> returns (_normalize_name h v).
Proof.
  intros H. unfold _normalize_name. rewrite (truthy_name_ok _ _ H).
  destruct v; cbn; try (eexists; reflexivity).
  destruct (is_nil s); eexists; reflexivity.
Qed.

Lemma sim_returns (h : heap) a b :
  name_value_ok a = true -> name_value_ok b = true -> returns (sim h a b).
Proof.
  intros Ha Hb. unfold _calculate_name_similarity.
  destruct (_ || _); [eexists; reflexivity|].
  destruct (normalize_name_returns h a Ha) as [x ->].
  destruct (normalize_name_returns h b Hb) as [y ->].
  eexists; reflexivity.
Qed.

Lemma locations_returns (h : heap) a b :
  name_value_ok a = true -> name_value_ok b = true ->
  returns (_compare_locations sequence_ratio h a b).
Proof.
  intros Ha Hb. unfold _compare_locations.
  destruct (_ || _); [eexists; reflexivity|].
  destruct (normalize_name_returns h a Ha) as [x ->].
  destruct (normalize_name_returns h b Hb) as [y ->].
  eexists; reflexivity.
Qed.

Lemma nationalities_returns (h : heap) a b :
  name_value_ok a = true -> name_value_ok b = true ->
  returns (_compare_nationalities h a b).
Proof.
  intros Ha Hb. unfold _compare_nationalities.
  destruct (_ || _); [eexists; reflexivity|].
  destruct (normalize_name_returns h a Ha) as [x ->].
  destruct (normalize_name_returns h b Hb) as [y ->].
  eexists; reflexivity.
Qed.

Lemma gender_returns (h : heap) a b :
  name_value_ok a = true -> name_value_ok b = true ->
  returns (_compare_gender h a b).
Proof.
  intros Ha Hb. unfold _compare_gender.
  rewrite (truthy_name_ok _ _ Ha), (truthy_name_ok _ _ Hb).
  destruct a, b; cbn; try (eexists; reflexivity);
    repeat match goal with |- context [is_nil ?s] => destruct s; cbn end;
    eexists; reflexivity.
Qed.

Lemma dates_return (h : heap) a b :
  dob_norm_ok a = true -> dob_norm_ok b = true ->
  returns (_compare_dates container_eq h a b).
Proof.
  destruct a, b; cbn; try discriminate; intros _ _; try (eexists; reflexivity).
  destruct (datetime_eqb d d0); [eexists; reflexivity|].
  destruct (year d =? year d0)%Z; eexists; reflexivity.
Qed.

Lemma field_score_returns (p : value -> bool) cmp (h : heap) k dt dn :
  (forall a b, p a = true -> p b = true -> returns (cmp h a b)) ->
  opt_ok p (dict_get k dt) -> opt_ok p (dict_get k dn) ->
  returns (field_score cmp h k dt dn).
Proof.
  intros Hc Ht Hn. unfold field_score.
  destruct (dict_get k dn); [|eexists; reflexivity].
  destruct (dict_get k dt); [|eexists; reflexivity].
  apply Hc; assumption.
Qed.

Lemma set_of_returns (h : heap) v : is_set h v = true -> returns (set_of h v).
Proof.
  destruct v; cbn; try discriminate.
  destruct (h !! l) as [[]|]; try discriminate. eexists; reflexivity.
Qed.

Lemma parts_score_returns (h : heap) dt dn :
  opt_ok (is_set h) (dict_get "name_parts" dt) ->
  opt_ok (is_set h) (dict_get "name_parts" dn) ->
  returns (parts_score h dt dn).
Proof.
  intros Ht Hn. unfold parts_score.
  destruct (dict_get "name_parts" dt) as [tp|]; [|eexists; reflexivity].
  destruct (dict_get "name_parts" dn) as [mp|]; [|eexists; reflexivity].
  destruct (_ && _); [|eexists; reflexivity].
  destruct (set_of_returns h tp Ht) as [s ->].
  destruct (set_of_returns h mp Hn) as [t ->].
  eexists; reflexivity.
Qed.

Lemma in_string_fields k :
  existsb (String.eqb k) string_fields = true -> In k string_fields.
Proof.
  intros H. apply existsb_exists in H as (x & Hx & E).
  apply String.eqb_eq in E. subst. exact Hx.
Qed.

(** On a normalized reference and a normalized candidate, every comparator
    returns: the five scores exist. *)
Lemma all_scores_return (h : heap) dt dn :
  normalized_ok h dt -> normalized_ok h dn ->
  returns (all_scores sequence_ratio jaro_winkler_similarity container_eq h dt dn).
Proof.
  intros (Ts & Td & Tp) (Ns & Nd & Np). unfold all_scores.
  assert (F : forall cmp k,
             (forall a b, name_value_ok a = true -> name_value_ok b = true ->
                          returns (cmp h a b)) ->
             existsb (String.eqb k) string_fields = true ->
             returns (field_score cmp h k dt dn)).
  { intros cmp k Hc Hk. apply in_string_fields in Hk.
    apply (field_score_returns name_value_ok); auto. }
  assert (Hname : returns (name_score_for sequence_ratio jaro_winkler_similarity h dt dn)).
  { unfold name_score_for.
    pose proof (Ts "full_name" (in_string_fields "full_name" eq_refl)) as Tf.
    pose proof (Ns "full_name" (in_string_fields "full_name" eq_refl)) as Nf.
    assert (Hsplit : returns (split_score sequence_ratio jaro_winkler_similarity h dt dn)).
    { unfold split_score.
      destruct (F sim "first_name" (sim_returns h) eq_refl) as [x ->].
      destruct (F sim "last_name" (sim_returns h) eq_refl) as [y ->].
      destruct (parts_score_returns h dt dn Tp Np) as [z ->].
      eexists; reflexivity. }
    destruct (dict_get "full_name" dn); [|exact Hsplit].
    destruct (dict_get "full_name" dt); [|exact Hsplit].
    apply sim_returns; assumption. }
  destruct Hname as [n ->].
  destruct (field_score_returns dob_norm_ok (_compare_dates container_eq) h "dob" dt dn
              (dates_return h) Td Nd) as [d ->].
  destruct (F _ "location" (locations_returns h) eq_refl) as [l ->].
  destruct (F _ "nationality" (nationalities_returns h) eq_refl) as [a ->].
  destruct (F _ "gender" (gender_returns h) eq_refl) as [g ->].
  eexists; reflexivity.
Qed.

End Typed.

(* ------------------------------------------------------------------------- *)
(** ** The result of [evaluate_match] *)

Section Results.

Variable sequence_ratio : str -> str -> float.
Variable jaro_winkler_similarity : str -> str -> float.
Variable format_2f : float -> str.
Variable container_eq : heap -> loc -> loc -> bool.

Local Abbreviation scores_of :=
  (all_scores sequence_ratio jaro_winkler_similarity container_eq).
Local Abbreviation run_match :=
  (evaluate_match sequence_ratio jaro_winkler_similarity format_2f container_eq).

(** The store in which the candidate [dm] is scored: the copy for the result,
    the normalized candidate, and its set of name parts come after [h]. *)
Definition scoring_store (now : datetime) (h : heap) (dm : dict) : heap :=
  h ++ [ODict dm;
        ODict (normalized_dict now (S (S (length h))) dm);
        OSet (collect_parts (norm_names dm))].

Lemma heap_at2 (h : heap) a b o t : (h ++ a :: b :: o :: t) !! S (S (length h)) = Some o.
Proof. apply (lookup_at h (a :: b :: o :: t) 2). Qed.

Lemma scoring_store_ok now (h : heap) dt dm :
  normalized_ok h dt -> candidate_ok dm ->
  normalized_ok (scoring_store now h dm) dt
  /\ normalized_ok (scoring_store now h dm) (normalized_dict now (S (S (length h))) dm).
Proof.
  intros Ht Hm. split; [apply normalized_ok_keeps, Ht|].
  apply normalized_dict_ok; [exact Hm|].
  unfold is_set, scoring_store. rewrite heap_at2. reflexivity.
Qed.

(** On a normalized reference and a candidate of the expected types,
    [evaluate_match] returns. *)
Lemma evaluate_match_returns lt lm dt dm now (h : heap) :
  h !! lt = Some (ODict dt) -> h !! lm = Some (ODict dm) ->
  normalized_ok h dt -> candidate_ok dm ->
  let dn := normalized_dict now (S (S (length h))) dm in
  exists s,
    scores_of (scoring_store now h dm) dt dn = inr s
    /\ run_match (VRef lt) now (VRef lm) h
       = let w := weights_for (present "dob" dt dn) (present "location" dt dn)
                    (present "nationality" dt dn) (present "gender" dt dn) in
         let r := reasons_for format_2f s (present "dob" dt dn)
                    (present "nationality" dt dn) (present "gender" dt dn) in
         Ok (VRef (length h))
            (h ++ [ODict (result_dict dm (weighted_score s w) (S (S (S (length h)))));
                   ODict dn; OSet (collect_parts (norm_names dm));
                   OList (map VStr (fst r)); OList (map VStr (snd r))]).
Proof.
  intros Ht Hm Tok Mok dn.
  destruct (scoring_store_ok now h dt dm Tok Mok) as [T1 N1].
  destruct (all_scores_return sequence_ratio jaro_winkler_similarity container_eq
              _ _ _ T1 N1) as [s Hs].
  exists s. split; [exact Hs|].
  rewrite (run_evaluate_match sequence_ratio jaro_winkler_similarity format_2f
             container_eq lt lm dt dm now h Ht Hm (candidate_names_ok _ Mok)).
  cbv zeta. fold dn. unfold scoring_store in Hs. fold dn in Hs. rewrite Hs. reflexivity.
Qed.

Lemma present_raw k dt now p dm :
  In k ["dob"; "location"; "nationality"; "gender"] ->
  present k dt (normalized_dict now p dm) = dict_mem k dm && dict_mem k dt.
Proof.
  intros Hk. unfold present, dict_mem. f_equal.
  destruct Hk as [<-|[<-|[<-|[<-|[]]]]];
    rewrite get_normalized by reflexivity; cbn; destruct (dict_get _ dm); reflexivity.
Qed.

Local Open Scope float_scope.

(** The sum of the base weights of the attributes that are present. *)
Definition total_weight (dob location nationality gender : bool) : float :=
  let total_weight := 0.5 in
  let total_weight := if dob then total_weight + 0.2 else total_weight in
  let total_weight := if location then total_weight + 0.1 else total_weight in
  let total_weight := if nationality then total_weight + 0.1 else total_weight in
  if gender then total_weight + 0.1 else total_weight.

Definition weight_sum (w : weights) : float :=
  name_weight w + dob_weight w + location_weight w + nationality_weight w
  + gender_weight w.

Lemma weights_for_total pd pl pn pg :
  let total := total_weight pd pl pn pg in
  weights_for pd pl pn pg
  = mkweights (0.5 / total)
      (if pd then 0.2 / total else 0) (if pl then 0.1 / total else 0)
      (if pn then 0.1 / total else 0) (if pg then 0.1 / total else 0).
Proof. destruct pd, pl, pn, pg; reflexivity. Qed.

Lemma weight_sum_near_one pd pl pn pg :
  (1 <=? weight_sum (weights_for pd pl pn pg))
  && (weight_sum (weights_for pd pl pn pg) <=? 1.0000000000000002) = true.
Proof. destruct pd, pl, pn, pg; reflexivity. Qed.

Lemma all_scores_parts (h : heap) dt dn s :
  scores_of h dt dn = inr s ->
  name_score_for sequence_ratio jaro_winkler_similarity h dt dn = inr (name_score s)
  /\ field_score (_compare_dates container_eq) h "dob" dt dn = inr (dob_score s)
  /\ field_score (_compare_locations sequence_ratio) h "location" dt dn
     = inr (location_score s)
  /\ field_score _compare_nationalities h "nationality" dt dn = inr (nationality_score s)
  /\ field_score _compare_gender h "gender" dt dn = inr (gender_score s).
Proof.
  unfold all_scores.
  destruct (name_score_for _ _ h dt dn); [discriminate|].
  destruct (field_score _ h "dob" dt dn); [discriminate|].
  destruct (field_score _ h "location" dt dn); [discriminate|].
  destruct (field_score _ h "nationality" dt dn); [discriminate|].
  destruct (field_score _ h "gender" dt dn); [discriminate|].
  cbn. intros [= <-]. cbn. auto.
Qed.

Lemma compare_dates_none_r (h : heap) a : _compare_dates container_eq h a VNone = inr 0.
Proof. destruct a; reflexivity. Qed.

Lemma compare_dates_none_l (h : heap) b : _compare_dates container_eq h VNone b = inr 0.
Proof. reflexivity. Qed.

(** C1, as the code has it.  On a normalized reference and a candidate of the
    expected types [evaluate_match] returns, and the relevance score of the
    result is the sum over the five attributes of score times weight, where:
    the weight of the name is [0.5 / total]; the weight of each other
    attribute is its base weight over [total] when both dictionaries have its
    key, [0] otherwise; [total] is [0.5] plus the base weights of those
    attributes.  The weights sum to [1] up to rounding.  A date of birth that
    does not parse leaves the key in place with [None]: the attribute counts
    as present whenever the reference has it, and its score is [0.0]. *)
Theorem relevance_is_renormalized_sum lt lm dt dm now (h : heap) :
  h !! lt = Some (ODict dt) -> h !! lm = Some (ODict dm) ->
  normalized_ok h dt -> candidate_ok dm ->
  let pd := dict_mem "dob" dm && dict_mem "dob" dt in
  let pl := dict_mem "location" dm && dict_mem "location" dt in
  let pn := dict_mem "nationality" dm && dict_mem "nationality" dt in
  let pg := dict_mem "gender" dm && dict_mem "gender" dt in
  let total := total_weight pd pl pn pg in
  let w := mkweights (0.5 / total)
             (if pd then 0.2 / total else 0) (if pl then 0.1 / total else 0)
             (if pn then 0.1 / total else 0) (if pg then 0.1 / total else 0) in
  exists s dres h',
    scores_of (scoring_store now h dm) dt (normalized_dict now (S (S (length h))) dm)
    = inr s
    /\ run_match (VRef lt) now (VRef lm) h = Ok (VRef (length h)) h'
    /\ h' !! length h = Some (ODict dres)
    /\ dict_get "relevance_score" dres
       = Some (VFloat (name_score s * name_weight w
                       + dob_score s * dob_weight w
                       + location_score s * location_weight w
                       + nationality_score s * nationality_weight w
                       + gender_score s * gender_weight w))
    /\ (1 <=? weight_sum w) && (weight_sum w <=? 1.0000000000000002) = true
    /\ forall x, dict_get "dob" dm = Some (VStr x) -> x <> [] ->
                 parse_first x dob_formats = None ->
                 pd = dict_mem "dob" dt /\ dob_score s = 0.
Proof.
  intros Ht Hm Tok Mok pd pl pn pg total w.
  destruct (evaluate_match_returns lt lm dt dm now h Ht Hm Tok Mok) as (s & Hs & Hrun).
  cbv zeta in Hrun.
  rewrite !present_raw in Hrun by (cbn; tauto).
  fold pd pl pn pg in Hrun. rewrite weights_for_total in Hrun. fold total w in Hrun.
  eexists s, _, _. split; [exact Hs|]. split; [exact Hrun|].
  split; [apply heap_at0|]. split; [apply get_result_relevance|].
  split.
  { unfold w, total. rewrite <- weights_for_total. apply weight_sum_near_one. }
  intros x Hx Hne Hparse.
  split.
  { unfold pd, dict_mem. rewrite Hx. reflexivity. }
  destruct (all_scores_parts _ _ _ _ Hs) as (_ & Hd & _).
  unfold field_score in Hd. rewrite get_normalized in Hd by reflexivity.
  cbn [String.eqb Ascii.eqb Bool.eqb] in Hd. rewrite Hx in Hd.
  cbn [option_map norm_dob_value] in Hd.
  destruct x as [|c x]; [contradiction|]. cbn [is_nil] in Hd.
  rewrite Hparse in Hd. cbn [to_value] in Hd.
  destruct (dict_get "dob" dt).
  - rewrite compare_dates_none_r in Hd. congruence.
  - congruence.
Qed.

Lemma digit_char_is_digit n : (0 <= n < 10)%Z -> is_digit (digit_char n) = true.
Proof.
  intros H. rewrite <- (Z2Nat.id n) by lia.
  assert (C : (Z.to_nat n < 10)%nat) by lia.
  revert C. generalize (Z.to_nat n). intros k C.
  do 10 (destruct k as [|k]; [reflexivity|]). lia.
Qed.



(** *** A record against itself *)

Lemma char_eqb_refl c : char_eqb c c = true.
Proof. destruct c; cbn; auto using Ascii.eqb_refl. Qed.

Lemma str_eqb_refl s : str_eqb s s = true.
Proof. induction s as [|c s IH]; cbn; [reflexivity|]. rewrite char_eqb_refl. exact IH. Qed.

Lemma str_mem_cons x y s : str_mem x s = true -> str_mem x (y :: s) = true.
Proof. unfold str_mem. cbn. intros ->. apply orb_true_r. Qed.

Lemma set_inter_self s : set_inter s s = s.
Proof.
  unfold set_inter.
  assert (G : forall t, (forall x, In x s -> str_mem x t = true) ->
                        List.filter (fun x => str_mem x t) s = s).
  { induction s as [|y s IH]; intros t Ht; cbn; [reflexivity|].
    rewrite (Ht y (or_introl eq_refl)). f_equal. apply IH.
    intros x Hx. apply Ht. right; exact Hx. }
  apply G. intros x Hx. unfold str_mem. apply existsb_exists.
  exists x. split; [exact Hx | apply str_eqb_refl].
Qed.

Lemma length_lower s : length (lower s) <= 2 * length s.
Proof.
  unfold lower. induction s as [|c s IH]; cbn [flat_map length]; [lia|].
  rewrite length_app. destruct c; cbn [lower_char length]; lia.
Qed.

Lemma length_normalize_str s : length (normalize_str s) <= 2 * length s.
Proof.
  unfold normalize_str. etransitivity; [apply length_lower|].
  unfold strip_special. pose proof (List.filter_length_le (fun c => isword c || isspace c) s).
  lia.
Qed.

(** What is assumed of the two similarity functions: [ratio] gives [1.0] on
    two equal strings shorter than 200 characters (from there on [difflib]
    discards the characters it finds too frequent), and the Jaro-Winkler
    similarity is never above [1.0]. *)
Definition libraries_ok : Prop :=
  (forall s, length s < 200 -> sequence_ratio s s = 1)
  /\ (forall a b, (1 <? jaro_winkler_similarity a b) = false).

Hypothesis Hlib : libraries_ok.

Lemma name_signals_self n :
  length n < 200 -> name_signals sequence_ratio jaro_winkler_similarity n n = 1.
Proof.
  intros Hn. destruct Hlib as [H1 H2]. unfold name_signals, Py.max3.
  rewrite (H1 n Hn), (max2_one_l _ (H2 n n)).
  apply max2_one_l.
  destruct (is_nil (set_of_list (split n))); [reflexivity|]. cbn [negb].
  rewrite set_inter_self. apply div_self_not_above_one.
Qed.

Definition short (s : str) : Prop := 4 * length s < 200.

Lemma sim_self (h : heap) n :
  n <> [] -> 2 * length n < 200 ->
  _calculate_name_similarity sequence_ratio jaro_winkler_similarity h (VStr n) (VStr n)
  = inr 1.
Proof.
  intros Hne Hlen. unfold _calculate_name_similarity, _normalize_name.
  destruct n as [|c n]; [contradiction|]. cbn [truthy is_nil negb orb ebind].
  rewrite name_signals_self; [reflexivity|].
  pose proof (length_normalize_str (c :: n)). lia.
Qed.

(** The score of a name field that both sides hold in normalized form. *)
Lemma sim_norm_value (h : heap) v :
  name_value_ok v = true ->
  (forall s, v = VStr s -> short s) ->
  exists x,
    _calculate_name_similarity sequence_ratio jaro_winkler_similarity h
      (norm_value v) (norm_value v) = inr x
    /\ (x = 0 \/ x = 1)
    /\ (forall s, v = VStr s -> normalize_str s <> [] -> x = 1).
Proof.
  intros Hok Hshort.
  assert (Z : forall w, (forall s, v = VStr s -> normalize_str s <> [] -> False) ->
                        truthy h w = false ->
                        exists x,
                          _calculate_name_similarity sequence_ratio
                            jaro_winkler_similarity h w w = inr x
                          /\ (x = 0 \/ x = 1)
                          /\ (forall s, v = VStr s -> normalize_str s <> [] -> x = 1)).
  { intros w Hv Hw. exists 0. split; [|split; [left; reflexivity|]].
    - unfold _calculate_name_similarity. rewrite Hw. reflexivity.
    - intros s Es Hs. destruct (Hv s Es Hs). }
  destruct v; try discriminate Hok.
  - apply Z; [discriminate | reflexivity].
  - apply Z; [discriminate|]. cbn in *. destruct b; [discriminate | reflexivity].
  - apply Z; [discriminate|]. cbn in *. rewrite Hok. reflexivity.
  - apply Z; [discriminate|]. cbn in *. rewrite Hok. reflexivity.
  - specialize (Hshort s eq_refl). unfold short in Hshort. cbn [norm_value].
    destruct s as [|c s]; cbn [is_nil].
    { apply Z; [|reflexivity]. intros ? [= <-] H. apply H. reflexivity. }
    destruct (normalize_str (c :: s)) as [|c' n] eqn:En.
    { apply Z; [|reflexivity]. intros ? [= <-] H. apply H. exact En. }
    exists 1. split; [|split; [right; reflexivity | reflexivity]].
    apply sim_self; [discriminate|].
    rewrite <- En. pose proof (length_normalize_str (c :: s)). lia.
Qed.

(** A name field that scores: a string that is not empty once normalized. *)
Definition scoring_name (d : dict) (k : string) : Prop :=
  exists s, dict_get k d = Some (VStr s) /\ normalize_str s <> [].

(** A record that carries the five scored attributes, each with a value that
    scores: a record of the expected types, with
    - a full name that is not empty once normalized, or no key ['full_name']
      and a first or a last name that is not empty once normalized (a full
      name that is present and empty scores [0.0], whatever the other names
      are, and is left out);
    - a date of birth that is a [datetime], or a non-empty string that one of
      the formats parses;
    - a location, a nationality and a gender that are non-empty strings;
    - every string among the names, the location, the nationality and the
      gender shorter than 50 characters, so that what [ratio] is given, after
      the two normalizations, stays under the 200 characters up to which it
      is assumed exact. *)
Definition carries_all (d : dict) : Prop :=
  candidate_ok d
  /\ (forall k s, In k string_fields -> dict_get k d = Some (VStr s) -> short s)
  /\ (scoring_name d "full_name"
      \/ (dict_get "full_name" d = None
          /\ (scoring_name d "first_name" \/ scoring_name d "last_name")))
  /\ (exists x, dict_get "dob" d = Some (VDatetime x)
                \/ exists s, dict_get "dob" d = Some (VStr s) /\ s <> []
                             /\ parse_first s dob_formats = Some x)
  /\ (forall k, In k ["location"; "nationality"; "gender"] ->
                exists s, dict_get k d = Some (VStr s) /\ s <> []).

Section SelfMatch.

Variables (hS : heap) (now now' : datetime) (p p' : loc) (d : dict) (P : list str).
Hypothesis Hp : hS !! p = Some (OSet P).
Hypothesis Hp' : hS !! p' = Some (OSet P).
Hypothesis Hd : carries_all d.

Let dt := normalized_dict now p d.
Let dn := normalized_dict now' p' d.

Local Abbreviation sim := (_calculate_name_similarity sequence_ratio jaro_winkler_similarity).

Lemma self_name_field k :
  In k name_fields ->
  exists x, field_score sim hS k dt dn = inr x
            /\ (x = 0 \/ x = 1) /\ (scoring_name d k -> x = 1).
Proof.
  intros Hk. destruct Hd as ((Hs & _) & Hshort & _).
  assert (Hin : In k string_fields) by (apply in_or_app; left; exact Hk).
  destruct (string_field_cases k Hin) as (Ea & Ed & Ep).
  assert (Hn : is_name_field k = true).
  { unfold is_name_field. apply existsb_exists. exists k. split; [exact Hk|].
    apply String.eqb_refl. }
  unfold field_score, dt, dn. rewrite !get_normalized, Ed, Ep, Hn by exact Ea.
  specialize (Hs k Hin).
  destruct (dict_get k d) as [v|] eqn:Ev; cbn [option_map].
  - destruct (sim_norm_value hS v Hs) as (x & Hx & Hc & H1).
    { intros s Es. subst v. exact (Hshort k s Hin Ev). }
    exists x. split; [exact Hx|]. split; [exact Hc|].
    intros (s & Es & Hne). rewrite Ev in Es. injection Es as ->.
    apply (H1 s eq_refl Hne).
  - exists 0. split; [reflexivity|]. split; [left; reflexivity|].
    intros (s & Hs' & _). rewrite Ev in Hs'. discriminate Hs'.
Qed.

Lemma self_parts_score :
  exists z, parts_score hS dt dn = inr z /\ (1 <? z) = false.
Proof.
  unfold parts_score, dt, dn. rewrite !get_normalized by reflexivity.
  cbn [String.eqb Ascii.eqb Bool.eqb truthy]. rewrite Hp, Hp'.
  destruct (is_nil P); cbn [negb andb]; [exists 0; split; reflexivity|].
  cbn [set_of]. rewrite Hp, Hp'. cbn [ebind].
  eexists. split; [reflexivity|].
  rewrite set_inter_self, Nat.max_id. apply div_self_not_above_one.
Qed.

Lemma max3_of_names f l z :
  (f = 0 \/ f = 1) -> (l = 0 \/ l = 1) -> (f = 1 \/ l = 1) -> (1 <? z) = false ->
  Py.max3 f l z = 1.
Proof.
  intros Hf Hl H1 Hz. unfold Py.max3.
  assert (E : Py.max2 f l = 1).
  { destruct Hf as [-> | ->], Hl as [-> | ->]; try reflexivity.
    destruct H1 as [H | H]; vm_compute in H; discriminate H. }
  rewrite E. apply max2_one_l, Hz.
Qed.

Lemma self_name_score :
  name_score_for sequence_ratio jaro_winkler_similarity hS dt dn = inr 1.
Proof.
  destruct Hd as ((Hs & _) & Hshort & Hname & _).
  unfold name_score_for.
  destruct Hname as [Hfull | (Hnone & Hsome)].
  - destruct (self_name_field "full_name") as (x & Hx & _ & H1); [cbn; tauto|].
    unfold field_score in Hx. destruct Hfull as (s & Es & Hne).
    assert (Et : dict_get "full_name" dt = Some (norm_value (VStr s))).
    { unfold dt. rewrite get_normalized by reflexivity. cbn. rewrite Es. reflexivity. }
    assert (En : dict_get "full_name" dn = Some (norm_value (VStr s))).
    { unfold dn. rewrite get_normalized by reflexivity. cbn. rewrite Es. reflexivity. }
    rewrite Et, En in *. rewrite Hx. f_equal. apply H1. exists s. auto.
  - assert (Et : dict_get "full_name" dt = None).
    { unfold dt. rewrite get_normalized by reflexivity. cbn. rewrite Hnone. reflexivity. }
    assert (En : dict_get "full_name" dn = None).
    { unfold dn. rewrite get_normalized by reflexivity. cbn. rewrite Hnone. reflexivity. }
    rewrite En. unfold split_score.
    destruct (self_name_field "first_name") as (f & Hf & Cf & F1); [cbn; tauto|].
    destruct (self_name_field "last_name") as (l & Hl & Cl & L1); [cbn; tauto|].
    destruct self_parts_score as (z & Hz & Z1).
    rewrite Hf, Hl, Hz. cbn [ebind]. f_equal.
    apply max3_of_names; auto. destruct Hsome; [left | right]; auto.
Qed.

Lemma datetime_eqb_refl x : datetime_eqb x x = true.
Proof. unfold datetime_eqb. rewrite !Z.eqb_refl. reflexivity. Qed.

Lemma self_dob_score :
  field_score (_compare_dates container_eq) hS "dob" dt dn = inr 1.
Proof.
  destruct Hd as (_ & _ & _ & (x & Hx) & _).
  assert (E : option_map norm_dob_value (dict_get "dob" d) = Some (VDatetime x)).
  { destruct Hx as [-> | (s & -> & Hne & Hparse)]; [reflexivity|].
    cbn [option_map norm_dob_value]. destruct s; [contradiction|].
    cbn [is_nil]. rewrite Hparse. reflexivity. }
  unfold field_score, dt, dn. rewrite !get_normalized by reflexivity.
  cbn [String.eqb Ascii.eqb Bool.eqb]. rewrite E.
  unfold _compare_dates, py_eq. rewrite datetime_eqb_refl. reflexivity.
Qed.

Lemma self_string_field k :
  In k ["location"; "nationality"; "gender"] ->
  exists s, s <> [] /\ short s
            /\ dict_get k dt = Some (VStr s) /\ dict_get k dn = Some (VStr s).
Proof.
  intros Hk. destruct Hd as (_ & Hshort & _ & _ & Hstr).
  destruct (Hstr k Hk) as (s & Es & Hne).
  exists s. split; [exact Hne|].
  assert (Hin : In k string_fields).
  { apply in_or_app. right. exact Hk. }
  split; [apply (Hshort k s Hin Es)|].
  unfold dt, dn.
  destruct Hk as [<-|[<-|[<-|[]]]]; rewrite !get_normalized by reflexivity; cbn; auto.
Qed.

Lemma self_location_score :
  field_score (_compare_locations sequence_ratio) hS "location" dt dn = inr 1.
Proof.
  destruct (self_string_field "location") as (s & Hne & Hshort & Et & En); [cbn; tauto|].
  unfold field_score. rewrite Et, En. unfold _compare_locations, _normalize_name.
  destruct s as [|c s]; [contradiction|]. cbn [truthy is_nil negb orb ebind].
  destruct Hlib as [H1 _]. rewrite H1; [reflexivity|].
  pose proof (length_normalize_str (c :: s)). unfold short in Hshort. lia.
Qed.

Lemma self_nationality_score :
  field_score _compare_nationalities hS "nationality" dt dn = inr 1.
Proof.
  destruct (self_string_field "nationality") as (s & Hne & _ & Et & En); [cbn; tauto|].
  unfold field_score. rewrite Et, En. unfold _compare_nationalities, _normalize_name.
  destruct s as [|c s]; [contradiction|]. cbn [truthy is_nil negb orb ebind].
  rewrite str_eqb_refl. reflexivity.
Qed.

Lemma self_gender_score :
  field_score _compare_gender hS "gender" dt dn = inr 1.
Proof.
  destruct (self_string_field "gender") as (s & Hne & _ & Et & En); [cbn; tauto|].
  unfold field_score. rewrite Et, En. unfold _compare_gender.
  destruct s as [|c s]; [contradiction|]. cbn [truthy is_nil negb orb ebind lower_strip].
  rewrite str_eqb_refl. reflexivity.
Qed.

(** The five scores of a record against itself. *)
Lemma self_scores : scores_of hS dt dn = inr (mkscores 1 1 1 1 1).
Proof.
  unfold all_scores.
  rewrite self_name_score, self_dob_score, self_location_score,
    self_nationality_score, self_gender_score.
  reflexivity.
Qed.

End SelfMatch.

Lemma heap_at4 (h : heap) a b c e o t :
  (h ++ a :: b :: c :: e :: o :: t) !! S (S (S (S (length h)))) = Some o.
Proof. apply (lookup_at h (a :: b :: c :: e :: o :: t) 4). Qed.

Lemma carries_present now p d k :
  In k ["dob"; "location"; "nationality"; "gender"] ->
  carries_all d ->
  dict_mem k d && dict_mem k (normalized_dict now p d) = true.
Proof.
  intros Hk (_ & _ & _ & (x & Hx) & Hstr). unfold dict_mem.
  destruct Hk as [<-|Hk].
  - rewrite get_normalized by reflexivity. cbn [String.eqb Ascii.eqb Bool.eqb].
    destruct Hx as [-> | (s & -> & _)]; reflexivity.
  - destruct (Hstr k Hk) as (s & Es & _).
    destruct Hk as [<-|[<-|[<-|[]]]]; rewrite get_normalized by reflexivity;
      cbn; rewrite Es; reflexivity.
Qed.

(** The run of [evaluate_match] on a copy of the record the reference was
    built from. *)
Lemma self_match_run now now' l l' d (h : heap) :
  h !! l = Some (ODict d) -> h !! l' = Some (ODict d) -> carries_all d ->
  let h1 := h ++ [ODict (normalized_dict now (S (length h)) d);
                  OSet (collect_parts (norm_names d))] in
  let s := mkscores 1 1 1 1 1 in
  let r := reasons_for format_2f s true true true in
  new_evaluator now (VRef l) h = Ok (VRef (length h)) h1
  /\ run_match (VRef (length h)) now' (VRef l') h1
     = Ok (VRef (length h1))
          (h1 ++ [ODict (result_dict d (weighted_score s (weights_for true true true true))
                           (S (S (S (length h1)))));
                  ODict (normalized_dict now' (S (S (length h1))) d);
                  OSet (collect_parts (norm_names d));
                  OList (map VStr (fst r)); OList (map VStr (snd r))]).
Proof.
  intros Hl Hl' Hc h1 s r.
  pose proof Hc as (Cok & _).
  assert (R1 : new_evaluator now (VRef l) h = Ok (VRef (length h)) h1).
  { apply run_normalize; [exact Hl | apply candidate_names_ok, Cok]. }
  split; [exact R1|].
  set (dt := normalized_dict now (S (length h)) d).
  assert (Ht1 : h1 !! length h = Some (ODict dt)) by apply heap_at0.
  assert (Hm1 : h1 !! l' = Some (ODict d)) by (apply lookup_base, Hl').
  assert (Tok : normalized_ok h1 dt).
  { apply normalized_dict_ok; [exact Cok|]. unfold is_set, h1. rewrite heap_at1. reflexivity. }
  destruct (evaluate_match_returns (length h) l' dt d now' h1 Ht1 Hm1 Tok Cok)
    as (s' & Hs & Hrun).
  cbv zeta in Hrun.
  assert (Es : s' = s).
  { assert (E : inr s' = (inr s : exn + scores)); [|injection E; auto].
    rewrite <- Hs. unfold scoring_store.
    apply (self_scores _ now now' (S (length h)) (S (S (length h1))) d
             (collect_parts (norm_names d))); [| |exact Hc].
    - apply lookup_base. unfold h1. apply heap_at1.
    - apply heap_at2. }
  subst s'.
  rewrite !present_raw in Hrun by (cbn; tauto).
  unfold dt in Hrun. rewrite !carries_present in Hrun by (cbn; tauto).
  exact Hrun.
Qed.

(** C5, as the code has it.  Let [d] be a record of the expected types whose
    five attributes each score, in the sense of [carries_all]: a full name
    that is not empty once normalized, or no key ['full_name'] and a first or
    a last name that is not empty once normalized; a date of birth that is a
    [datetime] or a non-empty string that parses; a location, a nationality
    and a gender that are non-empty strings; all these strings shorter than
    50 characters.  Let the libraries be as assumed in [libraries_ok]: [ratio]
    gives [1.0] on two equal strings shorter than 200 characters and the
    Jaro-Winkler similarity is never above [1.0].  Then the evaluator built
    from [d] scores a copy of [d] with relevance [1.0000000000000002] (the
    weights, each rounded, sum to that, not to [1.0]), category
    [HIGH_RELEVANCE], and an empty list of mismatch reasons.  A record with
    all five keys whose full name is present and empty is not covered: its
    name scores [0.0]. *)
Theorem self_match_is_high_relevance now now' l l' d (h : heap) :
  h !! l = Some (ODict d) -> h !! l' = Some (ODict d) -> carries_all d ->
  exists tenant_data h1 dres h2 mismatch_reasons,
    new_evaluator now (VRef l) h = Ok tenant_data h1
    /\ run_match tenant_data now' (VRef l') h1 = Ok (VRef (length h1)) h2
    /\ h2 !! length h1 = Some (ODict dres)
    /\ dict_get "relevance_score" dres = Some (VFloat 1.0000000000000002)
    /\ dict_get "match_category" dres = Some (VStr (u "HIGH_RELEVANCE"))
    /\ dict_get "mismatch_reasons" dres = Some (VRef mismatch_reasons)
    /\ h2 !! mismatch_reasons = Some (OList []).
Proof.
  intros Hl Hl' Hc.
  destruct (self_match_run now now' l l' d h Hl Hl' Hc) as [R1 R2]. cbv zeta in R2.
  eexists _, _, _, _, _.
  split; [exact R1|]. split; [exact R2|].
  split; [apply heap_at0|].
  split; [rewrite get_result_relevance; reflexivity|].
  split; [rewrite get_result_category; reflexivity|].
  split; [apply get_result_mismatch|].
  apply heap_at4.
Qed.

End Results.

(** Stand-ins for the format of a score and for the equality of containers,
    for the examples. *)
Definition sample_format (x : float) : str := u "?".
Definition sample_container_eq (h : heap) (a b : loc) : bool := Nat.eqb a b.

(** The field of the dictionary a run returns. *)
Definition result_field {A} (k : string) (o : outcome A) (ref : A -> option loc)
  : option value :=
  match o with
  | Ok r h =>
      match ref r with
      | Some l => match h !! l with
                  | Some (ODict d) => dict_get k d
                  | _ => None
                  end
      | None => None
      end
  | Raise _ _ => None
  end.

Definition as_ref (v : value) : option loc :=
  match v with VRef l => Some l | _ => None end.


(* ------------------------------------------------------------------------- *)
(** ** Examples *)

(** The reference of the test suite, and the same record once normalized. *)
Definition test_record : dict :=
  [ ("first_name", VStr (u "John")); ("last_name", VStr (u "Doe"));
    ("dob", VStr (u "1990-01-01")); ("gender", VStr (u "male"));
    ("nationality", VStr (u "US")); ("location", VStr (u "New York")) ].

Definition test_today : datetime := date 2024 6 1.

(** The partial match of the test suite, given with a native date. *)
Definition test_candidate : dict :=
  [ ("id", VInt 2); ("first_name", VStr (u "Johnny")); ("last_name", VStr (u "Doe"));
    ("dob", VDatetime (date 1991 1 1)); ("gender", VStr (u "male"));
    ("nationality", VStr (u "UK")); ("location", VStr (u "London"));
    ("risk_type", VStr (u "medium")) ].

(** A store with the normalized reference, its name parts, and the
    candidate. *)
Definition test_store : heap :=
  [ ODict (normalized_dict test_today 1 test_record);
    OSet [u "john"; u "doe"];
    ODict test_candidate ].

Ltac each_field :=
  let k := fresh "k" in
  let Hk := fresh "Hk" in
  intros k Hk; cbn in Hk;
  repeat (destruct Hk as [<- | Hk]; [first [exact I | reflexivity] |]);
  destruct Hk.

Lemma test_record_ok : candidate_ok test_record.
Proof. split; [each_field | reflexivity]. Qed.

Lemma test_candidate_ok : candidate_ok test_candidate.
Proof. split; [each_field | reflexivity]. Qed.

Lemma test_reference_ok : normalized_ok test_store (normalized_dict test_today 1 test_record).
Proof. apply normalized_dict_ok; [apply test_record_ok | reflexivity]. Qed.

Lemma exact_ratio_ok : libraries_ok exact_ratio exact_ratio.
Proof.
  split.
  - intros s _. unfold exact_ratio. rewrite str_eqb_refl. reflexivity.
  - intros a b. unfold exact_ratio. destruct (str_eqb a b); reflexivity.
Qed.

Lemma test_record_carries_all : carries_all test_record.
Proof.
  split; [apply test_record_ok|]. split; [|split; [|split]].
  - intros k s Hk. cbn in Hk.
    repeat (destruct Hk as [<- | Hk];
            [cbn; intros E; try discriminate E; injection E as <-; unfold short; cbn; lia|]).
    destruct Hk.
  - right. split; [reflexivity|]. left. exists (u "John"). split; [reflexivity | discriminate].
  - exists (date 1990 1 1). right. exists (u "1990-01-01").
    split; [reflexivity|]. split; [discriminate | reflexivity].
  - intros k Hk. cbn in Hk.
    repeat (destruct Hk as [<- | Hk]; [eexists; split; [reflexivity | discriminate]|]).
    destruct Hk.
Qed.

Lemma relevance_is_renormalized_sum_witness :
  exists h',
    evaluate_match exact_ratio exact_ratio sample_format sample_container_eq
      (VRef 0) test_today (VRef 2) test_store = Ok (VRef 3) h'.
Proof.
  destruct (relevance_is_renormalized_sum exact_ratio exact_ratio sample_format
              sample_container_eq 0 2 _ _ test_today test_store eq_refl eq_refl
              test_reference_ok test_candidate_ok)
    as (s & dres & h' & _ & Hrun & _).
  exists h'. exact Hrun.
Defined.


Lemma self_match_is_high_relevance_witness :
  exists tenant_data h1 dres h2,
    new_evaluator test_today (VRef 0) [ODict test_record; ODict test_record]
    = Ok tenant_data h1
    /\ evaluate_match exact_ratio exact_ratio sample_format sample_container_eq
         tenant_data test_today (VRef 1) h1 = Ok (VRef (length h1)) h2
    /\ h2 !! length h1 = Some (ODict dres)
    /\ dict_get "relevance_score" dres = Some (VFloat 1.0000000000000002%float)
    /\ dict_get "match_category" dres = Some (VStr (u "HIGH_RELEVANCE")).
Proof.
  destruct (self_match_is_high_relevance exact_ratio exact_ratio sample_format
              sample_container_eq exact_ratio_ok test_today test_today 0 1 test_record
              [ODict test_record; ODict test_record] eq_refl eq_refl
              test_record_carries_all)
    as (t & h1 & dres & h2 & mm & R1 & R2 & Hres & Hrel & Hcat & _).
  exists t, h1, dres, h2. auto.
Defined.

(** C5 as stated fails on the record of the test suite: whatever libraries
    meet the assumptions, the relevance of the record against itself is
    [1.0000000000000002], which is not [1.0]. *)
Lemma self_match_is_not_exactly_one :
  (forall sequence_ratio jaro_winkler_similarity format_2f container_eq now,
     libraries_ok sequence_ratio jaro_winkler_similarity ->
     result_field "relevance_score"
       (bind (new_evaluator now (VRef 0)) (fun tenant_data =>
          evaluate_match sequence_ratio jaro_winkler_similarity format_2f container_eq
            tenant_data now (VRef 1))
          [ODict test_record; ODict test_record])
       as_ref
     = Some (VFloat 1.0000000000000002%float))
  /\ (1.0000000000000002 =? 1)%float = false.
Proof.
  split; [|reflexivity]. intros sr jw f2 ceq now Hlib.
  destruct (self_match_run sr jw f2 ceq Hlib now now 0 1 test_record
              [ODict test_record; ODict test_record] eq_refl eq_refl
              test_record_carries_all) as [R1 R2].
  cbv zeta in R2. rewrite (bind_ok _ _ _ _ _ R1), R2.
  unfold result_field, as_ref. rewrite heap_at0. apply get_result_relevance.
Qed.

(** ** Normalization: what it accepts, and what a second pass does *)

Section Normalized.

Variable container_eq : heap -> loc -> loc -> bool.

Lemma name_field_cases k :
  In k name_fields ->
  String.eqb k "age" = false /\ String.eqb k "dob" = false
  /\ String.eqb k "name_parts" = false /\ is_name_field k = true.
Proof. cbn. intros [<-|[<-|[<-|[<-|[]]]]]; repeat split. Qed.

Lemma get_normalized_name k now p d :
  In k name_fields ->
  dict_get k (normalized_dict now p d) = option_map norm_value (dict_get k d).
Proof.
  intros Hk. destruct (name_field_cases k Hk) as (Ea & Ed & Ep & Hn).
  rewrite get_normalized, Ed, Ep, Hn by exact Ea. reflexivity.
Qed.

Lemma get_normalized_dob now p d :
  dict_get "dob" (normalized_dict now p d) = option_map norm_dob_value (dict_get "dob" d).
Proof. rewrite get_normalized by reflexivity. reflexivity. Qed.

Lemma names_ok_normalized now p d : names_ok d -> names_ok (normalized_dict now p d).
Proof.
  intros H k Hk. rewrite (get_normalized_name k now p d Hk).
  specialize (H k Hk). unfold field_ok in *.
  destruct (dict_get k d); cbn; [apply norm_value_ok, H | exact I].
Qed.

(** C3, as the code has it.  On a record whose name fields, when present,
    hold a string or a scalar that is false, [_normalize_tenant_data]
    returns: a name field that holds a non-empty string holds its normalized
    form afterwards; a date of birth given as a non-empty string becomes the
    date it parses to, or [None]; a missing one stays missing; and the
    comparison of dates scores [0.0] against [None], as every comparison does
    for a missing key. *)
Theorem normalize_fails_soft_amended now l d (h : heap) :
  h !! l = Some (ODict d) -> names_ok d ->
  exists d' parts,
    _normalize_tenant_data now (VRef l) h
    = Ok (VRef (length h)) (h ++ [ODict d'; OSet parts])
    /\ (forall k s, In k name_fields -> dict_get k d = Some (VStr s) -> s <> [] ->
                    dict_get k d' = Some (VStr (normalize_str s)))
    /\ (forall s, dict_get "dob" d = Some (VStr s) -> s <> [] ->
                  dict_get "dob" d' = Some (to_value (parse_first s dob_formats)))
    /\ (dict_get "dob" d = None -> dict_get "dob" d' = None)
    /\ (forall h' v, _compare_dates container_eq h' VNone v = inr 0%float
                     /\ _compare_dates container_eq h' v VNone = inr 0%float)
    /\ (forall cmp h' k dt, dict_get k d' = None ->
                            field_score cmp h' k dt d' = inr 0%float).
Proof.
  intros Hl Hok. eexists _, _. split; [apply (run_normalize now l d h Hl Hok)|].
  split; [|split; [|split; [|split]]].
  - intros k s Hk Es Hne. rewrite (get_normalized_name k _ _ _ Hk), Es.
    destruct s; [contradiction | reflexivity].
  - intros s Es Hne. rewrite get_normalized_dob, Es.
    destruct s; [contradiction | reflexivity].
  - intros Es. rewrite get_normalized_dob, Es. reflexivity.
  - intros h' v. split; [reflexivity | destruct v; reflexivity].
  - intros cmp h' k dt Ek. unfold field_score. rewrite Ek. reflexivity.
Qed.

(** A record whose name fields hold Latin-1 strings. *)
Definition names_latin1 (d : dict) : Prop :=
  forall k s, In k name_fields -> dict_get k d = Some (VStr s) ->
              forallb is_latin1 s = true.

Lemma norm_value_idempotent v :
  (forall s, v = VStr s -> forallb is_latin1 s = true) ->
  norm_value (norm_value v) = norm_value v.
Proof.
  intros H. destruct v; try reflexivity. cbn [norm_value].
  destruct s as [|c s]; [reflexivity|]. cbn [is_nil norm_value].
  destruct (normalize_str (c :: s)) as [|c' n] eqn:E; [reflexivity|].
  cbn [is_nil]. rewrite <- E, normalize_str_idempotent; [reflexivity|].
  apply (H _ eq_refl).
Qed.

Lemma norm_dob_value_idempotent v : norm_dob_value (norm_dob_value v) = norm_dob_value v.
Proof.
  destruct v as [| | | |s| |]; try reflexivity.
  destruct s as [|c s]; [reflexivity|]. cbn [norm_dob_value is_nil].
  destruct (parse_first (c :: s) dob_formats); reflexivity.
Qed.

Lemma option_map_idempotent (f : value -> value) o :
  (forall v, o = Some v -> f (f v) = f v) ->
  option_map f (option_map f o) = option_map f o.
Proof. destruct o; cbn; [intros H; rewrite H; reflexivity | reflexivity]. Qed.

Lemma renormalized_name k now now' p p' d :
  In k name_fields -> names_latin1 d ->
  dict_get k (normalized_dict now' p' (normalized_dict now p d))
  = dict_get k (normalized_dict now p d).
Proof.
  intros Hk Hl. rewrite !(get_normalized_name k) by exact Hk.
  apply option_map_idempotent. intros v Ev. apply norm_value_idempotent.
  intros s ->. apply (Hl k s Hk Ev).
Qed.

Lemma field_parts_renormalized k now p d :
  In k name_fields -> names_latin1 d ->
  field_parts (norm_names (normalized_dict now p d)) k = field_parts (norm_names d) k.
Proof.
  intros Hk Hl. destruct (name_field_cases k Hk) as (_ & _ & _ & Hn).
  unfold field_parts. rewrite !get_norm_names, Hn, (get_normalized_name k) by exact Hk.
  rewrite option_map_idempotent; [reflexivity|].
  intros v Ev. apply norm_value_idempotent. intros s ->. apply (Hl k s Hk Ev).
Qed.

Lemma collect_parts_renormalized now p d :
  names_latin1 d ->
  collect_parts (norm_names (normalized_dict now p d)) = collect_parts (norm_names d).
Proof.
  intros Hl. unfold collect_parts, name_fields. cbn [fold_left].
  rewrite !field_parts_renormalized by (try exact Hl; cbn; tauto). reflexivity.
Qed.

(** C8, as the code has it.  On Latin-1 strings, normalizing a normalized
    name changes nothing; and normalizing the normalized form of a record
    whose name fields hold such strings gives a record with the same name
    fields, the same date of birth, and a new set with the same name
    parts. *)
Theorem normalization_idempotent_latin1 now now' l d (h : heap) :
  h !! l = Some (ODict d) -> names_ok d -> names_latin1 d ->
  (forall k s, In k name_fields -> dict_get k d = Some (VStr s) ->
               normalize_str (normalize_str s) = normalize_str s)
  /\ exists d1 parts1 d2 parts2,
       _normalize_tenant_data now (VRef l) h
       = Ok (VRef (length h)) (h ++ [ODict d1; OSet parts1])
       /\ _normalize_tenant_data now' (VRef (length h)) (h ++ [ODict d1; OSet parts1])
          = Ok (VRef (S (S (length h))))
               (h ++ [ODict d1; OSet parts1; ODict d2; OSet parts2])
       /\ (forall k, In k name_fields -> dict_get k d2 = dict_get k d1)
       /\ dict_get "dob" d2 = dict_get "dob" d1
       /\ dict_get "name_parts" d1 = Some (VRef (S (length h)))
       /\ dict_get "name_parts" d2 = Some (VRef (S (S (S (length h)))))
       /\ parts2 = parts1.
Proof.
  intros Hl Hok Hlat. split.
  { intros k s Hk Es. apply normalize_str_idempotent, (Hlat k s Hk Es). }
  set (d1 := normalized_dict now (S (length h)) d).
  set (parts1 := collect_parts (norm_names d)).
  pose proof (run_normalize now l d h Hl Hok) as R1. fold d1 parts1 in R1.
  pose proof (run_normalize now' (length h) d1 (h ++ [ODict d1; OSet parts1])
                (heap_at0 h _ _) (names_ok_normalized _ _ _ Hok)) as R2.
  rewrite length_app, <- app_assoc in R2. cbn [length app] in R2.
  replace (length h + 2) with (S (S (length h))) in R2 by lia.
  eexists d1, parts1, _, _.
  split; [exact R1|]. split; [exact R2|].
  split; [|split; [|split; [|split]]].
  - intros k Hk. unfold d1. apply renormalized_name; assumption.
  - unfold d1. rewrite !get_normalized_dob.
    apply option_map_idempotent. intros v _. apply norm_dob_value_idempotent.
  - unfold d1. rewrite get_normalized by reflexivity. reflexivity.
  - rewrite get_normalized by reflexivity. reflexivity.
  - unfold d1, parts1. apply collect_parts_renormalized, Hlat.
Qed.

End Normalized.

Lemma test_record_names_ok : names_ok test_record.
Proof. apply candidate_names_ok, test_record_ok. Qed.

Lemma normalize_fails_soft_amended_witness :
  exists d' parts,
    _normalize_tenant_data test_today (VRef 0) [ODict test_record]
    = Ok (VRef 1) [ODict test_record; ODict d'; OSet parts]
    /\ dict_get "first_name" d' = Some (VStr (u "john")).
Proof.
  destruct (normalize_fails_soft_amended sample_container_eq test_today 0 test_record
              [ODict test_record] eq_refl test_record_names_ok)
    as (d' & parts & Hrun & Hname & _).
  exists d', parts. split; [exact Hrun|].
  apply (Hname "first_name" (u "John")); [cbn; tauto | reflexivity | discriminate].
Defined.

Lemma test_record_latin1 : names_latin1 test_record.
Proof.
  intros k s Hk. cbn in Hk.
  repeat (destruct Hk as [<- | Hk];
          [cbn; intros E; try discriminate E; injection E as <-; reflexivity|]).
  destruct Hk.
Qed.

Lemma normalization_idempotent_latin1_witness :
  exists d1 parts1 d2 parts2,
    _normalize_tenant_data test_today (VRef 0) [ODict test_record]
    = Ok (VRef 1) [ODict test_record; ODict d1; OSet parts1]
    /\ _normalize_tenant_data test_today (VRef 1) [ODict test_record; ODict d1; OSet parts1]
       = Ok (VRef 3) [ODict test_record; ODict d1; OSet parts1; ODict d2; OSet parts2]
    /\ dict_get "first_name" d2 = dict_get "first_name" d1
    /\ parts2 = parts1.
Proof.
  destruct (normalization_idempotent_latin1 test_today test_today 0 test_record
              [ODict test_record] eq_refl test_record_names_ok test_record_latin1)
    as (_ & d1 & parts1 & d2 & parts2 & R1 & R2 & Hn & _ & _ & _ & Hp).
  exists d1, parts1, d2, parts2.
  split; [exact R1|]. split; [exact R2|]. split; [|exact Hp].
  apply Hn. cbn; tauto.
Defined.

(** C1 as stated fails.  A date of birth that does not parse is not treated
    as absent: the key stays, with [None], and the weight of the date of
    birth stays in the total, here [0.2 / 0.7].  And the weights, each
    rounded, do not always sum to [1]: with the five attributes present the
    sum is [1.0000000000000002]. *)
Lemma unparseable_dob_keeps_its_weight :
  (fun now =>
     match
       bind (new_evaluator now (VRef 0)) (fun tenant_data =>
       bind (_normalize_tenant_data now (VRef 1)) (fun normalized_match =>
       bind (getitem normalized_match "dob") (fun dob =>
       bind (effective_weights tenant_data normalized_match) (fun w =>
       ret (dob, w)))))
         [ODict [("full_name", VStr (u "John Doe")); ("dob", VStr (u "1990-01-01"))];
          ODict [("full_name", VStr (u "John Doe")); ("dob", VStr (u "not a date"))]]
     with
     | Ok r _ => Some r
     | Raise _ _ => None
     end)
  = (fun _ => Some (VNone, mkweights 0.7142857142857143 0.28571428571428575 0 0 0))
  /\ weight_sum (weights_for true true true true) = 1.0000000000000002%float.
Proof. split; reflexivity. Qed.

(* ------------------------------------------------------------------------- *)
(** * Further properties of the evaluator *)

(* ------------------------------------------------------------------------- *)
(** ** The comparators at their edges *)

Section Comparators.

Local Open Scope float_scope.

Lemma first_met_fallback (score : float) :
  first_met score (sorted_desc MATCH_CATEGORIES) = None <-> (0 <=? score) = false.
Proof.
  rewrite sorted_categories. cbn [first_met min_score].
  pose proof (fun c => leb_trans c 0 score) as T.
  split.
  - destruct (0.8 <=? score); [discriminate|].
    destruct (0.6 <=? score); [discriminate|].
    destruct (0.4 <=? score); [discriminate|].
    destruct (0 <=? score); [discriminate | reflexivity].
  - intros H0.
    assert (N : forall c, (0 <=? c) = true -> (c <=? score) = false).
    { intros c Hc. destruct (c <=? score) eqn:E; [|reflexivity].
      rewrite (leb_trans 0 c score Hc E) in H0. discriminate H0. }
    rewrite !N by reflexivity. reflexivity.
Qed.

(** X1: [_get_match_category] on any float, also outside of [0,1]: the result
    carries the score, one of the four categories and the label of that
    category; a score that is not at least [0.4] (a negative one and NaN
    included) is [NOT_RELEVANT]; a score of [0.8] or more (above [1.0] and
    infinite included) is [HIGH_RELEVANCE]; and the fallback after the loop is
    taken exactly by the scores that are not at least [0.0]. *)
Theorem get_match_category_any_score (score : float) :
  let mc := _get_match_category score in
  mc_score mc = score
  /\ In (mc_category mc) (map cat_name MATCH_CATEGORIES)
  /\ mc_label mc = label_of (mc_category mc)
  /\ ((0.4 <=? score) = false -> mc_category mc = "NOT_RELEVANT")
  /\ ((0.8 <=? score) = true -> mc_category mc = "HIGH_RELEVANCE")
  /\ (first_met score (sorted_desc MATCH_CATEGORIES) = None <-> (0 <=? score) = false).
Proof.
  cbv zeta. rewrite get_match_category_cases.
  split; [|split; [|split; [|split; [|split]]]].
  - destruct (0.8 <=? score), (0.6 <=? score), (0.4 <=? score); reflexivity.
  - destruct (0.8 <=? score), (0.6 <=? score), (0.4 <=? score); cbn; tauto.
  - destruct (0.8 <=? score), (0.6 <=? score), (0.4 <=? score); reflexivity.
  - intros H4.
    assert (N : forall c, (0.4 <=? c) = true -> (c <=? score) = false).
    { intros c Hc. destruct (c <=? score) eqn:E; [|reflexivity].
      rewrite (leb_trans 0.4 c score Hc E) in H4. discriminate H4. }
    rewrite !N by reflexivity. reflexivity.
  - intros ->. reflexivity.
  - apply first_met_fallback.
Qed.

Lemma char_eqb_sym c d : char_eqb c d = char_eqb d c.
Proof. destruct c, d; cbn; try reflexivity. apply Ascii.eqb_sym. Qed.

Lemma str_eqb_sym s : forall t, str_eqb s t = str_eqb t s.
Proof.
  induction s as [|c s IH]; intros [|d t]; cbn; try reflexivity.
  rewrite char_eqb_sym, IH. reflexivity.
Qed.

(** X2: [_compare_gender] does not depend on the order of its arguments,
    whatever they are (the same score, or the same exception); a non-empty
    string matches itself; and two strings score [0.0] or [1.0]. *)
Theorem compare_gender_symmetric (h : heap) (a b : value) :
  _compare_gender h a b = _compare_gender h b a
  /\ (forall s, s <> [] -> _compare_gender h (VStr s) (VStr s) = inr 1)
  /\ (forall s t, _compare_gender h (VStr s) (VStr t) = inr 0
                  \/ _compare_gender h (VStr s) (VStr t) = inr 1).
Proof.
  split; [|split].
  - unfold _compare_gender. rewrite (orb_comm (negb (truthy h a))).
    destruct (negb (truthy h b) || negb (truthy h a)); [reflexivity|].
    destruct a, b; cbn [lower_strip ebind]; try reflexivity.
    rewrite str_eqb_sym. reflexivity.
  - intros s Hs. unfold _compare_gender. destruct s as [|c s]; [contradiction|].
    cbn [truthy is_nil negb orb lower_strip ebind]. rewrite str_eqb_refl. reflexivity.
  - intros s t. unfold _compare_gender.
    destruct (negb (truthy h (VStr s)) || negb (truthy h (VStr t))); [left; reflexivity|].
    cbn [lower_strip ebind].
    destruct (str_eqb _ _); [right | left]; reflexivity.
Qed.

(** X3: [_compare_nationalities] does not depend on the order of its
    arguments, whatever they are; a non-empty string matches itself; and a
    Latin-1 string matches its own normalized form, when that is not empty:
    case and punctuation do not count. *)
Theorem compare_nationalities_symmetric (h : heap) (a b : value) :
  _compare_nationalities h a b = _compare_nationalities h b a
  /\ (forall s, s <> [] -> _compare_nationalities h (VStr s) (VStr s) = inr 1)
  /\ (forall s, forallb is_latin1 s = true -> normalize_str s <> [] ->
                _compare_nationalities h (VStr s) (VStr (normalize_str s)) = inr 1).
Proof.
  split; [|split].
  - unfold _compare_nationalities. rewrite (orb_comm (negb (truthy h a))).
    destruct (negb (truthy h b) || negb (truthy h a)) eqn:E; [reflexivity|].
    apply orb_false_elim in E. destruct E as [Eb Ea].
    apply negb_false_iff in Ea, Eb.
    unfold _normalize_name. rewrite Ea, Eb. cbn [negb].
    destruct a, b; cbn [ebind]; try reflexivity.
    rewrite str_eqb_sym. reflexivity.
  - intros s Hs. unfold _compare_nationalities, _normalize_name.
    destruct s as [|c s]; [contradiction|].
    cbn [truthy is_nil negb orb ebind]. rewrite str_eqb_refl. reflexivity.
  - intros s Hl Hn. unfold _compare_nationalities, _normalize_name.
    destruct s as [|c s]; [contradiction Hn; reflexivity|].
    destruct (normalize_str (c :: s)) as [|c' n] eqn:E; [contradiction Hn; reflexivity|].
    cbn [truthy is_nil negb orb ebind]. rewrite <- E.
    rewrite (normalize_str_idempotent _ Hl), str_eqb_refl. reflexivity.
Qed.

End Comparators.

Lemma compare_nationalities_symmetric_witness :
  _compare_nationalities [] (VStr (u "U.S.")) (VStr (u "us")) = inr 1%float.
Proof.
  destruct (compare_nationalities_symmetric [] VNone VNone) as (_ & _ & H).
  apply (H (u "U.S.")); [reflexivity | discriminate].
Defined.

(* ------------------------------------------------------------------------- *)
(** ** Dates: rendering and parsing *)

Section DateRoundTrip.

Local Open Scope Z_scope.

Lemma digit_val_digit_char n : 0 <= n < 10 -> digit_val (digit_char n) = n.
Proof.
  intros H. rewrite <- (Z2Nat.id n) by lia.
  assert (C : (Z.to_nat n < 10)%nat) by lia.
  revert C. generalize (Z.to_nat n). intros k C.
  do 10 (destruct k as [|k]; [reflexivity|]). lia.
Qed.

Lemma year_digits y :
  0 <= y <= 9999 ->
  1000 * (y / 1000 mod 10) + 100 * (y / 100 mod 10) + 10 * (y / 10 mod 10) + y mod 10 = y.
Proof. intros H. Z.to_euclidean_division_equations. lia. Qed.

Lemma alts_year y r : 0 <= y <= 9999 -> alts DY (pad4 y ++ r) = [(y, r)].
Proof.
  intros H. unfold pad4. cbn [alts app].
  rewrite !digit_char_is_digit by (apply Z.mod_pos_bound; lia).
  cbn [andb]. rewrite !digit_val_digit_char by (apply Z.mod_pos_bound; lia).
  rewrite year_digits by exact H. reflexivity.
Qed.

Lemma alts_month m r : 1 <= m <= 12 -> hd_error (alts Dm (pad2 m ++ r)) = Some (m, r).
Proof.
  intros H. rewrite <- (Z2Nat.id m) by lia.
  assert (C : (0 < Z.to_nat m < 13)%nat) by lia.
  revert C. generalize (Z.to_nat m). intros k C.
  destruct k as [|k]; [lia|].
  do 12 (destruct k as [|k]; [reflexivity|]). lia.
Qed.

Lemma alts_day d r : 1 <= d <= 31 -> hd_error (alts Dd (pad2 d ++ r)) = Some (d, r).
Proof.
  intros H. rewrite <- (Z2Nat.id d) by lia.
  assert (C : (0 < Z.to_nat d < 32)%nat) by lia.
  revert C. generalize (Z.to_nat d). intros k C.
  destruct k as [|k]; [lia|].
  do 31 (destruct k as [|k]; [reflexivity|]). lia.
Qed.

(** The first alternative is taken when the rest of the format matches after
    it. *)
Lemma re_match_head it fmt f s v r res :
  hd_error (alts it s) = Some (v, r) ->
  re_match fmt (put it v f) r = Some res ->
  re_match (it :: fmt) f s = Some res.
Proof.
  intros Ha Hr. cbn [re_match].
  destruct (alts it s) as [|[v' r'] cands]; [discriminate Ha|].
  injection Ha as -> ->. rewrite Hr. reflexivity.
Qed.

Lemma days_in_month_le y m : days_in_month y m <= 31.
Proof.
  unfold days_in_month.
  repeat match goal with |- context [if ?b then _ else _] => destruct b end; lia.
Qed.

(** X4: what [strftime('%Y-%m-%d')] renders, for a date of a year from 1000
    on, the formats of the normalizer parse back to the same year, month and
    day, at midnight: a rendered date of birth can be normalized again. *)
Theorem rendered_dob_parses_back (x : datetime) :
  valid_date x -> 1000 <= year x ->
  parse_first (strftime_iso x) dob_formats = Some (date (year x) (month x) (day x)).
Proof.
  intros (Hy & Hm & Hd) H1000.
  pose proof (days_in_month_le (year x) (month x)) as H31.
  assert (E : re_match [DY; Lit "-"; Dm; Lit "-"; Dd] (1900, 1, 1) (strftime_iso x)
              = Some ((year x, month x, day x), [])).
  { unfold strftime_iso. rewrite (render_year_four _ H1000).
    eapply re_match_head; [rewrite alts_year by lia; reflexivity|].
    eapply re_match_head; [reflexivity|].
    eapply re_match_head; [apply alts_month; lia|].
    eapply re_match_head; [reflexivity|].
    eapply re_match_head; [rewrite <- (app_nil_r (pad2 (day x))); apply alts_day; lia|].
    reflexivity. }
  unfold dob_formats, parse_first, strptime. rewrite E.
  replace (1 <=? year x) with true by lia.
  replace (1 <=? day x) with true by lia.
  replace (day x <=? days_in_month (year x) (month x)) with true by lia.
  reflexivity.
Qed.

Lemma alts_year_slash a b r : alts DY (a :: b :: L1 "/" :: r) = [].
Proof.
  destruct r as [|d r]; [reflexivity|]. cbn [alts].
  destruct (is_digit a), (is_digit b); reflexivity.
Qed.

Lemma year_first_fails_on_slash a b r f :
  re_match [DY; Lit "-"; Dm; Lit "-"; Dd] f (a :: b :: L1 "/" :: r) = None.
Proof. cbn [re_match]. rewrite alts_year_slash. reflexivity. Qed.

(** The day-first format does not match a string whose second number is
    above 12. *)
Lemma day_first_fails m d r f :
  1 <= m <= 12 -> 12 < d <= 31 ->
  re_match [Dd; Lit "/"; Dm; Lit "/"; DY] f (pad2 m ++ u "/" ++ pad2 d ++ u "/" ++ r) = None.
Proof.
  intros Hm Hd.
  rewrite <- (Z2Nat.id m), <- (Z2Nat.id d) by lia.
  assert (Cm : (0 < Z.to_nat m < 13)%nat) by lia.
  assert (Cd : (12 < Z.to_nat d < 32)%nat) by lia.
  revert Cm Cd. generalize (Z.to_nat m) (Z.to_nat d). intros i j Ci Cj.
  destruct i as [|i]; [lia|].
  do 12 (destruct i as [|i];
         [do 13 (destruct j as [|j]; [lia|]);
          do 19 (destruct j as [|j]; [reflexivity|]); lia|]).
  lia.
Qed.

(** X5: dates written with slashes.  [DD/MM/YYYY] with a day the month has
    is read day first, also when both numbers could be a month: [03/04/1990]
    is the third of April.  [MM/DD/YYYY] is read month first only when the
    day is above 12, so that the day-first reading fails. *)
Theorem slash_dates_read_day_first (y m d : Z) :
  valid_date (date y m d) -> 1000 <= y ->
  parse_first (pad2 d ++ u "/" ++ pad2 m ++ u "/" ++ pad4 y) dob_formats
  = Some (date y m d)
  /\ (12 < d ->
      parse_first (pad2 m ++ u "/" ++ pad2 d ++ u "/" ++ pad4 y) dob_formats
      = Some (date y m d)).
Proof.
  intros (Hy & Hm & Hd) H1000. cbn [year month day date] in *.
  pose proof (days_in_month_le y m) as H31.
  assert (V : (1 <=? y) && (1 <=? d) && (d <=? days_in_month y m) = true).
  { replace (1 <=? y) with true by lia. replace (1 <=? d) with true by lia.
    replace (d <=? days_in_month y m) with true by lia. reflexivity. }
  split.
  - assert (E : re_match [Dd; Lit "/"; Dm; Lit "/"; DY] (1900, 1, 1)
                  (pad2 d ++ u "/" ++ pad2 m ++ u "/" ++ pad4 y)
                = Some ((y, m, d), [])).
    { eapply re_match_head; [apply alts_day; lia|].
      eapply re_match_head; [reflexivity|].
      eapply re_match_head; [apply alts_month; lia|].
      eapply re_match_head; [reflexivity|].
      eapply re_match_head;
        [rewrite <- (app_nil_r (pad4 y)), alts_year by lia; reflexivity|].
      reflexivity. }
    unfold dob_formats. cbn [parse_first]. unfold strptime at 1.
    change (pad2 d ++ u "/" ++ pad2 m ++ u "/" ++ pad4 y)
      with (digit_char (d / 10 mod 10) :: digit_char (d mod 10) :: L1 "/"
            :: pad2 m ++ u "/" ++ pad4 y) at 1.
    rewrite year_first_fails_on_slash.
    unfold strptime at 1. rewrite E, V. reflexivity.
  - intros H12.
    assert (E : re_match [Dm; Lit "/"; Dd; Lit "/"; DY] (1900, 1, 1)
                  (pad2 m ++ u "/" ++ pad2 d ++ u "/" ++ pad4 y)
                = Some ((y, m, d), [])).
    { eapply re_match_head; [apply alts_month; lia|].
      eapply re_match_head; [reflexivity|].
      eapply re_match_head; [apply alts_day; lia|].
      eapply re_match_head; [reflexivity|].
      eapply re_match_head;
        [rewrite <- (app_nil_r (pad4 y)), alts_year by lia; reflexivity|].
      reflexivity. }
    unfold dob_formats. cbn [parse_first]. unfold strptime at 1.
    change (pad2 m ++ u "/" ++ pad2 d ++ u "/" ++ pad4 y)
      with (digit_char (m / 10 mod 10) :: digit_char (m mod 10) :: L1 "/"
            :: pad2 d ++ u "/" ++ pad4 y) at 1.
    rewrite year_first_fails_on_slash.
    unfold strptime at 1. rewrite day_first_fails by lia.
    unfold strptime at 1. rewrite E, V. reflexivity.
Qed.

End DateRoundTrip.

Lemma rendered_dob_parses_back_witness :
  parse_first (strftime_iso (mkdatetime 1980 5 15 13 30 0 0)) dob_formats
  = Some (date 1980 5 15).
Proof.
  apply (rendered_dob_parses_back (mkdatetime 1980 5 15 13 30 0 0)).
  - unfold valid_date. cbn. lia.
  - cbn. lia.
Defined.

Lemma slash_dates_read_day_first_witness :
  parse_first (u "03/04/1990") dob_formats = Some (date 1990 4 3)
  /\ parse_first (u "04/15/1990") dob_formats = Some (date 1990 4 15).
Proof.
  split.
  - apply (slash_dates_read_day_first 1990 4 3); [unfold valid_date; cbn; lia | lia].
  - apply (slash_dates_read_day_first 1990 4 15); [unfold valid_date; cbn; lia | lia | lia].
Defined.

(* ------------------------------------------------------------------------- *)
(** ** The normalized record *)

Section NormalizedRecord.

(** *** The age *)

(** The date [y1-m1-d1] is not after [y2-m2-d2]. *)
Definition on_or_before (y1 m1 d1 y2 m2 d2 : Z) : Prop :=
  (y1 < y2 \/ (y1 = y2 /\ (m1 < m2 \/ (m1 = m2 /\ d1 <= d2))))%Z.

Lemma age_on_whole_years today dob :
  let a := age_on today dob in
  on_or_before (year dob + a) (month dob) (day dob) (year today) (month today) (day today)
  /\ ~ on_or_before (year dob + a + 1) (month dob) (day dob)
         (year today) (month today) (day today).
Proof.
  cbv zeta. unfold age_on, on_or_before.
  destruct (month today <? month dob)%Z eqn:E1;
    destruct (month today =? month dob)%Z eqn:E2;
    destruct (day today <? day dob)%Z eqn:E3; cbn [orb andb]; lia.
Qed.

Lemma get_age_normalized now p d :
  dict_get "age" (normalized_dict now p d)
  = match dict_get "dob" (normalized_dict now p d) with
    | Some (VDatetime x) => Some (VInt (age_on now x))
    | _ => dict_get "age" d
    end.
Proof.
  unfold normalized_dict.
  set (d0 := norm_dob (dict_set "name_parts" (VRef p) (norm_names d))).
  assert (E0 : dict_get "age" d0 = dict_get "age" d).
  { unfold d0. rewrite get_norm_dob. cbn [String.eqb Ascii.eqb Bool.eqb].
    rewrite dict_get_set. cbn [String.eqb Ascii.eqb Bool.eqb].
    rewrite get_norm_names. reflexivity. }
  unfold add_age.
  destruct (dict_get "dob" d0) as [v|] eqn:Ed; [|rewrite Ed; exact E0].
  destruct v; try (rewrite Ed; exact E0).
  rewrite dict_get_set_eq, dict_get_set_ne, Ed by reflexivity. reflexivity.
Qed.

(** X6: the age that normalization derives.  When the date of birth of the
    normalized record is a [datetime] (given as one, or parsed from a
    string), ['age'] is the number of whole years from it to today: the
    birthday of that age is not after today, the next one is.  Otherwise
    (no date of birth, [None], a string that does not parse) ['age'] is what
    the input held, or is absent. *)
Theorem normalize_derives_age now l d (h : heap) :
  h !! l = Some (ODict d) -> names_ok d ->
  exists d' parts,
    _normalize_tenant_data now (VRef l) h
    = Ok (VRef (length h)) (h ++ [ODict d'; OSet parts])
    /\ (forall x, dict_get "dob" d' = Some (VDatetime x) ->
          exists a, dict_get "age" d' = Some (VInt a)
            /\ on_or_before (year x + a) (month x) (day x)
                 (year now) (month now) (day now)
            /\ ~ on_or_before (year x + a + 1) (month x) (day x)
                   (year now) (month now) (day now))
    /\ ((forall x, dict_get "dob" d' <> Some (VDatetime x)) ->
        dict_get "age" d' = dict_get "age" d).
Proof.
  intros Hl Hok. eexists _, _. split; [apply (run_normalize now l d h Hl Hok)|].
  split.
  - intros x Ex. exists (age_on now x). rewrite get_age_normalized, Ex.
    split; [reflexivity | apply age_on_whole_years].
  - intros Hno. rewrite get_age_normalized.
    destruct (dict_get "dob" (normalized_dict now (S (length h)) d)) as [v|] eqn:E;
      [|reflexivity].
    destruct v; try reflexivity. destruct (Hno d0 eq_refl).
Qed.

(** *** The name parts *)

Lemma char_eqb_eq c d : char_eqb c d = true <-> c = d.
Proof.
  destruct c, d; cbn; try (split; [discriminate | discriminate]); try tauto.
  rewrite Ascii.eqb_eq. split; [intros ->; reflexivity | intros [= ->]; reflexivity].
Qed.

Lemma str_eqb_eq s : forall t, str_eqb s t = true <-> s = t.
Proof.
  induction s as [|c s IH]; intros [|d t]; cbn; try (split; [discriminate | discriminate]);
    [tauto|].
  rewrite andb_true_iff, char_eqb_eq, IH.
  split; [intros [-> ->]; reflexivity | intros [= -> ->]; auto].
Qed.

Lemma str_mem_in x s : str_mem x s = true <-> In x s.
Proof.
  unfold str_mem. rewrite existsb_exists. split.
  - intros (y & Hy & E). apply str_eqb_eq in E. subst y. exact Hy.
  - intros H. exists x. split; [exact H | apply str_eqb_eq; reflexivity].
Qed.

Lemma in_set_add x s y : In x (set_add s y) <-> In x s \/ x = y.
Proof.
  unfold set_add. destruct (str_mem y s) eqn:E.
  - apply str_mem_in in E. split; [tauto | intros [H | ->]; assumption].
  - rewrite in_app_iff. cbn. split; [intros [H | [-> | []]]; auto | intros [H | ->]; auto].
Qed.

Lemma in_set_union x parts : forall s, In x (set_union s parts) <-> In x s \/ In x parts.
Proof.
  unfold set_union. induction parts as [|y parts IH]; intros s; cbn [fold_left].
  - cbn. tauto.
  - rewrite IH, in_set_add. cbn. split; [intros [[H | ->] | H] | intros [H | [-> | H]]]; auto.
Qed.

Lemma nodup_set_add s y : List.NoDup s -> List.NoDup (set_add s y).
Proof.
  intros H. unfold set_add. destruct (str_mem y s) eqn:E; [exact H|].
  apply List.NoDup_app; [exact H | apply List.NoDup_cons; [intros [] | apply List.NoDup_nil] |].
  intros x Hx [-> | []]. apply str_mem_in in Hx. rewrite Hx in E. discriminate E.
Qed.

Lemma nodup_set_union parts : forall s, List.NoDup s -> List.NoDup (set_union s parts).
Proof.
  unfold set_union. induction parts as [|y parts IH]; intros s H; cbn [fold_left];
    [exact H|]. apply IH, nodup_set_add, H.
Qed.

Lemma in_collect_parts x d :
  In x (collect_parts d) <-> exists k, In k name_fields /\ In x (field_parts d k).
Proof.
  unfold collect_parts, name_fields. cbn [fold_left].
  rewrite !in_set_union. cbn [In]. split.
  - intros [[[[[] | H] | H] | H] | H]; eauto 10.
  - intros (k & [<- | [<- | [<- | [<- | []]]]] & H); tauto.
Qed.

Lemma nodup_collect_parts d : List.NoDup (collect_parts d).
Proof.
  unfold collect_parts, name_fields. cbn [fold_left].
  repeat apply nodup_set_union. apply List.NoDup_nil.
Qed.

(** A token of [s.split()]: not empty, and without whitespace. *)
Lemma split_from_tokens s : forall cur x,
  forallb (fun c => negb (isspace c)) cur = true ->
  In x (split_from cur s) -> x <> [] /\ forallb (fun c => negb (isspace c)) x = true.
Proof.
  assert (R : forall cur, cur <> [] ->
                forallb (fun c => negb (isspace c)) cur = true ->
                rev cur <> [] /\ forallb (fun c => negb (isspace c)) (rev cur) = true).
  { intros cur Hne Hc. split.
    - intros E. apply Hne. rewrite <- (rev_involutive cur), E. reflexivity.
    - rewrite forallb_forall in *. intros c Hin. apply Hc, in_rev, Hin. }
  induction s as [|c s IH]; intros cur x Hc; cbn [split_from].
  - destruct cur as [|c0 cur]; [intros []|]. intros [<- | []].
    apply R; [discriminate | exact Hc].
  - destruct (isspace c) eqn:Ec.
    + destruct cur as [|c0 cur]; [apply IH; reflexivity|].
      intros [<- | Hin]; [apply R; [discriminate | exact Hc] | apply (IH [] x); auto].
    + apply IH. cbn [forallb]. rewrite Ec, Hc. reflexivity.
Qed.

(** X7: the set ['name_parts'] of a normalized record.  It holds exactly the
    whitespace-separated tokens of the normalized forms of the name fields
    that hold a non-empty string; each of its elements is non-empty and has
    no whitespace; none is repeated.  It is a new object, whatever the input
    held under ['name_parts']. *)
Theorem normalize_collects_name_parts now l d (h : heap) :
  h !! l = Some (ODict d) -> names_ok d ->
  exists d' parts,
    _normalize_tenant_data now (VRef l) h
    = Ok (VRef (length h)) (h ++ [ODict d'; OSet parts])
    /\ dict_get "name_parts" d' = Some (VRef (S (length h)))
    /\ (forall x, In x parts <->
          exists k s, In k name_fields /\ dict_get k d = Some (VStr s)
                      /\ In x (split (normalize_str s)))
    /\ (forall x, In x parts ->
          x <> [] /\ forallb (fun c => negb (isspace c)) x = true)
    /\ List.NoDup parts.
Proof.
  intros Hl Hok. eexists _, _. split; [apply (run_normalize now l d h Hl Hok)|].
  assert (F : forall k x, In k name_fields ->
            (In x (field_parts (norm_names d) k) <->
             exists s, dict_get k d = Some (VStr s) /\ In x (split (normalize_str s)))).
  { intros k x Hk. unfold field_parts. rewrite get_norm_names.
    replace (is_name_field k) with true
      by (symmetry; cbn in Hk; destruct Hk as [<-|[<-|[<-|[<-|[]]]]]; reflexivity).
    destruct (dict_get k d) as [v|]; cbn [option_map].
    - destruct v; cbn [norm_value];
        try (split; [intros [] | intros (s0 & [=] & _)]).
      destruct s as [|c s]; cbn [is_nil].
      + split; [intros [] | intros (s0 & [= <-] & H); exact H].
      + split; [intros H; eauto | intros (s0 & [= <-] & H); exact H].
    - split; [intros [] | intros (s0 & [=] & _)]. }
  split; [rewrite get_normalized by reflexivity; reflexivity|].
  split; [|split].
  - intros x. rewrite in_collect_parts. split.
    + intros (k & Hk & Hx). apply (F k x Hk) in Hx. destruct Hx as (s & Es & Hs). eauto.
    + intros (k & s & Hk & Es & Hs). exists k. split; [exact Hk|].
      apply (F k x Hk). eauto.
  - intros x Hx. apply in_collect_parts in Hx. destruct Hx as (k & Hk & Hx).
    unfold field_parts in Hx.
    destruct (dict_get k (norm_names d)) as [v|]; [|destruct Hx].
    destruct v; try destruct Hx. apply (split_from_tokens s [] x eq_refl Hx).
  - apply nodup_collect_parts.
Qed.

(** X8: normalization touches the name fields, ['name_parts'], ['dob'] and
    ['age'] only: every other key of the input is in the normalized record
    with the value it had, and a key the input has not is not added. *)
Theorem normalize_keeps_other_keys now l d (h : heap) :
  h !! l = Some (ODict d) -> names_ok d ->
  exists d' parts,
    _normalize_tenant_data now (VRef l) h
    = Ok (VRef (length h)) (h ++ [ODict d'; OSet parts])
    /\ forall k, ~ In k (name_fields ++ ["name_parts"; "dob"; "age"]) ->
                 dict_get k d' = dict_get k d.
Proof.
  intros Hl Hok. eexists _, _. split; [apply (run_normalize now l d h Hl Hok)|].
  intros k Hk.
  assert (N : forall k', In k' (name_fields ++ ["name_parts"; "dob"; "age"]) ->
                         String.eqb k k' = false).
  { intros k' Hk'. apply String.eqb_neq. intros ->. exact (Hk Hk'). }
  rewrite get_normalized by (apply N; cbn; tauto).
  rewrite !N by (cbn; tauto).
  unfold is_name_field, name_fields. cbn [existsb].
  rewrite !N by (cbn; tauto). reflexivity.
Qed.

(** X9: [_normalize_tenant_data], and so the constructor of the evaluator,
    leaves every object of the store it is called in as it was, whatever it
    is given and whether it returns or raises; what it returns is a new
    object. *)
Theorem normalize_does_not_mutate now data (h : heap) :
  let o := _normalize_tenant_data now data h in
  (forall l ob, h !! l = Some ob -> final o !! l = Some ob)
  /\ (forall r h', o = Ok r h' -> exists l, r = VRef l /\ length h <= l)
  /\ new_evaluator now data h = o.
Proof.
  cbv zeta. pose proof (normalize_frame h now data h (keeps_refl h)) as W.
  unfold wp in W. split; [|split; [|reflexivity]].
  - intros l ob Hl.
    destruct (_normalize_tenant_data now data h) as [r h'|e h']; cbn [final].
    + destruct W as [K _]. apply (keeps_lookup h); assumption.
    + apply (keeps_lookup h); assumption.
  - intros r h' E. rewrite E in W. destruct W as [_ H]. exact H.
Qed.

End NormalizedRecord.

Lemma normalize_derives_age_witness :
  exists d' parts,
    _normalize_tenant_data test_today (VRef 0) [ODict test_record]
    = Ok (VRef 1) [ODict test_record; ODict d'; OSet parts]
    /\ dict_get "dob" d' = Some (VDatetime (date 1990 1 1))
    /\ dict_get "age" d' = Some (VInt 34).
Proof.
  destruct (normalize_derives_age test_today 0 test_record [ODict test_record]
              eq_refl test_record_names_ok) as (d' & parts & Hrun & Hage & _).
  exists d', parts. split; [exact Hrun|].
  assert (E : dict_get "dob" d' = Some (VDatetime (date 1990 1 1))).
  { pose proof (run_normalize test_today 0 test_record [ODict test_record]
                  eq_refl test_record_names_ok) as R.
    rewrite R in Hrun. injection Hrun as <- _. reflexivity. }
  split; [exact E|].
  destruct (Hage _ E) as (a & Ea & H1 & H2). rewrite Ea. do 2 f_equal.
  unfold on_or_before in H1, H2. cbn in H1, H2. lia.
Defined.

Lemma normalize_collects_name_parts_witness :
  exists d' parts,
    _normalize_tenant_data test_today (VRef 0) [ODict test_record]
    = Ok (VRef 1) [ODict test_record; ODict d'; OSet parts]
    /\ In (u "john") parts /\ In (u "doe") parts.
Proof.
  destruct (normalize_collects_name_parts test_today 0 test_record [ODict test_record]
              eq_refl test_record_names_ok) as (d' & parts & Hrun & _ & Hin & _).
  exists d', parts. split; [exact Hrun|]. split; apply Hin.
  - exists "first_name", (u "John").
    split; [cbn; tauto | split; [reflexivity | left; reflexivity]].
  - exists "last_name", (u "Doe").
    split; [cbn; tauto | split; [reflexivity | left; reflexivity]].
Defined.

Lemma normalize_keeps_other_keys_witness :
  exists d' parts,
    _normalize_tenant_data test_today (VRef 0) [ODict test_candidate]
    = Ok (VRef 1) [ODict test_candidate; ODict d'; OSet parts]
    /\ dict_get "id" d' = Some (VInt 2)
    /\ dict_get "risk_type" d' = Some (VStr (u "medium")).
Proof.
  destruct (normalize_keeps_other_keys test_today 0 test_candidate [ODict test_candidate]
              eq_refl (candidate_names_ok _ test_candidate_ok)) as (d' & parts & Hrun & Hk).
  exists d', parts. split; [exact Hrun|].
  split; rewrite Hk; try reflexivity; cbn; intuition discriminate.
Defined.

(* ------------------------------------------------------------------------- *)
(** ** The floats of two equal lengths *)

Section FloatOfLength.

Local Open Scope Z_scope.


Lemma digits2_pos_bound p : Z.pos p < 2 ^ Z.pos (digits2_pos p).
Proof.
  induction p as [p IH|p IH|]; cbn [digits2_pos].
  - rewrite Pos2Z.inj_succ, Z.pow_succ_r by lia. lia.
  - rewrite Pos2Z.inj_succ, Z.pow_succ_r by lia. lia.
  - reflexivity.
Qed.



Local Open Scope float_scope.







End FloatOfLength.

(* ------------------------------------------------------------------------- *)
(** ** A name contained in another *)

Section Containment.

Variable sequence_ratio : str -> str -> float.
Variable jaro_winkler_similarity : str -> str -> float.

Local Open Scope float_scope.






End Containment.



(* ------------------------------------------------------------------------- *)
(** ** What the result of [evaluate_match] holds *)

Section ResultFields.

Variable sequence_ratio : str -> str -> float.
Variable jaro_winkler_similarity : str -> str -> float.
Variable format_2f : float -> str.
Variable container_eq : heap -> loc -> loc -> bool.

Local Abbreviation run_match :=
  (evaluate_match sequence_ratio jaro_winkler_similarity format_2f container_eq).

(** The keys [evaluate_match] writes. *)
Definition evaluation_keys : list string :=
  ["relevance_score"; "match_category"; "match_label"; "match_reasons";
   "mismatch_reasons"].

Lemma get_result_other k dm rel p :
  ~ In k ("dob" :: evaluation_keys) ->
  dict_get k (result_dict dm rel p) = dict_get k dm.
Proof.
  intros Hk.
  assert (N : forall k', In k' ("dob" :: evaluation_keys) -> String.eqb k k' = false).
  { intros k' Hk'. apply String.eqb_neq. intros ->. exact (Hk Hk'). }
  unfold result_dict. rewrite get_render_dob by (apply N; cbn; tauto).
  rewrite !dict_get_set, !N by (cbn; tauto). reflexivity.
Qed.

Lemma get_result_label dm rel p :
  dict_get "match_label" (result_dict dm rel p)
  = Some (VStr (u (mc_label (_get_match_category rel)))).
Proof.
  unfold result_dict. rewrite get_render_dob by reflexivity.
  rewrite !dict_get_set. reflexivity.
Qed.

Lemma get_result_match dm rel p :
  dict_get "match_reasons" (result_dict dm rel p) = Some (VRef p).
Proof.
  unfold result_dict. rewrite get_render_dob by reflexivity.
  rewrite !dict_get_set. reflexivity.
Qed.

(** X11: the result of [evaluate_match] is a new dictionary that holds the
    candidate's own keys with the values the candidate has (the names as they
    were supplied, not normalized; no ['name_parts'] or ['age'] unless the
    candidate had one), but for ['dob'], and the five keys of the evaluation,
    which replace what the candidate held under them. *)
Theorem evaluate_match_keeps_candidate_fields lt lm dt dm now (h : heap) :
  h !! lt = Some (ODict dt) -> h !! lm = Some (ODict dm) ->
  normalized_ok h dt -> candidate_ok dm ->
  exists dres h',
    run_match (VRef lt) now (VRef lm) h = Ok (VRef (length h)) h'
    /\ h' !! length h = Some (ODict dres)
    /\ h' !! lm = Some (ODict dm)
    /\ (forall k, ~ In k ("dob" :: evaluation_keys) -> dict_get k dres = dict_get k dm)
    /\ (forall k, In k evaluation_keys -> dict_mem k dres = true)
    /\ (dict_mem "dob" dres = dict_mem "dob" dm).
Proof.
  intros Ht Hm Tok Mok.
  destruct (evaluate_match_returns sequence_ratio jaro_winkler_similarity format_2f
              container_eq lt lm dt dm now h Ht Hm Tok Mok) as (s & Hs & Hrun).
  cbv zeta in Hrun.
  eexists _, _. split; [exact Hrun|]. split; [apply heap_at0|].
  split; [apply lookup_base, Hm|].
  split; [intros k Hk; apply get_result_other, Hk|]. split.
  - intros k Hk. unfold dict_mem. cbn in Hk.
    destruct Hk as [<-|[<-|[<-|[<-|[<-|[]]]]]].
    + rewrite get_result_relevance. reflexivity.
    + rewrite get_result_category. reflexivity.
    + rewrite get_result_label. reflexivity.
    + rewrite get_result_match. reflexivity.
    + rewrite get_result_mismatch. reflexivity.
  - unfold dict_mem. rewrite get_result_dob. destruct (dict_get "dob" dm); reflexivity.
Qed.

(** *** The reasons *)

Local Open Scope float_scope.

(** The reason each attribute gives: to the matches, to the mismatches, or to
    neither. *)
Definition name_match (s : scores) : list str :=
  if 0.8 <? name_score s then [with_score format_2f "Name is a strong match" (name_score s)]
  else if 0.5 <? name_score s
  then [with_score format_2f "Name is a partial match" (name_score s)]
  else [].

Definition name_mismatch (s : scores) : list str :=
  if (0.8 <? name_score s) || (0.5 <? name_score s) then []
  else [with_score format_2f "Name is not a good match" (name_score s)].

Definition dob_match (s : scores) : list str :=
  if dob_score s =? 1 then [u "Date of birth matches exactly"]
  else if 0 <? dob_score s then [u "Date of birth partially matches"] else [].

Definition dob_mismatch (both : bool) (s : scores) : list str :=
  if (dob_score s =? 1) || (0 <? dob_score s) || negb both then []
  else [u "Date of birth does not match"].

Definition location_match (s : scores) : list str :=
  if 0.8 <? location_score s
  then [with_score format_2f "Location is a strong match" (location_score s)]
  else if 0.5 <? location_score s
  then [with_score format_2f "Location is a partial match" (location_score s)]
  else [].

Definition exact_match (x : float) (text : string) : list str :=
  if x =? 1 then [u text] else [].

Definition exact_mismatch (both : bool) (x : float) (text : string) : list str :=
  if (x =? 1) || negb both then [] else [u text].

Lemma name_reasons_split s m q :
  name_reasons format_2f s (m, q) = (m ++ name_match s, q ++ name_mismatch s).
Proof.
  unfold name_reasons, name_match, name_mismatch.
  destruct (0.8 <? name_score s), (0.5 <? name_score s);
    cbn [orb]; rewrite ?app_nil_r; reflexivity.
Qed.

Lemma dob_reasons_split both s m q :
  dob_reasons_for both s (m, q) = (m ++ dob_match s, q ++ dob_mismatch both s).
Proof.
  unfold dob_reasons_for, dob_match, dob_mismatch.
  destruct (dob_score s =? 1), (0 <? dob_score s), both;
    cbn [orb negb]; rewrite ?app_nil_r; reflexivity.
Qed.

Lemma location_reasons_split s m q :
  location_reasons format_2f s (m, q) = (m ++ location_match s, q).
Proof.
  unfold location_reasons, location_match.
  destruct (0.8 <? location_score s), (0.5 <? location_score s);
    rewrite ?app_nil_r; reflexivity.
Qed.

Lemma exact_reasons_split both x a b m q :
  exact_reasons_for both x a b (m, q) = (m ++ exact_match x a, q ++ exact_mismatch both x b).
Proof.
  unfold exact_reasons_for, exact_match, exact_mismatch.
  destruct (x =? 1), both; cbn [orb negb]; rewrite ?app_nil_r; reflexivity.
Qed.

Lemma reasons_for_by_attribute s pd pn pg :
  reasons_for format_2f s pd pn pg
  = (name_match s ++ dob_match s ++ location_match s
     ++ exact_match (nationality_score s) "Nationality matches exactly"
     ++ exact_match (gender_score s) "Gender matches",
     name_mismatch s ++ dob_mismatch pd s
     ++ exact_mismatch pn (nationality_score s) "Nationality does not match"
     ++ exact_mismatch pg (gender_score s) "Gender does not match").
Proof.
  unfold reasons_for.
  rewrite name_reasons_split, dob_reasons_split, location_reasons_split,
    !exact_reasons_split.
  cbn [app]. rewrite <- !app_assoc. reflexivity.
Qed.

(** X12: the two lists of reasons in the result of [evaluate_match].  Each
    attribute gives at most one reason, in the order name, date of birth,
    location, nationality, gender; the name always gives one.  A mismatch is
    reported for the date of birth, the nationality or the gender only when
    both records have the key; the location is never reported as a
    mismatch. *)
Theorem evaluate_match_reasons lt lm dt dm now (h : heap) :
  h !! lt = Some (ODict dt) -> h !! lm = Some (ODict dm) ->
  normalized_ok h dt -> candidate_ok dm ->
  exists s dres h' lr lq,
    run_match (VRef lt) now (VRef lm) h = Ok (VRef (length h)) h'
    /\ h' !! length h = Some (ODict dres)
    /\ dict_get "match_reasons" dres = Some (VRef lr)
    /\ dict_get "mismatch_reasons" dres = Some (VRef lq)
    /\ h' !! lr
       = Some (OList (map VStr
            (name_match s ++ dob_match s ++ location_match s
             ++ exact_match (nationality_score s) "Nationality matches exactly"
             ++ exact_match (gender_score s) "Gender matches")))
    /\ h' !! lq
       = Some (OList (map VStr
            (name_mismatch s
             ++ dob_mismatch (dict_mem "dob" dm && dict_mem "dob" dt) s
             ++ exact_mismatch (dict_mem "nationality" dm && dict_mem "nationality" dt)
                  (nationality_score s) "Nationality does not match"
             ++ exact_mismatch (dict_mem "gender" dm && dict_mem "gender" dt)
                  (gender_score s) "Gender does not match")))
    /\ (length (name_match s) + length (name_mismatch s) = 1)%nat.
Proof.
  intros Ht Hm Tok Mok.
  destruct (evaluate_match_returns sequence_ratio jaro_winkler_similarity format_2f
              container_eq lt lm dt dm now h Ht Hm Tok Mok) as (s & Hs & Hrun).
  cbv zeta in Hrun.
  rewrite reasons_for_by_attribute in Hrun. cbn [fst snd] in Hrun.
  rewrite !present_raw in Hrun by (cbn; tauto).
  exists s. eexists _, _, _, _.
  split; [exact Hrun|]. split; [apply heap_at0|].
  split; [apply get_result_match|]. split; [apply get_result_mismatch|].
  split; [|split].
  - exact (lookup_at h _ 3).
  - exact (lookup_at h _ 4).
  - unfold name_match, name_mismatch.
    destruct (0.8 <? name_score s), (0.5 <? name_score s); reflexivity.
Qed.

End ResultFields.

Lemma evaluate_match_keeps_candidate_fields_witness :
  result_field "id"
    (evaluate_match exact_ratio exact_ratio sample_format sample_container_eq
       (VRef 0) test_today (VRef 2) test_store) as_ref
  = Some (VInt 2)
  /\ result_field "first_name"
       (evaluate_match exact_ratio exact_ratio sample_format sample_container_eq
          (VRef 0) test_today (VRef 2) test_store) as_ref
     = Some (VStr (u "Johnny")).
Proof.
  destruct (evaluate_match_keeps_candidate_fields exact_ratio exact_ratio sample_format
              sample_container_eq 0 2 _ _ test_today test_store eq_refl eq_refl
              test_reference_ok test_candidate_ok)
    as (dres & h' & Hrun & Hres & _ & Hk & _).
  unfold result_field, as_ref. rewrite Hrun, Hres.
  split; rewrite Hk; try reflexivity; cbn; intuition discriminate.
Defined.

Lemma evaluate_match_reasons_witness :
  exists h' lr lq xs ys,
    evaluate_match exact_ratio exact_ratio sample_format sample_container_eq
      (VRef 0) test_today (VRef 2) test_store = Ok (VRef 3) h'
    /\ h' !! lr = Some (OList (map VStr xs))
    /\ h' !! lq = Some (OList (map VStr ys))
    /\ 1 <= length xs + length ys.
Proof.
  destruct (evaluate_match_reasons exact_ratio exact_ratio sample_format
              sample_container_eq 0 2 _ _ test_today test_store eq_refl eq_refl
              test_reference_ok test_candidate_ok)
    as (s & dres & h' & lr & lq & Hrun & _ & _ & _ & Hr & Hq & Hone).
  eexists h', lr, lq, _, _.
  split; [exact Hrun|]. split; [exact Hr|]. split; [exact Hq|].
  rewrite !length_app. lia.
Defined.

(** *** A candidate without any of the scored keys *)

Section Unscored.

Variable sequence_ratio : str -> str -> float.
Variable jaro_winkler_similarity : str -> str -> float.
Variable format_2f : float -> str.
Variable container_eq : heap -> loc -> loc -> bool.

Local Abbreviation run_match :=
  (evaluate_match sequence_ratio jaro_winkler_similarity format_2f container_eq).

(** The keys the scores are computed from. *)
Definition scored_keys : list string :=
  name_fields ++ ["dob"; "location"; "nationality"; "gender"].

Lemma unscored_names_ok dm :
  (forall k, In k scored_keys -> dict_get k dm = None) -> names_ok dm.
Proof.
  intros H k Hk. rewrite (H k); [exact I|]. apply in_or_app. left; exact Hk.
Qed.

Lemma unscored_normalized k now p dm :
  (forall k, In k scored_keys -> dict_get k dm = None) ->
  In k scored_keys -> dict_get k (normalized_dict now p dm) = None.
Proof.
  intros H Hk. pose proof (H k Hk) as E.
  cbn in Hk.
  destruct Hk as [<-|[<-|[<-|[<-|[<-|[<-|[<-|[<-|[]]]]]]]]];
    rewrite get_normalized by reflexivity; cbn; rewrite E; reflexivity.
Qed.

Lemma unscored_parts dm :
  (forall k, In k scored_keys -> dict_get k dm = None) ->
  collect_parts (norm_names dm) = [].
Proof.
  intros H.
  assert (F : forall k, In k name_fields -> field_parts (norm_names dm) k = []).
  { intros k Hk. unfold field_parts. rewrite get_norm_names.
    rewrite (H k) by (apply in_or_app; left; exact Hk).
    destruct (is_name_field k); reflexivity. }
  unfold collect_parts, name_fields. cbn [fold_left].
  rewrite !F by (cbn; tauto). reflexivity.
Qed.

Lemma unscored_scores (h : heap) dt now dm t :
  (forall k, In k scored_keys -> dict_get k dm = None) ->
  let p := S (S (length h)) in
  let dn := normalized_dict now p dm in
  let h1 := h ++ ODict dm :: ODict dn :: OSet [] :: t in
  all_scores sequence_ratio jaro_winkler_similarity container_eq h1 dt dn
  = inr (mkscores 0 0 0 0 0).
Proof.
  intros H p dn h1.
  assert (N : forall k, In k scored_keys -> dict_get k dn = None).
  { intros k Hk. apply unscored_normalized; assumption. }
  unfold all_scores, name_score_for, split_score, field_score, parts_score.
  rewrite (N "full_name"), (N "first_name"), (N "last_name"), (N "dob"), (N "location"),
    (N "nationality"), (N "gender") by (cbn; tauto).
  assert (P : dict_get "name_parts" dn = Some (VRef p)).
  { unfold dn. rewrite get_normalized by reflexivity. reflexivity. }
  rewrite P. cbn [ebind].
  assert (T : truthy h1 (VRef p) = false).
  { cbn [truthy]. unfold h1, p. rewrite heap_at2. reflexivity. }
  destruct (dict_get "name_parts" dt) as [v|]; [|reflexivity].
  rewrite T, andb_false_r. reflexivity.
Qed.

Lemma unscored_weights dt dn :
  (forall k, In k ["dob"; "location"; "nationality"; "gender"] -> dict_get k dn = None) ->
  weights_for (present "dob" dt dn) (present "location" dt dn)
    (present "nationality" dt dn) (present "gender" dt dn)
  = weights_for false false false false
  /\ present "dob" dt dn = false /\ present "nationality" dt dn = false
  /\ present "gender" dt dn = false.
Proof.
  intros N. unfold present, dict_mem.
  rewrite (N "dob"), (N "location"), (N "nationality"), (N "gender") by (cbn; tauto).
  repeat split.
Qed.

Lemma run_unscored lt lm dt dm now (h : heap) :
  h !! lt = Some (ODict dt) -> h !! lm = Some (ODict dm) ->
  (forall k, In k scored_keys -> dict_get k dm = None) ->
  run_match (VRef lt) now (VRef lm) h
  = Ok (VRef (length h))
       (h ++ [ODict (result_dict dm 0 (S (S (S (length h)))));
              ODict (normalized_dict now (S (S (length h))) dm);
              OSet [];
              OList [];
              OList [VStr (with_score format_2f "Name is not a good match" 0)]]).
Proof.
  intros Ht Hm Hno.
  rewrite (run_evaluate_match sequence_ratio jaro_winkler_similarity format_2f
             container_eq lt lm dt dm now h Ht Hm (unscored_names_ok dm Hno)).
  cbv zeta. rewrite (unscored_parts dm Hno), (unscored_scores h dt now dm [] Hno).
  destruct (unscored_weights dt (normalized_dict now (S (S (length h))) dm))
    as (-> & -> & -> & ->).
  { intros k Hk. apply unscored_normalized; [exact Hno|].
    apply in_or_app. right; exact Hk. }
  reflexivity.
Qed.

(** X13: a candidate that has none of the keys the scores are computed from
    (no name field, no date of birth, location, nationality or gender), with
    any reference identity: [evaluate_match] returns, the relevance score is
    [0.0], the category [NOT_RELEVANT], there is no reason for a match and
    one for a mismatch, that of the name. *)
Theorem evaluate_match_without_scored_keys lt lm dt dm now (h : heap) :
  h !! lt = Some (ODict dt) -> h !! lm = Some (ODict dm) ->
  (forall k, In k scored_keys -> dict_get k dm = None) ->
  exists dres h' lr lq,
    run_match (VRef lt) now (VRef lm) h = Ok (VRef (length h)) h'
    /\ h' !! length h = Some (ODict dres)
    /\ dict_get "relevance_score" dres = Some (VFloat 0)
    /\ dict_get "match_category" dres = Some (VStr (u "NOT_RELEVANT"))
    /\ dict_get "match_label" dres = Some (VStr (u "Not Relevant"))
    /\ dict_get "match_reasons" dres = Some (VRef lr)
    /\ h' !! lr = Some (OList [])
    /\ dict_get "mismatch_reasons" dres = Some (VRef lq)
    /\ h' !! lq
       = Some (OList [VStr (with_score format_2f "Name is not a good match" 0)]).
Proof.
  intros Ht Hm Hno.
  assert (C : _get_match_category 0 = mkmc "NOT_RELEVANT" "Not Relevant" 0)
    by (vm_compute; reflexivity).
  eexists _, _, _, _. split; [exact (run_unscored lt lm dt dm now h Ht Hm Hno)|].
  split; [apply heap_at0|].
  split; [apply get_result_relevance|].
  split; [rewrite get_result_category, C; reflexivity|].
  split; [rewrite get_result_label, C; reflexivity|].
  split; [apply get_result_match|].
  split; [exact (lookup_at h _ 3)|].
  split; [apply get_result_mismatch|].
  exact (lookup_at h _ 4).
Qed.

End Unscored.

Lemma evaluate_match_without_scored_keys_witness :
  result_field "match_category"
    (evaluate_match exact_ratio exact_ratio sample_format sample_container_eq
       (VRef 0) test_today (VRef 1) [ODict test_record; ODict [("id", VInt 7)]]) as_ref
  = Some (VStr (u "NOT_RELEVANT")).
Proof.
  destruct (evaluate_match_without_scored_keys exact_ratio exact_ratio sample_format
              sample_container_eq 0 1 test_record [("id", VInt 7)] test_today
              [ODict test_record; ODict [("id", VInt 7)]] eq_refl eq_refl)
    as (dres & h' & lr & lq & Hrun & Hres & _ & Hcat & _).
  { intros k Hk. cbn in Hk.
    repeat (destruct Hk as [<- | Hk]; [reflexivity|]). destruct Hk. }
  unfold result_field, as_ref. rewrite Hrun, Hres. exact Hcat.
Defined.

(* ------------------------------------------------------------------------- *)
(** ** The pipeline *)

Section Pipeline.

Local Open Scope py_scope.

Variable sequence_ratio : str -> str -> float.
Variable jaro_winkler_similarity : str -> str -> float.
Variable format_2f : float -> str.
Variable container_eq : heap -> loc -> loc -> bool.

Local Abbreviation run_match :=
  (evaluate_match sequence_ratio jaro_winkler_similarity format_2f container_eq).
Local Abbreviation run_matches :=
  (evaluate_matches sequence_ratio jaro_winkler_similarity format_2f container_eq).

(** [[m for m in evaluated_matches if m['match_category'] == category]] *)
Fixpoint select_category (category : string) (evaluated_matches : list value)
  : M (list value) :=
  match evaluated_matches with
  | [] => ret []
  | m :: rest =>
      c ← getitem m "match_category";
      keep ← reading (fun h => inr (py_eq container_eq h c (VStr (u category))));
      selected ← select_category category rest;
      ret (if keep then m :: selected else selected)
  end.

(** The dictionary comprehension over [MATCH_CATEGORIES], in the order of
    the table. *)
Fixpoint count_categories (categories : list category_info)
    (evaluated_matches : list value) (counts : dict) : M dict :=
  match categories with
  | [] => ret counts
  | info :: rest =>
      selected ← select_category (cat_name info) evaluated_matches;
      count_categories rest evaluated_matches
        (dict_set (cat_name info) (VInt (Z.of_nat (length selected))) counts)
  end.

(** [evaluate_pipeline_data]; [tenant_data] is [self.tenant_data].  The list
    of the evaluated matches and the dictionary of the counts become objects
    of the store. *)
Definition evaluate_pipeline_data (tenant_data : value) (now : datetime)
    (pipeline_data : value) : M value :=
  matches ← extract_matches_from_pipeline pipeline_data;
  evaluated ← run_matches tenant_data now matches;
  evaluated_matches ← alloc (OList evaluated);
  counts ← count_categories MATCH_CATEGORIES evaluated [];
  match_counts ← alloc (ODict counts);
  alloc (ODict [("original_pipeline_data", pipeline_data);
                ("evaluated_matches", evaluated_matches);
                ("match_counts", match_counts)]).

(** [evaluate_tenant] *)
Definition evaluate_tenant (tenant_data : value) (now : datetime) (pipeline_data : value)
  : M value :=
  evaluate_pipeline_data tenant_data now pipeline_data.


(** *** Nothing in the store is modified *)

Lemma reads_dict_get_method v k : reads (dict_get_method v k).
Proof.
  intros h. unfold dict_get_method. destruct v; try reflexivity.
  destruct (h !! l) as [[| |]|]; reflexivity.
Qed.

Lemma reads_iterate x : reads (iterate x).
Proof.
  intros h. unfold iterate. destruct x; try reflexivity.
  destruct (h !! l) as [[| |]|]; reflexivity.
Qed.

Lemma reads_shape_of x : reads (shape_of x).
Proof.
  intros h. unfold shape_of. destruct x; try reflexivity.
  destruct (h !! l) as [[| |]|]; reflexivity.
Qed.

Lemma reads_extend_from_step matches step : reads (extend_from_step matches step).
Proof.
  unfold extend_from_step.
  apply reads_bind; [apply reads_dict_get_method | intros t].
  apply reads_if; [|apply reads_ret].
  apply reads_bind; [apply reads_contains | intros c].
  apply reads_if; [|apply reads_ret].
  apply reads_bind; [apply reads_getitem | intros r].
  apply reads_bind; [apply reads_iterate | intros items]. apply reads_ret.
Qed.

Lemma reads_extend_from_steps steps : forall matches, reads (extend_from_steps matches steps).
Proof.
  induction steps as [|step steps IH]; intros matches; cbn [extend_from_steps].
  - apply reads_ret.
  - apply reads_bind; [apply reads_extend_from_step | intros m; apply IH].
Qed.

Lemma reads_extract_matches pipeline_data :
  reads (extract_matches_from_pipeline pipeline_data).
Proof.
  unfold extract_matches_from_pipeline.
  apply reads_bind; [apply reads_contains | intros c].
  apply reads_if; [|apply reads_ret].
  apply reads_bind; [apply reads_getitem | intros steps].
  apply reads_bind; [apply reads_shape_of | intros sh].
  destruct sh; [apply reads_extend_from_steps | apply reads_extend_from_step | apply reads_ret].
Qed.

Lemma reads_select_category category evaluated :
  reads (select_category category evaluated).
Proof.
  induction evaluated as [|m rest IH]; cbn [select_category]; [apply reads_ret|].
  apply reads_bind; [apply reads_getitem | intros c].
  apply reads_bind; [apply reads_reading | intros keep].
  apply reads_bind; [exact IH | intros selected; apply reads_ret].
Qed.

Lemma reads_count_categories categories evaluated :
  forall counts, reads (count_categories categories evaluated counts).
Proof.
  induction categories as [|info rest IH]; intros counts; cbn [count_categories].
  - apply reads_ret.
  - apply reads_bind; [apply reads_select_category | intros selected; apply IH].
Qed.

Lemma evaluate_matches_frame h0 tenant_data now matches :
  forall h, keeps h0 h ->
  wp (run_matches tenant_data now matches)
     (fun _ h' => keeps h0 h') (fun _ h' => keeps h0 h') h.
Proof.
  induction matches as [|m rest IH]; intros h K; cbn [evaluate_matches].
  - apply wp_ret, K.
  - apply wp_bind.
    apply (wp_mono _ (fun _ h' => keeps h0 h') _ (fun _ h' => keeps h0 h'));
      [apply evaluate_match_frame, K | | auto].
    cbv beta. intros r h1 K1. apply wp_bind.
    apply (wp_mono _ (fun _ h' => keeps h0 h') _ (fun _ h' => keeps h0 h'));
      [apply IH, K1 | | auto].
    cbv beta. intros rs h2 K2. apply wp_ret, K2.
Qed.

Lemma evaluate_pipeline_frame h0 tenant_data now pipeline_data h :
  keeps h0 h ->
  wp (evaluate_pipeline_data tenant_data now pipeline_data)
     (fun _ h' => keeps h0 h') (fun _ h' => keeps h0 h') h.
Proof.
  intros K. unfold evaluate_pipeline_data.
  apply wp_bind. apply wp_reads; [apply reads_extract_matches | intros matches | auto].
  apply wp_bind.
  apply (wp_mono _ (fun _ h' => keeps h0 h') _ (fun _ h' => keeps h0 h'));
    [apply evaluate_matches_frame, K | | auto].
  cbv beta. intros evaluated h1 K1.
  apply wp_bind, wp_alloc. apply wp_bind.
  apply wp_reads; [apply reads_count_categories | intros counts | auto using keeps_alloc].
  apply wp_bind, wp_alloc, wp_alloc. auto using keeps_alloc.
Qed.

(** X14: [extract_matches_from_pipeline] only reads: whatever it is given,
    and whether it returns or raises, the store is as it was. *)
Theorem extract_matches_only_reads pipeline_data (h : heap) :
  final (extract_matches_from_pipeline pipeline_data h) = h.
Proof. apply reads_extract_matches. Qed.

(** X15: [evaluate_matches] and [evaluate_pipeline_data] leave every object
    of the store they are called in as it was, whether they return or raise:
    neither the pipeline data, which the result refers to without copying
    it, nor a candidate is modified. *)
Theorem evaluate_pipeline_does_not_mutate tenant_data now matches pipeline_data
    (h : heap) :
  (let h' := final (run_matches tenant_data now matches h) in
   forall l o, h !! l = Some o -> h' !! l = Some o)
  /\ (let h' := final (evaluate_pipeline_data tenant_data now pipeline_data h) in
      forall l o, h !! l = Some o -> h' !! l = Some o).
Proof.
  split; cbv zeta; intros l o Hl.
  - pose proof (evaluate_matches_frame h tenant_data now matches h (keeps_refl h)) as W.
    unfold wp in W. destruct (run_matches _ _ _ _); apply (keeps_lookup h); assumption.
  - pose proof (evaluate_pipeline_frame h tenant_data now pipeline_data h (keeps_refl h))
      as W.
    unfold wp in W.
    destruct (evaluate_pipeline_data _ _ _ _); apply (keeps_lookup h); assumption.
Qed.

End Pipeline.

(** *** A batch of candidates *)

Section Batch.

Variable sequence_ratio : str -> str -> float.
Variable jaro_winkler_similarity : str -> str -> float.
Variable format_2f : float -> str.
Variable container_eq : heap -> loc -> loc -> bool.

Local Abbreviation run_matches :=
  (evaluate_matches sequence_ratio jaro_winkler_similarity format_2f container_eq).
Local Abbreviation run_pipeline :=
  (evaluate_pipeline_data sequence_ratio jaro_winkler_similarity format_2f container_eq).

(** A candidate of the expected types, in the store. *)
Definition candidate_at (h : heap) (m : value) : Prop :=
  exists l d, m = VRef l /\ h !! l = Some (ODict d) /\ candidate_ok d.

(** [r] is the result of evaluating the candidate [m]: a dictionary made of
    the candidate's, a relevance score and the references to two lists of
    reasons. *)
Definition result_at (h : heap) (m r : value) : Prop :=
  exists lm dm l rel p,
    m = VRef lm /\ h !! lm = Some (ODict dm)
    /\ r = VRef l /\ h !! l = Some (ODict (result_dict dm rel p)).

(** A reference to an object that [h] does not have. *)
Definition new_in (h : heap) (r : value) : Prop :=
  exists l, r = VRef l /\ length h <= l.

Lemma candidate_at_keeps (h t : heap) m : candidate_at h m -> candidate_at (h ++ t) m.
Proof. intros (l & d & -> & Hl & Hd). exists l, d. auto using lookup_base. Qed.

Lemma result_at_keeps (h t : heap) m r : result_at h m r -> result_at (h ++ t) m r.
Proof.
  intros (lm & dm & l & rel & p & -> & Hm & -> & Hl).
  exists lm, dm, l, rel, p. auto using lookup_base.
Qed.

Lemma new_in_keeps (h t : heap) r : new_in (h ++ t) r -> new_in h r.
Proof. intros (l & -> & Hl). exists l. rewrite length_app in Hl. split; [reflexivity | lia]. Qed.

Lemma run_evaluate_matches lt dt now matches :
  forall h : heap,
    h !! lt = Some (ODict dt) -> normalized_ok h dt ->
    Forall (candidate_at h) matches ->
    exists rs t,
      run_matches (VRef lt) now matches h = Ok rs (h ++ t)
      /\ Forall2 (result_at (h ++ t)) matches rs
      /\ Forall (new_in h) rs.
Proof.
  induction matches as [|m rest IH]; intros h Ht Tok Hc; cbn [evaluate_matches].
  - exists [], []. rewrite app_nil_r. repeat split; constructor.
  - inversion Hc as [|m' rest' Hm Hrest]; subst.
    destruct Hm as (lm & dm & -> & Hlm & Mok).
    destruct (evaluate_match_returns sequence_ratio jaro_winkler_similarity format_2f
                container_eq lt lm dt dm now h Ht Hlm Tok Mok) as (s & _ & Hrun).
    cbv zeta in Hrun. rewrite (bind_ok _ _ _ _ _ Hrun).
    match type of Hrun with _ = Ok _ (h ++ ?x) => set (t1 := x) in * end.
    destruct (IH (h ++ t1)) as (rs & t2 & Hrs & H2 & Hnew).
    { apply lookup_base, Ht. }
    { apply normalized_ok_keeps, Tok. }
    { eapply Forall_impl; [exact Hrest|]. intros a. apply candidate_at_keeps. }
    rewrite (bind_ok _ _ _ _ _ Hrs). unfold ret.
    exists (VRef (length h) :: rs), (t1 ++ t2). rewrite app_assoc.
    split; [reflexivity|]. split.
    + constructor; [|exact H2].
      apply result_at_keeps. eexists lm, dm, (length h), _, _.
      split; [reflexivity|]. split; [apply lookup_base, Hlm|].
      split; [reflexivity|]. apply heap_at0.
    + constructor; [exists (length h); split; [reflexivity | lia]|].
      eapply Forall_impl; [exact Hnew|]. intros a. apply new_in_keeps.
Qed.

(** X16: [evaluate_matches] on candidates of the expected types returns one
    result for each candidate, in the order of the candidates: each is a new
    dictionary made of the candidate's, and the candidates are still in the
    store as they were.  The empty list gives the empty list. *)
Theorem evaluate_matches_in_order lt dt now matches (h : heap) :
  h !! lt = Some (ODict dt) -> normalized_ok h dt ->
  Forall (candidate_at h) matches ->
  exists rs h',
    run_matches (VRef lt) now matches h = Ok rs h'
    /\ length rs = length matches
    /\ Forall2 (result_at h') matches rs
    /\ Forall (new_in h) rs
    /\ (matches = [] -> rs = [] /\ h' = h).
Proof.
  intros Ht Tok Hc.
  destruct (run_evaluate_matches lt dt now matches h Ht Tok Hc) as (rs & t & Hrun & H2 & Hn).
  exists rs, (h ++ t). split; [exact Hrun|].
  split; [symmetry; eapply Forall2_length, H2|].
  split; [exact H2|]. split; [exact Hn|].
  intros ->. cbn in Hrun. injection Hrun as <- E.
  split; [reflexivity | symmetry; exact E].
Qed.

(** *** The counts *)

(** The value under ['match_category'] of a result. *)
Definition category_of (h : heap) (r : value) : option value :=
  match r with
  | VRef l => match h !! l with
              | Some (ODict d) => dict_get "match_category" d
              | _ => None
              end
  | _ => None
  end.

Definition in_category (h : heap) (category : string) (r : value) : bool :=
  match category_of h r with
  | Some c => py_eq container_eq h c (VStr (u category))
  | None => false
  end.

Lemma run_select_category category (h : heap) rs :
  Forall (fun r => category_of h r <> None) rs ->
  select_category container_eq category rs h
  = Ok (List.filter (in_category h category) rs) h.
Proof.
  induction 1 as [|r rs Hr _ IH]; cbn [select_category List.filter]; [reflexivity|].
  unfold in_category at 1. unfold category_of in *.
  destruct r; try (contradiction Hr; reflexivity).
  destruct (h !! l) as [[d| |]|] eqn:El; try (contradiction Hr; reflexivity).
  destruct (dict_get "match_category" d) as [c|] eqn:Ec; [|contradiction Hr; reflexivity].
  rewrite (bind_ok _ _ _ _ _ (run_getitem _ _ _ _ _ El Ec)).
  unfold bind at 1, reading, lift, ret. rewrite (bind_ok _ _ _ _ _ IH). reflexivity.
Qed.

Definition count_in (h : heap) (category : string) (rs : list value) : value :=
  VInt (Z.of_nat (length (List.filter (in_category h category) rs))).

Lemma run_count_categories (h : heap) rs :
  Forall (fun r => category_of h r <> None) rs ->
  count_categories container_eq MATCH_CATEGORIES rs [] h
  = Ok [ ("HIGH_RELEVANCE", count_in h "HIGH_RELEVANCE" rs);
         ("MEDIUM_RELEVANCE", count_in h "MEDIUM_RELEVANCE" rs);
         ("LOW_RELEVANCE", count_in h "LOW_RELEVANCE" rs);
         ("NOT_RELEVANT", count_in h "NOT_RELEVANT" rs) ] h.
Proof.
  intros H. unfold MATCH_CATEGORIES. cbn [count_categories cat_name].
  rewrite !(bind_ok _ _ _ _ _ (run_select_category _ h rs H)). reflexivity.
Qed.

Lemma category_of_result (h : heap) m r :
  result_at h m r ->
  exists rel, category_of h r = Some (VStr (u (mc_category (_get_match_category rel)))).
Proof.
  intros (lm & dm & l & rel & p & _ & _ & -> & Hl). exists rel.
  unfold category_of. rewrite Hl. apply get_result_category.
Qed.

Lemma one_category (h : heap) m r :
  result_at h m r ->
  Nat.b2n (in_category h "HIGH_RELEVANCE" r) + Nat.b2n (in_category h "MEDIUM_RELEVANCE" r)
  + Nat.b2n (in_category h "LOW_RELEVANCE" r) + Nat.b2n (in_category h "NOT_RELEVANT" r)
  = 1.
Proof.
  intros Hr. destruct (category_of_result h m r Hr) as (rel & E).
  unfold in_category. rewrite E, get_match_category_cases.
  destruct (0.8 <=? rel)%float; [reflexivity|].
  destruct (0.6 <=? rel)%float; [reflexivity|].
  destruct (0.4 <=? rel)%float; reflexivity.
Qed.

Lemma filter_partition {A} (p1 p2 p3 p4 : A -> bool) (l : list A) :
  Forall (fun x => Nat.b2n (p1 x) + Nat.b2n (p2 x) + Nat.b2n (p3 x) + Nat.b2n (p4 x) = 1) l ->
  length (List.filter p1 l) + length (List.filter p2 l)
  + length (List.filter p3 l) + length (List.filter p4 l) = length l.
Proof.
  induction 1 as [|x l Hx _ IH]; cbn [List.filter length]; [reflexivity|].
  destruct (p1 x), (p2 x), (p3 x), (p4 x); cbn [Nat.b2n] in Hx; cbn [length]; lia.
Qed.


Lemma in_category_keeps (h t : heap) category m r :
  result_at h m r -> in_category (h ++ t) category r = in_category h category r.
Proof.
  intros Hr. destruct (category_of_result h m r Hr) as (rel & E).
  destruct (category_of_result (h ++ t) m r (result_at_keeps h t m r Hr)) as (rel' & E').
  unfold in_category. rewrite E, E'.
  destruct Hr as (lm & dm & l & rel0 & p & _ & _ & -> & Hl).
  unfold category_of in E, E'. rewrite Hl in E. rewrite (lookup_base _ _ _ _ Hl) in E'.
  rewrite E in E'. injection E' as E'. cbn [py_eq]. rewrite E'. reflexivity.
Qed.

Lemma count_in_keeps (h t : heap) category matches rs :
  Forall2 (result_at h) matches rs ->
  count_in (h ++ t) category rs = count_in h category rs.
Proof.
  intros H2. unfold count_in. do 3 f_equal.
  induction H2 as [|m r ms rs Hr _ IH]; cbn [List.filter]; [reflexivity|].
  rewrite (in_category_keeps h t category m r Hr), IH. reflexivity.
Qed.

Lemma results_have_category (h : heap) matches rs :
  Forall2 (result_at h) matches rs -> Forall (fun r => category_of h r <> None) rs.
Proof.
  induction 1 as [|m r ms rs Hr _ IH]; constructor; [|exact IH].
  destruct (category_of_result h m r Hr) as (rel & ->). discriminate.
Qed.

Lemma results_one_category (h : heap) matches rs :
  Forall2 (result_at h) matches rs ->
  Forall (fun r => Nat.b2n (in_category h "HIGH_RELEVANCE" r)
                   + Nat.b2n (in_category h "MEDIUM_RELEVANCE" r)
                   + Nat.b2n (in_category h "LOW_RELEVANCE" r)
                   + Nat.b2n (in_category h "NOT_RELEVANT" r) = 1) rs.
Proof.
  induction 1 as [|m r ms rs Hr _ IH]; constructor; [|exact IH].
  apply (one_category h m r Hr).
Qed.

(** The dictionary of the counts over the results [rs], read in [h]. *)
Definition counts_of (h : heap) (rs : list value) : dict :=
  [ ("HIGH_RELEVANCE", count_in h "HIGH_RELEVANCE" rs);
    ("MEDIUM_RELEVANCE", count_in h "MEDIUM_RELEVANCE" rs);
    ("LOW_RELEVANCE", count_in h "LOW_RELEVANCE" rs);
    ("NOT_RELEVANT", count_in h "NOT_RELEVANT" rs) ].

Lemma run_evaluate_pipeline_data lt dt now pipeline_data matches (h : heap) :
  h !! lt = Some (ODict dt) -> normalized_ok h dt ->
  extract_matches_from_pipeline pipeline_data h = Ok matches h ->
  Forall (candidate_at h) matches ->
  exists rs t,
    let h1 := h ++ t in
    let h' := h1 ++ [OList rs; ODict (counts_of h1 rs);
                     ODict [("original_pipeline_data", pipeline_data);
                            ("evaluated_matches", VRef (length h1));
                            ("match_counts", VRef (S (length h1)))]] in
    run_pipeline (VRef lt) now pipeline_data h = Ok (VRef (S (S (length h1)))) h'
    /\ Forall2 (result_at h1) matches rs.
Proof.
  intros Ht Tok Hex Hc.
  destruct (run_evaluate_matches lt dt now matches h Ht Tok Hc) as (rs & t & Hrun & H2 & _).
  exists rs, t. cbv zeta. split; [|exact H2].
  unfold evaluate_pipeline_data.
  rewrite (bind_ok _ _ _ _ _ Hex), (bind_ok _ _ _ _ _ Hrun).
  unfold bind at 1, alloc at 1.
  assert (H2' : Forall2 (result_at ((h ++ t) ++ [OList rs])) matches rs).
  { eapply Forall2_impl; [exact H2|]. intros m r. apply result_at_keeps. }
  rewrite (bind_ok _ _ _ _ _
             (run_count_categories _ rs (results_have_category _ _ _ H2'))).
  rewrite !(count_in_keeps (h ++ t) [OList rs] _ matches rs H2).
  fold (counts_of (h ++ t) rs).
  unfold bind, alloc. rewrite !length_app. cbn [length].
  rewrite <- !app_assoc. cbn [app]. rewrite !Nat.add_1_r.
  rewrite <- ?plus_n_Sm, <- ?plus_n_O. reflexivity.
Qed.

(** X17: [evaluate_pipeline_data], when the extraction gives candidates of
    the expected types: it returns a new dictionary with three keys.
    ['original_pipeline_data'] refers to the very object it was given, not
    to a copy; ['evaluated_matches'] is a new list with one result for each
    extracted candidate, in the order of the extraction; ['match_counts'] is
    a new dictionary.  [evaluate_tenant] is the same computation. *)
Theorem evaluate_pipeline_data_result lt dt now pipeline_data matches (h : heap) :
  h !! lt = Some (ODict dt) -> normalized_ok h dt ->
  extract_matches_from_pipeline pipeline_data h = Ok matches h ->
  Forall (candidate_at h) matches ->
  exists rs counts h' lres le lc,
    run_pipeline (VRef lt) now pipeline_data h = Ok (VRef lres) h'
    /\ h' !! lres = Some (ODict [("original_pipeline_data", pipeline_data);
                                 ("evaluated_matches", VRef le);
                                 ("match_counts", VRef lc)])
    /\ h' !! le = Some (OList rs)
    /\ h' !! lc = Some (ODict counts)
    /\ length h <= le /\ length h <= lc /\ length h <= lres
    /\ Forall2 (result_at h') matches rs
    /\ evaluate_tenant sequence_ratio jaro_winkler_similarity format_2f container_eq
         (VRef lt) now pipeline_data h
       = run_pipeline (VRef lt) now pipeline_data h.
Proof.
  intros Ht Tok Hex Hc.
  destruct (run_evaluate_pipeline_data lt dt now pipeline_data matches h Ht Tok Hex Hc)
    as (rs & t & Hrun & H2).
  cbv zeta in Hrun. eexists rs, _, _, _, _, _.
  split; [exact Hrun|].
  split; [apply heap_at2|]. split; [apply heap_at0|]. split; [apply heap_at1|].
  rewrite length_app.
  split; [lia|]. split; [lia|]. split; [lia|].
  split; [|reflexivity].
  eapply Forall2_impl; [exact H2|]. intros m r. apply result_at_keeps.
Qed.

(** X18: the counts of [evaluate_pipeline_data].  ['match_counts'] holds the
    four categories, in the order of the table, each with the number of
    evaluated matches whose ['match_category'] it is; every evaluated match
    is counted once: the four counts sum to the number of the candidates. *)
Theorem evaluate_pipeline_counts lt dt now pipeline_data matches (h : heap) :
  h !! lt = Some (ODict dt) -> normalized_ok h dt ->
  extract_matches_from_pipeline pipeline_data h = Ok matches h ->
  Forall (candidate_at h) matches ->
  exists rs h' lres dres le lc,
    run_pipeline (VRef lt) now pipeline_data h = Ok (VRef lres) h'
    /\ h' !! lres = Some (ODict dres)
    /\ dict_get "evaluated_matches" dres = Some (VRef le)
    /\ h' !! le = Some (OList rs)
    /\ dict_get "match_counts" dres = Some (VRef lc)
    /\ h' !! lc = Some (ODict (counts_of h' rs))
    /\ length (List.filter (in_category h' "HIGH_RELEVANCE") rs)
       + length (List.filter (in_category h' "MEDIUM_RELEVANCE") rs)
       + length (List.filter (in_category h' "LOW_RELEVANCE") rs)
       + length (List.filter (in_category h' "NOT_RELEVANT") rs)
       = length matches.
Proof.
  intros Ht Tok Hex Hc.
  destruct (run_evaluate_pipeline_data lt dt now pipeline_data matches h Ht Tok Hex Hc)
    as (rs & t & Hrun & H2).
  cbv zeta in Hrun. eexists rs, _, _, _, _, _.
  split; [exact Hrun|].
  split; [apply heap_at2|]. split; [reflexivity|]. split; [apply heap_at0|].
  split; [reflexivity|].
  match goal with |- ?hh !! _ = _ /\ _ => set (h' := hh) end.
  assert (H2' : Forall2 (result_at h') matches rs).
  { eapply Forall2_impl; [exact H2|]. intros m r. apply result_at_keeps. }
  split.
  - unfold counts_of, h'. rewrite !(count_in_keeps (h ++ t) _ _ matches rs H2).
    apply heap_at1.
  - rewrite (filter_partition _ _ _ _ rs (results_one_category h' matches rs H2')).
    symmetry. eapply Forall2_length, H2.
Qed.

(** X19: [evaluate_pipeline_data] on a dictionary without the key
    ['pipeline'], whatever the reference identity is: no candidate is
    evaluated, the list of the evaluated matches is empty and the four
    counts are zero. *)
Theorem evaluate_pipeline_without_steps tenant_data now l d (h : heap) :
  h !! l = Some (ODict d) -> dict_get "pipeline" d = None ->
  run_pipeline tenant_data now (VRef l) h
  = Ok (VRef (S (S (length h))))
       (h ++ [OList [];
              ODict [("HIGH_RELEVANCE", VInt 0); ("MEDIUM_RELEVANCE", VInt 0);
                     ("LOW_RELEVANCE", VInt 0); ("NOT_RELEVANT", VInt 0)];
              ODict [("original_pipeline_data", VRef l);
                     ("evaluated_matches", VRef (length h));
                     ("match_counts", VRef (S (length h)))]]).
Proof.
  intros Hl Hp. unfold evaluate_pipeline_data, extract_matches_from_pipeline.
  rewrite bind_assoc, (bind_ok _ _ _ _ _ (run_contains _ _ _ _ Hl)).
  unfold dict_mem. rewrite Hp. unfold bind, ret, alloc. cbn.
  rewrite !length_app. cbn [length]. rewrite <- !app_assoc. cbn [app].
  rewrite !Nat.add_1_r. reflexivity.
Qed.

End Batch.

(** A store with the reference, the candidate of the test suite, and a
    pipeline whose only step lists that candidate twice. *)
Definition test_pipeline_store : heap :=
  test_store
  ++ [ ODict [("pipeline", VRef 4)];
       OList [VRef 5];
       ODict [("type", VStr blacklist_tag); ("results", VRef 6)];
       OList [VRef 2; VRef 2] ].

Lemma test_pipeline_reference_ok :
  normalized_ok test_pipeline_store (normalized_dict test_today 1 test_record).
Proof. apply normalized_ok_keeps, test_reference_ok. Qed.

Lemma test_pipeline_candidates :
  Forall (candidate_at test_pipeline_store) [VRef 2; VRef 2].
Proof.
  repeat constructor; exists 2, test_candidate;
    (split; [reflexivity | split; [reflexivity | apply test_candidate_ok]]).
Qed.

Lemma test_pipeline_extraction :
  extract_matches_from_pipeline (VRef 3) test_pipeline_store
  = Ok [VRef 2; VRef 2] test_pipeline_store.
Proof. reflexivity. Qed.

Lemma evaluate_matches_in_order_witness :
  exists rs h',
    evaluate_matches exact_ratio exact_ratio sample_format sample_container_eq
      (VRef 0) test_today [VRef 2; VRef 2] test_pipeline_store = Ok rs h'
    /\ length rs = 2.
Proof.
  destruct (evaluate_matches_in_order exact_ratio exact_ratio sample_format
              sample_container_eq 0 _ test_today [VRef 2; VRef 2] test_pipeline_store
              eq_refl test_pipeline_reference_ok test_pipeline_candidates)
    as (rs & h' & Hrun & Hlen & _).
  exists rs, h'. split; [exact Hrun | exact Hlen].
Defined.

Lemma evaluate_pipeline_data_result_witness :
  exists rs h' lres le lc,
    evaluate_pipeline_data exact_ratio exact_ratio sample_format sample_container_eq
      (VRef 0) test_today (VRef 3) test_pipeline_store = Ok (VRef lres) h'
    /\ h' !! lres = Some (ODict [("original_pipeline_data", VRef 3);
                                 ("evaluated_matches", VRef le);
                                 ("match_counts", VRef lc)])
    /\ h' !! le = Some (OList rs)
    /\ length rs = 2.
Proof.
  destruct (evaluate_pipeline_data_result exact_ratio exact_ratio sample_format
              sample_container_eq 0 _ test_today (VRef 3) [VRef 2; VRef 2]
              test_pipeline_store eq_refl test_pipeline_reference_ok
              test_pipeline_extraction test_pipeline_candidates)
    as (rs & counts & h' & lres & le & lc & Hrun & Hres & Hle & _ & _ & _ & _ & H2 & _).
  exists rs, h', lres, le, lc.
  split; [exact Hrun|]. split; [exact Hres|]. split; [exact Hle|].
  symmetry. exact (Forall2_length _ _ _ H2).
Defined.

Lemma evaluate_pipeline_counts_witness :
  exists rs h' lres,
    evaluate_pipeline_data exact_ratio exact_ratio sample_format sample_container_eq
      (VRef 0) test_today (VRef 3) test_pipeline_store = Ok (VRef lres) h'
    /\ length (List.filter (in_category sample_container_eq h' "HIGH_RELEVANCE") rs)
       + length (List.filter (in_category sample_container_eq h' "MEDIUM_RELEVANCE") rs)
       + length (List.filter (in_category sample_container_eq h' "LOW_RELEVANCE") rs)
       + length (List.filter (in_category sample_container_eq h' "NOT_RELEVANT") rs)
       = 2.
Proof.
  destruct (evaluate_pipeline_counts exact_ratio exact_ratio sample_format
              sample_container_eq 0 _ test_today (VRef 3) [VRef 2; VRef 2]
              test_pipeline_store eq_refl test_pipeline_reference_ok
              test_pipeline_extraction test_pipeline_candidates)
    as (rs & h' & lres & dres & le & lc & Hrun & _ & _ & _ & _ & _ & Hsum).
  exists rs, h', lres. split; [exact Hrun | exact Hsum].
Defined.

Lemma evaluate_pipeline_without_steps_witness :
  evaluate_pipeline_data exact_ratio exact_ratio sample_format sample_container_eq
    VNone test_today (VRef 0) [ODict [("steps", VNone)]]
  = Ok (VRef 3)
       [ ODict [("steps", VNone)];
         OList [];
         ODict [("HIGH_RELEVANCE", VInt 0); ("MEDIUM_RELEVANCE", VInt 0);
                ("LOW_RELEVANCE", VInt 0); ("NOT_RELEVANT", VInt 0)];
         ODict [("original_pipeline_data", VRef 0); ("evaluated_matches", VRef 1);
                ("match_counts", VRef 2)] ].
Proof.
  apply (evaluate_pipeline_without_steps exact_ratio exact_ratio sample_format
           sample_container_eq VNone test_today 0 [("steps", VNone)]
           [ODict [("steps", VNone)]]); reflexivity.
Defined.

(* ------------------------------------------------------------------------- *)
(** ** Comparing what is already normalized *)

Section Prenormalized.

Variable sequence_ratio : str -> str -> float.
Variable jaro_winkler_similarity : str -> str -> float.

Lemma normalize_name_of_normalized (h : heap) s :
  forallb is_latin1 s = true -> normalize_str s <> [] ->
  truthy h (VStr s) = true
  /\ truthy h (VStr (normalize_str s)) = true
  /\ _normalize_name h (VStr s) = inr (normalize_str s)
  /\ _normalize_name h (VStr (normalize_str s)) = inr (normalize_str s).
Proof.
  intros Hl Hn. unfold _normalize_name.
  destruct s as [|c s]; [contradiction Hn; reflexivity|].
  destruct (normalize_str (c :: s)) as [|c' n] eqn:E; [contradiction Hn; reflexivity|].
  cbn [truthy is_nil negb]. repeat split.
  rewrite <- E, (normalize_str_idempotent _ Hl). reflexivity.
Qed.

(** X20: the comparators normalize their arguments themselves, and
    [evaluate_match] gives them values that normalization has already been
    through.  That changes nothing: on two Latin-1 strings whose normalized
    forms are not empty, the similarity of the names, of the locations and
    of the nationalities is the same on the strings and on their normalized
    forms. *)
Theorem comparators_ignore_prior_normalization (h : heap) (a b : str) :
  forallb is_latin1 a = true -> forallb is_latin1 b = true ->
  normalize_str a <> [] -> normalize_str b <> [] ->
  _calculate_name_similarity sequence_ratio jaro_winkler_similarity h
    (VStr (normalize_str a)) (VStr (normalize_str b))
  = _calculate_name_similarity sequence_ratio jaro_winkler_similarity h (VStr a) (VStr b)
  /\ _compare_locations sequence_ratio h (VStr (normalize_str a)) (VStr (normalize_str b))
     = _compare_locations sequence_ratio h (VStr a) (VStr b)
  /\ _compare_nationalities h (VStr (normalize_str a)) (VStr (normalize_str b))
     = _compare_nationalities h (VStr a) (VStr b).
Proof.
  intros La Lb Na Nb.
  destruct (normalize_name_of_normalized h a La Na) as (Ta & Ta' & Ea & Ea').
  destruct (normalize_name_of_normalized h b Lb Nb) as (Tb & Tb' & Eb & Eb').
  unfold _calculate_name_similarity, _compare_locations, _compare_nationalities.
  rewrite Ta, Ta', Tb, Tb', Ea, Ea', Eb, Eb'. repeat split.
Qed.

End Prenormalized.

Lemma comparators_ignore_prior_normalization_witness :
  _compare_nationalities [] (VStr (u "us")) (VStr (u "uk"))
  = _compare_nationalities [] (VStr (u "U.S.")) (VStr (u "U.K.")).
Proof.
  destruct (comparators_ignore_prior_normalization exact_ratio exact_ratio []
              (u "U.S.") (u "U.K.") eq_refl eq_refl) as (_ & _ & H);
    [discriminate | discriminate | exact H].
Defined.

(** *** Batches in sequence, and a batch that fails *)

Section BatchSequence.

Variable sequence_ratio : str -> str -> float.
Variable jaro_winkler_similarity : str -> str -> float.
Variable format_2f : float -> str.
Variable container_eq : heap -> loc -> loc -> bool.

Local Abbreviation run_match :=
  (evaluate_match sequence_ratio jaro_winkler_similarity format_2f container_eq).
Local Abbreviation run_matches :=
  (evaluate_matches sequence_ratio jaro_winkler_similarity format_2f container_eq).

(** X21: [evaluate_matches] on a list in two parts is the evaluation of the
    first part, then that of the second in the store the first leaves, with
    the results in that order; the first exception ends it.  This holds for
    every input. *)
Theorem evaluate_matches_in_sequence tenant_data now (first second : list value)
    (h : heap) :
  run_matches tenant_data now (first ++ second) h
  = match run_matches tenant_data now first h with
    | Ok rs h1 =>
        match run_matches tenant_data now second h1 with
        | Ok rs' h2 => Ok (rs ++ rs') h2
        | Raise e h2 => Raise e h2
        end
    | Raise e h1 => Raise e h1
    end.
Proof.
  revert h. induction first as [|m rest IH]; intros h; cbn [app evaluate_matches].
  - unfold ret. destruct (run_matches tenant_data now second h); reflexivity.
  - unfold bind, ret.
    destruct (run_match tenant_data now m h) as [r h1|e h1]; [|reflexivity].
    rewrite IH.
    destruct (run_matches tenant_data now rest h1) as [rs h2|e h2]; [|reflexivity].
    destruct (run_matches tenant_data now second h2) as [rs' h3|e h3]; reflexivity.
Qed.

Lemma evaluate_match_scalar tenant_data now bad (h : heap) :
  (forall l, bad <> VRef l) -> run_match tenant_data now bad h = Raise AttributeError h.
Proof.
  intros Hb. unfold evaluate_match. apply bind_raise.
  destruct bad; try reflexivity. destruct (Hb l eq_refl).
Qed.

Lemma run_matches_until_scalar lt dt now bad after : forall before (h : heap),
  h !! lt = Some (ODict dt) -> normalized_ok h dt ->
  Forall (candidate_at h) before ->
  (forall l, bad <> VRef l) ->
  exists t, run_matches (VRef lt) now (before ++ bad :: after) h
            = Raise AttributeError (h ++ t).
Proof.
  induction before as [|m rest IH]; intros h Ht Tok Hc Hb; cbn [app evaluate_matches].
  - exists []. rewrite app_nil_r. apply bind_raise, evaluate_match_scalar, Hb.
  - inversion Hc as [|m' rest' Hm Hrest]; subst.
    destruct Hm as (lm & dm & -> & Hlm & Mok).
    destruct (evaluate_match_returns sequence_ratio jaro_winkler_similarity format_2f
                container_eq lt lm dt dm now h Ht Hlm Tok Mok) as (s & _ & Hrun).
    cbv zeta in Hrun. rewrite (bind_ok _ _ _ _ _ Hrun).
    match type of Hrun with _ = Ok _ (h ++ ?x) => set (t1 := x) in * end.
    destruct (IH (h ++ t1)) as (t2 & Hrs).
    { apply lookup_base, Ht. }
    { apply normalized_ok_keeps, Tok. }
    { eapply Forall_impl; [exact Hrest|]. intros a. apply candidate_at_keeps. }
    { exact Hb. }
    exists (t1 ++ t2). rewrite app_assoc. apply bind_raise, Hrs.
Qed.

(** X22: a batch with a candidate that is not a container (a number, a
    string, [None]).  [evaluate_matches] evaluates the candidates before it,
    then raises [AttributeError], from the [copy] of that candidate: no
    result is returned, those after it are not looked at, and the objects of
    the store are as they were. *)
Theorem evaluate_matches_stops_at_scalar lt dt now before bad after (h : heap) :
  h !! lt = Some (ODict dt) -> normalized_ok h dt ->
  Forall (candidate_at h) before ->
  (forall l, bad <> VRef l) ->
  exists h',
    run_matches (VRef lt) now (before ++ bad :: after) h = Raise AttributeError h'
    /\ (forall l o, h !! l = Some o -> h' !! l = Some o)
    /\ (before = [] -> h' = h).
Proof.
  intros Ht Tok Hc Hb.
  destruct (run_matches_until_scalar lt dt now bad after before h Ht Tok Hc Hb)
    as (t & Hrun).
  exists (h ++ t). split; [exact Hrun|]. split.
  - intros l o Hl. apply lookup_base, Hl.
  - intros ->. cbn [app evaluate_matches] in Hrun.
    rewrite (bind_raise _ _ _ _ _ (evaluate_match_scalar (VRef lt) now bad h Hb)) in Hrun.
    injection Hrun as E. symmetry; exact E.
Qed.

End BatchSequence.

Lemma evaluate_matches_stops_at_scalar_witness :
  exists h',
    evaluate_matches exact_ratio exact_ratio sample_format sample_container_eq
      (VRef 0) test_today [VRef 2; VNone; VRef 2] test_pipeline_store
    = Raise AttributeError h'.
Proof.
  destruct (evaluate_matches_stops_at_scalar exact_ratio exact_ratio sample_format
              sample_container_eq 0 _ test_today [VRef 2] VNone [VRef 2]
              test_pipeline_store eq_refl test_pipeline_reference_ok)
    as (h' & Hrun & _).
  - constructor; [|constructor]. exists 2, test_candidate.
    split; [reflexivity | split; [reflexivity | apply test_candidate_ok]].
  - discriminate.
  - exists h'. exact Hrun.
Defined.

(** *** The score, the category and the label of a result agree *)

Section ResultAgrees.

Variable sequence_ratio : str -> str -> float.
Variable jaro_winkler_similarity : str -> str -> float.
Variable format_2f : float -> str.
Variable container_eq : heap -> loc -> loc -> bool.

Local Abbreviation run_match :=
  (evaluate_match sequence_ratio jaro_winkler_similarity format_2f container_eq).

Local Open Scope float_scope.

(** X23: in the result of [evaluate_match] the three fields of the
    classification agree: ['match_category'] is the category of the score
    under ['relevance_score'] (the first of [0.8], [0.6], [0.4] that the score
    reaches, [NOT_RELEVANT] when it reaches none), and ['match_label'] is the
    label the table gives for that category. *)
Theorem evaluate_match_classifies_its_score lt lm dt dm now (h : heap) :
  h !! lt = Some (ODict dt) -> h !! lm = Some (ODict dm) ->
  normalized_ok h dt -> candidate_ok dm ->
  exists dres h' rel category,
    run_match (VRef lt) now (VRef lm) h = Ok (VRef (length h)) h'
    /\ h' !! length h = Some (ODict dres)
    /\ dict_get "relevance_score" dres = Some (VFloat rel)
    /\ dict_get "match_category" dres = Some (VStr (u category))
    /\ dict_get "match_label" dres = Some (VStr (u (label_of category)))
    /\ category = (if 0.8 <=? rel then "HIGH_RELEVANCE"
                   else if 0.6 <=? rel then "MEDIUM_RELEVANCE"
                   else if 0.4 <=? rel then "LOW_RELEVANCE"
                   else "NOT_RELEVANT").
Proof.
  intros Ht Hm Tok Mok.
  destruct (evaluate_match_returns sequence_ratio jaro_winkler_similarity format_2f
              container_eq lt lm dt dm now h Ht Hm Tok Mok) as (s & Hs & Hrun).
  cbv zeta in Hrun.
  eexists _, _, _, _. split; [exact Hrun|]. split; [apply heap_at0|].
  split; [apply get_result_relevance|].
  split; [apply get_result_category|].
  rewrite get_result_label, get_match_category_cases.
  split.
  - destruct (0.8 <=? _); [reflexivity|].
    destruct (0.6 <=? _); [reflexivity|].
    destruct (0.4 <=? _); reflexivity.
  - destruct (0.8 <=? _); [reflexivity|].
    destruct (0.6 <=? _); [reflexivity|].
    destruct (0.4 <=? _); reflexivity.
Qed.

End ResultAgrees.

Lemma evaluate_match_classifies_its_score_witness :
  exists rel category,
    result_field "relevance_score"
      (evaluate_match exact_ratio exact_ratio sample_format sample_container_eq
         (VRef 0) test_today (VRef 2) test_store) as_ref = Some (VFloat rel)
    /\ result_field "match_category"
         (evaluate_match exact_ratio exact_ratio sample_format sample_container_eq
            (VRef 0) test_today (VRef 2) test_store) as_ref = Some (VStr (u category))
    /\ result_field "match_label"
         (evaluate_match exact_ratio exact_ratio sample_format sample_container_eq
            (VRef 0) test_today (VRef 2) test_store) as_ref
       = Some (VStr (u (label_of category))).
Proof.
  destruct (evaluate_match_classifies_its_score exact_ratio exact_ratio sample_format
              sample_container_eq 0 2 _ _ test_today test_store eq_refl eq_refl
              test_reference_ok test_candidate_ok)
    as (dres & h' & rel & category & Hrun & Hres & Hrel & Hcat & Hlab & _).
  exists rel, category. unfold result_field, as_ref. rewrite Hrun, Hres. auto.
Defined.

(* ------------------------------------------------------------------------- *)
(** ** The full name in [evaluate_match] *)

Section FullNameMatch.

Variable sequence_ratio : str -> str -> float.
Variable jaro_winkler_similarity : str -> str -> float.
Variable format_2f : float -> str.
Variable container_eq : heap -> loc -> loc -> bool.

Local Abbreviation sim := (_calculate_name_similarity sequence_ratio jaro_winkler_similarity).
Local Abbreviation run_match :=
  (evaluate_match sequence_ratio jaro_winkler_similarity format_2f container_eq).

Local Open Scope float_scope.

(** On a string or a scalar that is false, the similarity of two names does
    not read the store. *)
Lemma sim_any_store (h h0 : heap) a b :
  name_value_ok a = true -> name_value_ok b = true -> sim h0 a b = sim h a b.
Proof.
  intros Ha Hb. unfold _calculate_name_similarity, _normalize_name.
  rewrite !(truthy_name_ok h0), !(truthy_name_ok h) by assumption. reflexivity.
Qed.

(** The name score [evaluate_match] computes when both dictionaries have
    ['full_name']. *)
Lemma full_name_score dt dm a b now (h : heap) s :
  normalized_ok h dt -> candidate_ok dm ->
  dict_get "full_name" dt = Some a -> dict_get "full_name" dm = Some b ->
  all_scores sequence_ratio jaro_winkler_similarity container_eq
    (scoring_store now h dm) dt (normalized_dict now (S (S (length h))) dm) = inr s ->
  forall h0, sim h0 a (norm_value b) = inr (name_score s).
Proof.
  intros Tok Mok Ea Eb Hs h0.
  assert (Oka : name_value_ok a = true).
  { destruct Tok as (Hn & _). specialize (Hn "full_name"). rewrite Ea in Hn.
    apply Hn. cbn; tauto. }
  assert (Okb : name_value_ok (norm_value b) = true).
  { destruct Mok as (Hn & _). specialize (Hn "full_name"). rewrite Eb in Hn.
    apply norm_value_ok, Hn. cbn; tauto. }
  destruct (all_scores_parts sequence_ratio jaro_winkler_similarity container_eq
              _ _ _ _ Hs) as (Hn & _).
  rewrite <- Hn. unfold name_score_for.
  rewrite (get_normalized_name "full_name") by (cbn; tauto).
  rewrite Ea, Eb. cbn [option_map]. apply sim_any_store; assumption.
Qed.

Lemma sim_of_false (h : heap) a b x :
  sim h a b = inr x -> truthy h a = false \/ truthy h b = false -> x = 0.
Proof.
  unfold _calculate_name_similarity. intros Hx [E | E]; rewrite E in Hx;
    cbn [negb orb] in Hx; rewrite ?orb_true_r in Hx; injection Hx as Hx;
    symmetry; exact Hx.
Qed.

Lemma name_reasons_of_zero (s : scores) :
  name_score s = 0 ->
  name_match format_2f s = []
  /\ name_mismatch format_2f s = [with_score format_2f "Name is not a good match" 0].
Proof. intros Z. unfold name_match, name_mismatch. rewrite Z. split; reflexivity. Qed.

(** C10: when the reference dictionary and the candidate both have the key
    ['full_name'], [evaluate_match] takes the name score from the two values
    under that key alone: among the scores of the comparators, that of the
    name is the similarity of the reference's full name and the candidate's
    normalized one, whatever the first names, the last names and the name
    parts are.  That score is the one weighted into the relevance score and
    the one the reason about the name is made from.  When either full name is
    empty or false it is [0.0], and the name is reported as a mismatch. *)
Theorem evaluate_match_full_name_alone lt lm dt dm a b now (h : heap) :
  h !! lt = Some (ODict dt) -> h !! lm = Some (ODict dm) ->
  normalized_ok h dt -> candidate_ok dm ->
  dict_get "full_name" dt = Some a -> dict_get "full_name" dm = Some b ->
  exists s dres h' lr lq more_matches more_mismatches,
    run_match (VRef lt) now (VRef lm) h = Ok (VRef (length h)) h'
    /\ h' !! length h = Some (ODict dres)
    /\ all_scores sequence_ratio jaro_winkler_similarity container_eq
         (scoring_store now h dm) dt (normalized_dict now (S (S (length h))) dm)
       = inr s
    /\ (forall h0, sim h0 a (norm_value b) = inr (name_score s))
    /\ dict_get "relevance_score" dres
       = Some (VFloat (weighted_score s
                         (weights_for (dict_mem "dob" dm && dict_mem "dob" dt)
                            (dict_mem "location" dm && dict_mem "location" dt)
                            (dict_mem "nationality" dm && dict_mem "nationality" dt)
                            (dict_mem "gender" dm && dict_mem "gender" dt))))
    /\ dict_get "match_reasons" dres = Some (VRef lr)
    /\ h' !! lr = Some (OList (map VStr (name_match format_2f s ++ more_matches)))
    /\ dict_get "mismatch_reasons" dres = Some (VRef lq)
    /\ h' !! lq = Some (OList (map VStr (name_mismatch format_2f s ++ more_mismatches)))
    /\ (truthy h a = false \/ truthy h (norm_value b) = false ->
        name_score s = 0
        /\ name_match format_2f s = []
        /\ name_mismatch format_2f s
           = [with_score format_2f "Name is not a good match" 0]).
Proof.
  intros Ht Hm Tok Mok Ea Eb.
  destruct (evaluate_match_returns sequence_ratio jaro_winkler_similarity format_2f
              container_eq lt lm dt dm now h Ht Hm Tok Mok) as (s & Hs & Hrun).
  cbv zeta in Hrun.
  rewrite reasons_for_by_attribute in Hrun. cbn [fst snd] in Hrun.
  rewrite !present_raw in Hrun by (cbn; tauto).
  pose proof (full_name_score dt dm a b now h s Tok Mok Ea Eb Hs) as Hname.
  exists s. eexists _, _, _, _, _, _.
  split; [exact Hrun|]. split; [apply heap_at0|].
  split; [exact Hs|]. split; [exact Hname|].
  split; [apply get_result_relevance|].
  split; [apply get_result_match|].
  split; [exact (lookup_at h _ 3)|].
  split; [apply get_result_mismatch|].
  split; [exact (lookup_at h _ 4)|].
  intros Hfalse.
  assert (Z : name_score s = 0) by exact (sim_of_false h _ _ _ (Hname h) Hfalse).
  split; [exact Z | apply name_reasons_of_zero, Z].
Qed.

End FullNameMatch.

Lemma sample_reference_ok :
  normalized_ok sample_empty_full_name
    [("full_name", VStr []); ("first_name", VStr (u "john"));
     ("last_name", VStr (u "doe")); ("name_parts", VRef 1)].
Proof. split; [each_field | split; [exact I | reflexivity]]. Qed.

Lemma sample_candidate_ok :
  candidate_ok
    [("full_name", VStr []); ("first_name", VStr (u "john"));
     ("last_name", VStr (u "doe")); ("name_parts", VRef 3)].
Proof. split; [each_field | exact I]. Qed.

Lemma evaluate_match_full_name_alone_witness :
  exists s h' lq more,
    evaluate_match exact_ratio exact_ratio sample_format sample_container_eq
      (VRef 0) test_today (VRef 2) sample_empty_full_name = Ok (VRef 4) h'
    /\ name_score s = 0%float
    /\ h' !! lq
       = Some (OList (map VStr (with_score sample_format "Name is not a good match" 0
                                :: more))).
Proof.
  destruct (evaluate_match_full_name_alone exact_ratio exact_ratio sample_format
              sample_container_eq 0 2 _ _ (VStr []) (VStr []) test_today
              sample_empty_full_name eq_refl eq_refl sample_reference_ok
              sample_candidate_ok eq_refl eq_refl)
    as (s & dres & h' & lr & lq & mm & mq & Hrun & _ & _ & _ & _ & _ & _ & _ & Hq & Hz).
  destruct (Hz (or_introl eq_refl)) as (Z & _ & Hmis).
  exists s, h', lq, mq. split; [exact Hrun|]. split; [exact Z|].
  rewrite Hq, Hmis. reflexivity.
Defined.
